(** * OmniSpark: generation orchestration and lineage-tracking layer

    A shallow embedding of the orchestration code of the repository
    ([services/geminiService.ts], the [App] component and the step
    components [StepIdeation], [StepVisualizer], [StepProduction]) and the
    properties of its history model.

    Conventions of the embedding.
    - A TypeScript interface is a record inside a module of the same name,
      so that the field names of the source are kept ([SceneConcept.id],
      [ImageHistoryItem.conceptId], ...).  An optional field [f?: T] has
      type [option T]; [None] is [undefined].
    - An [async] function is a computation in the monad [Async]: it reads
      and updates a [World] (the module-level configuration of the service,
      the answers the provider will give, and the log of the calls issued),
      and either returns, throws, or stays pending on an await that never
      settles.
    - Prompt texts are template literals of the source.  A value of type
      [Prompt] names the template and carries the interpolated values.
    - [console.warn] and [console.error] have no effect on the state and
      are left out.
    - The text of an answer is seen through [JSON.parse].  The concepts
      are returned by the service as parsed, at the type the code casts
      them to.  The storyboard descriptors are read by the service
      itself ([length], [map]), so their text may parse to an array, to
      [null] or to any other value.
    - A client of the SDK is the key it is created with, which is logged
      with each request; what the SDK itself does with a missing key is
      not part of the embedding. *)

From Stdlib Require Import String Ascii List NArith Arith Lia Bool DecimalString.
Import ListNotations.
Open Scope string_scope.
Open Scope list_scope.

(* ================================================================== *)
(** * JavaScript values used by the code *)
(* ================================================================== *)

(** [s.startsWith(p)], and the rest of [s] after [p]. *)
Fixpoint stripPrefix (p s : string) : option string :=
  match p with
  | EmptyString => Some s
  | String a p' =>
      match s with
      | EmptyString => None
      | String b s' => if Ascii.eqb a b then stripPrefix p' s' else None
      end
  end.

(** [s.includes(sub)] *)
Fixpoint includes (s sub : string) : bool :=
  match stripPrefix sub s with
  | Some _ => true
  | None =>
      match s with
      | EmptyString => false
      | String _ s' => includes s' sub
      end
  end.

(** [img.replace(/^data:image\/(png|jpeg|jpg);base64,/, "")]: the first
    alternative that matches at the start of the string is removed. *)
Definition stripDataUrl (img : string) : string :=
  match stripPrefix "data:image/png;base64," img with
  | Some rest => rest
  | None =>
      match stripPrefix "data:image/jpeg;base64," img with
      | Some rest => rest
      | None =>
          match stripPrefix "data:image/jpg;base64," img with
          | Some rest => rest
          | None => img
          end
      end
  end.

(** Truthiness of a [string | undefined]. *)
Definition truthy (s : option string) : bool :=
  match s with
  | None => false
  | Some EmptyString => false
  | Some _ => true
  end.

(** [a || b] on [string | undefined]. *)
Definition orElse (a b : option string) : option string :=
  if truthy a then a else b.

(** [`${n}`] for a non-negative integer. *)
Definition N_toString (n : N) : string :=
  NilZero.string_of_uint (N.to_uint n).

(** [`${v}`] for a [string | undefined]. *)
Definition interpolate (v : option string) : string :=
  match v with
  | Some s => s
  | None => "undefined"
  end.

(** A thrown value: an [Error] with its [name] and [message]. *)
Record JsError : Type := mkJsError { errName : string; errMessage : string }.

(** [new Error(msg)] *)
Definition Error (msg : string) : JsError := mkJsError "Error" msg.

(** A [TypeError] raised by the engine: reading a property of [null],
    or calling what is not a function.  The text of the message depends
    on the engine. *)
Definition TypeError (msg : string) : JsError := mkJsError "TypeError" msg.

(** [e.message || '未知错误'] *)
Definition messageOrUnknown (e : JsError) : string :=
  match errMessage e with
  | EmptyString => "未知错误"
  | m => m
  end.

(** [Error.prototype.toString] *)
Definition errToString (e : JsError) : string :=
  match errName e, errMessage e with
  | EmptyString, m => m
  | n, EmptyString => n
  | n, m => (n ++ ": " ++ m)%string
  end.

(* ================================================================== *)
(** * types.ts *)
(* ================================================================== *)

Inductive AppMode : Type := video | image | pdp.

Definition AppMode_eqb (a b : AppMode) : bool :=
  match a, b with
  | video, video | image, image | pdp, pdp => true
  | _, _ => false
  end.

(** [x.mode === m] where [x.mode] is optional. *)
Definition modeIs (x : option AppMode) (m : AppMode) : bool :=
  match x with
  | Some a => AppMode_eqb a m
  | None => false
  end.

Module ProductInfo.
Record t : Type := mk {
  name : string;
  description : string;
  creativeDirection : string;
  userImages : option (list string)
}.
End ProductInfo.

Module SceneConcept.
Record t : Type := mk {
  id : string;
  title : string;
  description : string;
  script : string;
  storyboard : string;
  visualPrompt : string;
  productName : string;
  creativeDirection : string;
  createdAt : N;
  mode : option AppMode
}.
End SceneConcept.

Module ImageHistoryItem.
Record t : Type := mk {
  id : string;
  base64 : string;
  prompt : string;
  productName : string;
  creativeDirection : string;
  conceptTitle : string;
  conceptId : string;
  createdAt : N;
  mode : option AppMode
}.
End ImageHistoryItem.

Module VideoHistoryItem.
Record t : Type := mk {
  id : string;
  uri : string;
  blobUrl : string;
  productName : string;
  creativeDirection : string;
  conceptTitle : string;
  createdAt : N;
  mode : option AppMode
}.
End VideoHistoryItem.

Inductive AssetType : Type := concept_asset | image_asset | video_asset.

Module AssetMeta.
Record t : Type := mk {
  title : option string;
  prompt : option string;
  mode : option AppMode;
  productName : option string;
  conceptTitle : option string
}.
End AssetMeta.

(** [content: any]: a [SceneConcept], or a string (image base64, video url). *)
Inductive AssetContent : Type :=
| ConceptContent (c : SceneConcept.t)
| StringContent (s : string).

Module LibraryAsset.
Record t : Type := mk {
  id : string;
  type : AssetType;
  content : AssetContent;
  timestamp : N;
  meta : option AssetMeta.t
}.
End LibraryAsset.

Module AppConfig.
Record t : Type := mk {
  textModel : string;
  textKey : string;
  imageModel : string;
  imageKey : string;
  videoModel : string;
  videoKey : string
}.
End AppConfig.

Definition DEFAULT_CONFIG : AppConfig.t :=
  AppConfig.mk "gemini-3-flash-preview" ""
               "gemini-2.5-flash-image" ""
               "veo-3.1-fast-generate-preview" "".

(* ================================================================== *)
(** * The provider: requests, answers, and the world of the service *)
(* ================================================================== *)

(** The template literals of [geminiService.ts], with their holes. *)
Inductive Prompt : Type :=
| ConceptPrompt (mode : AppMode) (name description direction : string)
                (imagesNote : option nat)
| ParsePrompt (mode : AppMode) (storyboardScript : string)
| PlainPrompt (prompt : string)
| SceneWithReferencesPrompt (prompt : string)
| IdentityDirective
| EditInstruction (instruction : string)
| VideoPrompt (script : string).

Inductive Part : Type :=
| TextPart (text : Prompt)
| InlineDataPart (mimeType data : string).

Inductive Contents : Type :=
| PromptContents (p : Prompt)
| PartsContents (parts : list Part).

(** The two [responseSchema] values of the source. *)
Inductive ResponseSchema : Type := ConceptArraySchema | ShotArraySchema.

Inductive GenerateContentConfig : Type :=
| JsonConfig (responseSchema : ResponseSchema)
| ImageConfig (aspectRatio : string) (imageSize : option string).

Module GenerateContentParameters.
Record t : Type := mk {
  model : string;
  contents : Contents;
  config : GenerateContentConfig
}.
End GenerateContentParameters.

Module ReferenceImage.
(** [referenceType] is always [VideoGenerationReferenceType.ASSET]. *)
Record t : Type := mk { imageBytes : string; mimeType : string }.
End ReferenceImage.

Module GenerateVideosParameters.
Record t : Type := mk {
  model : string;
  prompt : Prompt;
  numberOfVideos : nat;
  referenceImages : option (list ReferenceImage.t);
  resolution : string;
  aspectRatio : string
}.
End GenerateVideosParameters.

(** [response.text] of a text call, seen through [JSON.parse]. *)
Inductive ResponseText (A : Type) : Type :=
| Falsy                      (* [response.text] is undefined or empty *)
| Unparsable (e : JsError)   (* [JSON.parse(response.text)] throws [e] *)
| Parses (a : A).            (* [JSON.parse(response.text)] evaluates to [a] *)
Arguments Falsy {A}.
Arguments Unparsable {A} e.
Arguments Parses {A} a.

(** What [JSON.parse] may evaluate to where the code reads an array into
    [shotsConfig]: an array, [null], or another value (a string, a
    number, a boolean or an object).  Of such a value the code reads
    [length], which is 0 or not ([lengthIsZero]: the empty string, an
    object with a [length] of 0), and [map], which is never a function.
    The items of an array are taken at their TypeScript type. *)
Inductive Parsed (A : Type) : Type :=
| JsonArray (items : list A)
| JsonNull
| JsonOther (lengthIsZero : bool).
Arguments JsonArray {A} items.
Arguments JsonNull {A}.
Arguments JsonOther {A} lengthIsZero.

(** The parts of an image answer. *)
Module ResponsePart.
(** [inlineData : Some d] is an inline blob whose [data] is [d]. *)
Record t : Type := mk { inlineData : option (option string); text : option string }.
End ResponsePart.

Module Candidate.
(** [candidate.content?.parts] *)
Record t : Type := mk { parts : option (list ResponsePart.t) }.
End Candidate.

Module ImageResponse.
Record t : Type := mk { candidates : option (list Candidate.t) }.
End ImageResponse.

Module GeneratedVideo.
(** [generatedVideo.video?.uri] *)
Record t : Type := mk { videoUri : option string }.
End GeneratedVideo.

Module Operation.
(** [response : Some gv] stands for [operation.response.generatedVideos = gv]. *)
Record t : Type := mk {
  done : bool;
  response : option (list GeneratedVideo.t)
}.
End Operation.

(** What the provider's JSON array holds for a concept (the properties of
    the concept schema): the lineage fields are not part of it. *)
Module RawConcept.
Record t : Type := mk {
  id : option string;
  title : string;
  description : string;
  script : string;
  storyboard : string;
  visualPrompt : string
}.
End RawConcept.

Module ShotConfig.
Record t : Type := mk { label : string; instruction : string }.
End ShotConfig.

Module StoryboardShot.
Record t : Type := mk { label : string; base64 : string; instruction : string }.
End StoryboardShot.

(** An awaited promise settles by resolving or by rejecting. *)
Inductive Settled (A : Type) : Type :=
| Resolves (a : A)
| Rejects (e : JsError).
Arguments Resolves {A} a.
Arguments Rejects {A} e.

Inductive Call : Type :=
| GenerateContent (apiKey : option string) (params : GenerateContentParameters.t)
| GenerateVideos (apiKey : option string) (params : GenerateVideosParameters.t)
| GetVideosOperation (apiKey : option string) (operation : Operation.t)
| SetTimeout (ms : N).

(** The world a service function runs in.  The answer queues hold, in
    call order, how each future provider call of that kind settles; an
    empty queue means that the call never settles. *)
Module World.
Record t : Type := mk {
  currentConfig : AppConfig.t;           (* [let currentConfig] *)
  API_KEY : option string;               (* [process.env.API_KEY] *)
  conceptAnswers : list (Settled (ResponseText (list RawConcept.t)));
  shotAnswers : list (Settled (ResponseText (Parsed ShotConfig.t)));
  imageAnswers : list (Settled ImageResponse.t);
  videoAnswers : list (Settled Operation.t);
  pollAnswers : list (Settled Operation.t);
  calls : list Call                      (* oldest first *)
}.

Definition log (c : Call) (w : t) : t :=
  mk (currentConfig w) (API_KEY w) (conceptAnswers w) (shotAnswers w)
     (imageAnswers w) (videoAnswers w) (pollAnswers w) (calls w ++ [c]).
Definition setConceptAnswers q (w : t) : t :=
  mk (currentConfig w) (API_KEY w) q (shotAnswers w)
     (imageAnswers w) (videoAnswers w) (pollAnswers w) (calls w).
Definition setShotAnswers q (w : t) : t :=
  mk (currentConfig w) (API_KEY w) (conceptAnswers w) q
     (imageAnswers w) (videoAnswers w) (pollAnswers w) (calls w).
Definition setImageAnswers q (w : t) : t :=
  mk (currentConfig w) (API_KEY w) (conceptAnswers w) (shotAnswers w)
     q (videoAnswers w) (pollAnswers w) (calls w).
Definition setVideoAnswers q (w : t) : t :=
  mk (currentConfig w) (API_KEY w) (conceptAnswers w) (shotAnswers w)
     (imageAnswers w) q (pollAnswers w) (calls w).
Definition setPollAnswers q (w : t) : t :=
  mk (currentConfig w) (API_KEY w) (conceptAnswers w) (shotAnswers w)
     (imageAnswers w) (videoAnswers w) q (calls w).
Definition setConfig c (w : t) : t :=
  mk c (API_KEY w) (conceptAnswers w) (shotAnswers w)
     (imageAnswers w) (videoAnswers w) (pollAnswers w) (calls w).
End World.

(* ================================================================== *)
(** * The monad of asynchronous functions *)
(* ================================================================== *)

Inductive Outcome (A : Type) : Type :=
| Returned (a : A)
| Thrown (e : JsError)
| Pending.
Arguments Returned {A} a.
Arguments Thrown {A} e.
Arguments Pending {A}.

Definition Async (A : Type) : Type := World.t -> Outcome A * World.t.

Definition ret {A} (a : A) : Async A := fun w => (Returned a, w).

Definition throw {A} (e : JsError) : Async A := fun w => (Thrown e, w).

Definition bind {A B} (m : Async A) (k : A -> Async B) : Async B :=
  fun w =>
    match m w with
    | (Returned a, w') => k a w'
    | (Thrown e, w') => (Thrown e, w')
    | (Pending, w') => (Pending, w')
    end.

(** [try { m } catch (e) { h e }] *)
Definition tryCatch {A} (m : Async A) (h : JsError -> Async A) : Async A :=
  fun w =>
    match m w with
    | (Thrown e, w') => h e w'
    | r => r
    end.

Notation "x <- m ;; k" := (bind m (fun x => k))
  (at level 61, m at next level, right associativity).
Notation "m ;;; k" := (bind m (fun _ => k))
  (at level 61, right associativity).

(** Awaiting the head of an answer queue. *)
Definition settle {A} (q : list (Settled A))
    (rest : list (Settled A) -> World.t -> World.t) : Async A :=
  fun w =>
    match q with
    | [] => (Pending, w)
    | Resolves a :: q' => (Returned a, rest q' w)
    | Rejects e :: q' => (Thrown e, rest q' w)
    end.

Definition getConfig : Async AppConfig.t :=
  fun w => (Returned (World.currentConfig w), w).

Definition getEnvKey : Async (option string) :=
  fun w => (Returned (World.API_KEY w), w).

Definition issue (c : Call) : Async unit :=
  fun w => (Returned tt, World.log c w).

(** [await ai.models.generateContent(params)], by the schema asked for. *)
Definition generateConceptContent apiKey params
  : Async (ResponseText (list RawConcept.t)) :=
  issue (GenerateContent apiKey params) ;;;
  fun w => settle (World.conceptAnswers w) World.setConceptAnswers w.

Definition generateShotContent apiKey params
  : Async (ResponseText (Parsed ShotConfig.t)) :=
  issue (GenerateContent apiKey params) ;;;
  fun w => settle (World.shotAnswers w) World.setShotAnswers w.

Definition generateImageContent apiKey params : Async ImageResponse.t :=
  issue (GenerateContent apiKey params) ;;;
  fun w => settle (World.imageAnswers w) World.setImageAnswers w.

(** [await ai.models.generateVideos(params)] *)
Definition generateVideos apiKey params : Async Operation.t :=
  issue (GenerateVideos apiKey params) ;;;
  fun w => settle (World.videoAnswers w) World.setVideoAnswers w.

(** [await ai.operations.getVideosOperation({operation})] *)
Definition getVideosOperation apiKey operation : Async Operation.t :=
  issue (GetVideosOperation apiKey operation) ;;;
  fun w => settle (World.pollAnswers w) World.setPollAnswers w.

(** [await new Promise(resolve => setTimeout(resolve, ms))] *)
Definition sleep (ms : N) : Async unit := issue (SetTimeout ms).

(** [JSON.parse(response.text)] *)
Definition JSON_parse {A} (t : ResponseText A) : Async A :=
  match t with
  | Parses a => ret a
  | Unparsable e => throw e
  | Falsy => throw (mkJsError "SyntaxError" "Unexpected end of JSON input")
  end.

(** [!!response.text] *)
Definition hasText {A} (t : ResponseText A) : bool :=
  match t with
  | Falsy => false
  | _ => true
  end.

(* ================================================================== *)
(** * services/geminiService.ts *)
(* ================================================================== *)

Inductive Modality : Type := text_modality | image_modality | video_modality.

(** [updateServiceConfig] *)
Definition updateServiceConfig (config : AppConfig.t) : Async unit :=
  fun w => (Returned tt, World.setConfig config w).

(** [getAiClient]: the client is represented by the key it is built with:
    the key of the environment, overridden by the configured key of the
    modality when that one is not empty. *)
Definition getAiClient (modality : Modality) : Async (option string) :=
  env <- getEnvKey ;;
  currentConfig <- getConfig ;;
  let configured :=
    match modality with
    | text_modality => AppConfig.textKey currentConfig
    | image_modality => AppConfig.imageKey currentConfig
    | video_modality => AppConfig.videoKey currentConfig
    end in
  ret (orElse (Some configured) env).

(** [productImages && productImages.length > 0] *)
Definition nonEmptyImages (imgs : option (list string)) : bool :=
  match imgs with
  | Some (_ :: _) => true
  | _ => false
  end.

Definition imagesOf (imgs : option (list string)) : list string :=
  match imgs with
  | Some l => l
  | None => []
  end.

Definition inlinePng (img : string) : Part :=
  InlineDataPart "image/png" (stripDataUrl img).

(** [generateConcepts]: one text call; the parsed array is returned as it
    is (the cast [as SceneConcept[]] checks nothing). *)
Definition generateConcepts (name description direction : string)
    (productImages : option (list string)) (mode : AppMode)
  : Async (list RawConcept.t) :=
  ai <- getAiClient text_modality ;;
  let textPrompt :=
    ConceptPrompt mode name description direction
      (if nonEmptyImages productImages
       then Some (length (imagesOf productImages)) else None) in
  let contents :=
    if nonEmptyImages productImages
    then PartsContents
           (TextPart textPrompt :: map inlinePng (imagesOf productImages))
    else PromptContents textPrompt in
  currentConfig <- getConfig ;;
  response <- generateConceptContent ai
    (GenerateContentParameters.mk (AppConfig.textModel currentConfig)
       contents (JsonConfig ConceptArraySchema)) ;;
  if negb (hasText response)
  then throw (Error "No concepts generated")
  else JSON_parse response.

(** [response.candidates?.[0]?.content?.parts || []] *)
Definition responseParts (response : ImageResponse.t) : list ResponsePart.t :=
  match ImageResponse.candidates response with
  | Some (c :: _) =>
      match Candidate.parts c with
      | Some ps => ps
      | None => []
      end
  | _ => []
  end.

(** The [for] loop over the parts: the data of the first part that has
    [inlineData]. *)
Fixpoint firstInlineData (parts : list ResponsePart.t) : option (option string) :=
  match parts with
  | [] => None
  | part :: rest =>
      match ResponsePart.inlineData part with
      | Some d => Some d
      | None => firstInlineData rest
      end
  end.

Definition imageConfigFor (model aspectRatio : string) : GenerateContentConfig :=
  ImageConfig aspectRatio (if includes model "flash" then None else Some "1K").

(** [generateSceneImage] *)
Definition generateSceneImage (prompt : string)
    (referenceProductImages : option (list string)) (aspectRatio : string)
  : Async string :=
  ai <- getAiClient image_modality ;;
  currentConfig <- getConfig ;;
  let model := AppConfig.imageModel currentConfig in
  let contents :=
    if nonEmptyImages referenceProductImages
    then PartsContents
           (map inlinePng (imagesOf referenceProductImages)
              ++ [TextPart (SceneWithReferencesPrompt prompt)])
    else PromptContents (PlainPrompt prompt) in
  response <- generateImageContent ai
    (GenerateContentParameters.mk model contents
       (imageConfigFor model aspectRatio)) ;;
  match firstInlineData (responseParts response) with
  | Some d => ret ("data:image/png;base64," ++ interpolate d)%string
  | None => throw (Error "No image generated")
  end.

(** [editSceneImage] *)
Definition editSceneImage (baseImage instruction : string)
    (referenceProductImage : option string) (aspectRatio : string)
  : Async string :=
  ai <- getAiClient image_modality ;;
  currentConfig <- getConfig ;;
  let model := AppConfig.imageModel currentConfig in
  let parts :=
    [inlinePng baseImage]
      ++ (if truthy referenceProductImage
          then [inlinePng (interpolate referenceProductImage);
                TextPart IdentityDirective]
          else [])
      ++ [TextPart (EditInstruction instruction)] in
  response <- generateImageContent ai
    (GenerateContentParameters.mk model (PartsContents parts)
       (imageConfigFor model aspectRatio)) ;;
  match firstInlineData (responseParts response) with
  | Some d => ret ("data:image/png;base64," ++ interpolate d)%string
  | None => throw (Error "Image editing failed")
  end.

(** The fallback of [generateStoryboardShots]. *)
Definition defaultShots : list ShotConfig.t :=
  [ ShotConfig.mk "视觉 1" "Main hero shot, high quality, commercial lighting.";
    ShotConfig.mk "视觉 2" "Detail shot, close up, texture focus.";
    ShotConfig.mk "视觉 3" "Context usage shot, lifestyle vibe.";
    ShotConfig.mk "视觉 4" "Creative composition, artistic angle." ].

(** [shotsConfig.length === 0] *)
Definition isEmpty {A} (l : list A) : bool :=
  match l with
  | [] => true
  | _ => false
  end.

(** [shotsConfig.length === 0]: reading [length] of [null] throws. *)
Definition lengthIsZero {A} (shotsConfig : Parsed A) : Async bool :=
  match shotsConfig with
  | JsonArray items => ret (isEmpty items)
  | JsonNull =>
      throw (TypeError "Cannot read properties of null (reading 'length')")
  | JsonOther zero => ret zero
  end.

(** The receiver of [shotsConfig.map]: only an array has a [map]. *)
Definition mapReceiver {A} (shotsConfig : Parsed A) : Async (list A) :=
  match shotsConfig with
  | JsonArray items => ret items
  | JsonNull =>
      throw (TypeError "Cannot read properties of null (reading 'map')")
  | JsonOther _ => throw (TypeError "shotsConfig.map is not a function")
  end.

(** First part of [generateStoryboardShots] (lines 317-381): the text
    call that parses the script, inside [try]/[catch], then the
    fallback, whose test stands outside the [try]. *)
Definition parseShotsConfig (storyboardScript : string) (mode : AppMode)
  : Async (Parsed ShotConfig.t) :=
  ai <- getAiClient text_modality ;;
  let parsePrompt := ParsePrompt mode storyboardScript in
  shotsConfig <-
    tryCatch
      (currentConfig <- getConfig ;;
       response <- generateShotContent ai
         (GenerateContentParameters.mk (AppConfig.textModel currentConfig)
            (PromptContents parsePrompt) (JsonConfig ShotArraySchema)) ;;
       if hasText response then JSON_parse response else ret (JsonArray []))
      (fun _ => ret (JsonArray [])) ;;
  empty <- lengthIsZero shotsConfig ;;
  ret (if empty then JsonArray defaultShots else shotsConfig).

(** The callback of [shotsConfig.map]: one edit, its failure caught. *)
Definition renderShot (baseImage : string) (referenceImage : option string)
    (aspectRatio : string) (shot : ShotConfig.t)
  : Async (option StoryboardShot.t) :=
  tryCatch
    (result <- editSceneImage baseImage (ShotConfig.instruction shot)
                 referenceImage aspectRatio ;;
     ret (Some (StoryboardShot.mk (ShotConfig.label shot) result
                  (ShotConfig.instruction shot))))
    (fun _ => ret None).

(** [await Promise.all(xs.map(f))].  Each call of [f] runs up to its
    first [await] when [map] reaches it, so the requests are issued in
    index order whether or not the earlier ones settle; the k-th answer
    of a queue answers the k-th call issued, whatever the order of
    arrival.  The whole returns the results in index order when every
    call returns, throws when a call throws, and stays pending
    otherwise. *)
Fixpoint promiseAllMap {A B} (f : A -> Async B) (xs : list A) : Async (list B) :=
  match xs with
  | [] => ret []
  | x :: xs' =>
      fun w =>
        let (first, w') := f x w in
        let (others, w'') := promiseAllMap f xs' w' in
        (match first, others with
         | Returned y, Returned ys => Returned (y :: ys)
         | Thrown e, _ => Thrown e
         | _, Thrown e => Thrown e
         | _, _ => Pending
         end,
         w'')
  end.

(** [results.filter(r => r !== null)] *)
Fixpoint nonNull {A} (results : list (option A)) : list A :=
  match results with
  | [] => []
  | Some r :: rest => r :: nonNull rest
  | None :: rest => nonNull rest
  end.

(** Second part of [generateStoryboardShots] (lines 383-402), on the
    array that [shotsConfig.map] is called on. *)
Definition renderShots (baseImage : string)
    (referenceProductImages : option (list string)) (aspectRatio : string)
    (shotsConfig : list ShotConfig.t) : Async (list StoryboardShot.t) :=
  let referenceImage :=
    if nonEmptyImages referenceProductImages
    then hd_error (imagesOf referenceProductImages) else None in
  results <- promiseAllMap (renderShot baseImage referenceImage aspectRatio)
               shotsConfig ;;
  ret (nonNull results).

(** [generateStoryboardShots] *)
Definition generateStoryboardShots (baseImage storyboardScript : string)
    (referenceProductImages : option (list string)) (mode : AppMode)
    (aspectRatio : string) : Async (list StoryboardShot.t) :=
  shotsConfig <- parseShotsConfig storyboardScript mode ;;
  shots <- mapReceiver shotsConfig ;;
  renderShots baseImage referenceProductImages aspectRatio shots.

(** The request of [generateStoryVideo]: at most the first three
    reference images are sent. *)
Definition videoRequest (script : string) (referenceImages : list string)
  : GenerateVideosParameters.t :=
  let refsToUse := firstn 3 referenceImages in
  let referenceImagesPayload :=
    map (fun img => ReferenceImage.mk (stripDataUrl img) "image/png") refsToUse in
  GenerateVideosParameters.mk "veo-3.1-generate-preview" (VideoPrompt script) 1
    (if isEmpty referenceImagesPayload then None else Some referenceImagesPayload)
    "720p" "16:9".

(** [while (!operation.done) { await sleep(8000); operation = await poll }].
    [fuel] bounds the number of polls that settle; the caller gives the
    number of answers left, so that the loop stops early only on a poll
    that never settles. *)
Fixpoint pollUntilDone (fuel : nat) (apiKey : option string)
    (operation : Operation.t) : Async Operation.t :=
  if Operation.done operation then ret operation
  else
    sleep 8000 ;;;
    operation' <- getVideosOperation apiKey operation ;;
    match fuel with
    | O => fun w => (Pending, w)
    | S fuel' => pollUntilDone fuel' apiKey operation'
    end.

(** [operation.response?.generatedVideos?.[0]?.video?.uri] *)
Definition firstVideoUri (operation : Operation.t) : option string :=
  match Operation.response operation with
  | Some (v :: _) => GeneratedVideo.videoUri v
  | _ => None
  end.

(** [generateStoryVideo] *)
Definition generateStoryVideo (script : string) (referenceImages : list string)
  : Async string :=
  currentConfig <- getConfig ;;
  env <- getEnvKey ;;
  let key := orElse (Some (AppConfig.videoKey currentConfig)) env in
  submitted <- generateVideos key (videoRequest script referenceImages) ;;
  operation <-
    (fun w => pollUntilDone (length (World.pollAnswers w)) key submitted w) ;;
  let videoUri := firstVideoUri operation in
  if negb (truthy videoUri)
  then throw (Error "Video generation failed")
  else ret (interpolate videoUri).

(* ================================================================== *)
(** * App: the state of the [App] component and its handlers *)
(* ================================================================== *)

Module App.
Record t : Type := mk {
  product : option ProductInfo.t;
  selectedConcept : option SceneConcept.t;
  generatedImage : option string;
  appMode : AppMode;
  historyConcepts : list SceneConcept.t;
  historyImages : list ImageHistoryItem.t;
  historyVideos : list VideoHistoryItem.t;
  appConfig : AppConfig.t;
  isSettingsOpen : bool;
  isLibraryOpen : bool;
  libraryAssets : list LibraryAsset.t
}.

(** The initial values given to [useState]. *)
Definition initial : t :=
  mk None None None video [] [] [] DEFAULT_CONFIG false false [].

(** The state setters.  A setter called with a function applies it to
    the previous value. *)
Definition setProduct v (s : t) : t :=
  mk v (selectedConcept s) (generatedImage s) (appMode s)
     (historyConcepts s) (historyImages s) (historyVideos s)
     (appConfig s) (isSettingsOpen s) (isLibraryOpen s) (libraryAssets s).
Definition setSelectedConcept v (s : t) : t :=
  mk (product s) v (generatedImage s) (appMode s)
     (historyConcepts s) (historyImages s) (historyVideos s)
     (appConfig s) (isSettingsOpen s) (isLibraryOpen s) (libraryAssets s).
Definition setGeneratedImage v (s : t) : t :=
  mk (product s) (selectedConcept s) v (appMode s)
     (historyConcepts s) (historyImages s) (historyVideos s)
     (appConfig s) (isSettingsOpen s) (isLibraryOpen s) (libraryAssets s).
Definition setAppMode v (s : t) : t :=
  mk (product s) (selectedConcept s) (generatedImage s) v
     (historyConcepts s) (historyImages s) (historyVideos s)
     (appConfig s) (isSettingsOpen s) (isLibraryOpen s) (libraryAssets s).
Definition setHistoryConcepts f (s : t) : t :=
  mk (product s) (selectedConcept s) (generatedImage s) (appMode s)
     (f (historyConcepts s)) (historyImages s) (historyVideos s)
     (appConfig s) (isSettingsOpen s) (isLibraryOpen s) (libraryAssets s).
Definition setHistoryImages f (s : t) : t :=
  mk (product s) (selectedConcept s) (generatedImage s) (appMode s)
     (historyConcepts s) (f (historyImages s)) (historyVideos s)
     (appConfig s) (isSettingsOpen s) (isLibraryOpen s) (libraryAssets s).
Definition setHistoryVideos f (s : t) : t :=
  mk (product s) (selectedConcept s) (generatedImage s) (appMode s)
     (historyConcepts s) (historyImages s) (f (historyVideos s))
     (appConfig s) (isSettingsOpen s) (isLibraryOpen s) (libraryAssets s).
Definition setAppConfig v (s : t) : t :=
  mk (product s) (selectedConcept s) (generatedImage s) (appMode s)
     (historyConcepts s) (historyImages s) (historyVideos s)
     v (isSettingsOpen s) (isLibraryOpen s) (libraryAssets s).
Definition setIsSettingsOpen v (s : t) : t :=
  mk (product s) (selectedConcept s) (generatedImage s) (appMode s)
     (historyConcepts s) (historyImages s) (historyVideos s)
     (appConfig s) v (isLibraryOpen s) (libraryAssets s).
Definition setIsLibraryOpen v (s : t) : t :=
  mk (product s) (selectedConcept s) (generatedImage s) (appMode s)
     (historyConcepts s) (historyImages s) (historyVideos s)
     (appConfig s) (isSettingsOpen s) v (libraryAssets s).
Definition setLibraryAssets f (s : t) : t :=
  mk (product s) (selectedConcept s) (generatedImage s) (appMode s)
     (historyConcepts s) (historyImages s) (historyVideos s)
     (appConfig s) (isSettingsOpen s) (isLibraryOpen s) (f (libraryAssets s)).
End App.

(** [handleSaveConfig] *)
Definition handleSaveConfig (newConfig : AppConfig.t) (s : App.t) : App.t :=
  App.setAppConfig newConfig s.

(** [handleAddToLibrary]: [now1] and [now2] are the two readings of
    [Date.now()], for the id and for the timestamp. *)
Definition handleAddToLibrary (now1 now2 : N) (type : AssetType)
    (content : AssetContent) (meta : option AssetMeta.t) (s : App.t) : App.t :=
  let newAsset := LibraryAsset.mk (N_toString now1) type content now2 meta in
  App.setLibraryAssets (fun prev => newAsset :: prev) s.

(** [addHistoryConcept]: [[...concepts, ...prev]] *)
Definition addHistoryConcept (concepts : list SceneConcept.t) (s : App.t) : App.t :=
  App.setHistoryConcepts (fun prev => concepts ++ prev) s.

(** [addHistoryImage]: [[img, ...prev]], and the image becomes the active one. *)
Definition addHistoryImage (img : ImageHistoryItem.t) (s : App.t) : App.t :=
  App.setGeneratedImage (Some (ImageHistoryItem.base64 img))
    (App.setHistoryImages (fun prev => img :: prev) s).

(** [addHistoryVideo]: [[vid, ...prev]] *)
Definition addHistoryVideo (vid : VideoHistoryItem.t) (s : App.t) : App.t :=
  App.setHistoryVideos (fun prev => vid :: prev) s.

(** [handleModeChange] *)
Definition handleModeChange (mode : AppMode) (s : App.t) : App.t :=
  App.setGeneratedImage None
    (App.setSelectedConcept None
       (App.setAppMode mode s)).

(** [onNext] of [StepInput], as wired in [App]. *)
Definition onNext (info : ProductInfo.t) (s : App.t) : App.t :=
  App.setProduct (Some info) s.

(** [onSelect] of [StepIdeation], as wired in [App]. *)
Definition onSelect (concept : SceneConcept.t) (s : App.t) : App.t :=
  App.setGeneratedImage None
    (App.setSelectedConcept (Some concept) s).

(** Every way the [App] component changes its state: its handlers and the
    inline callbacks it passes to its children. *)
Inductive Action : Type :=
| SaveConfig (newConfig : AppConfig.t)
| AddToLibrary (now1 now2 : N) (type : AssetType) (content : AssetContent)
               (meta : option AssetMeta.t)
| AddHistoryConcept (concepts : list SceneConcept.t)
| AddHistoryImage (img : ImageHistoryItem.t)
| AddHistoryVideo (vid : VideoHistoryItem.t)
| ModeChange (mode : AppMode)
| Next (info : ProductInfo.t)
| Select (concept : SceneConcept.t)
| OpenSettings
| CloseSettings
| OpenLibrary
| CloseLibrary.

Definition step (s : App.t) (a : Action) : App.t :=
  match a with
  | SaveConfig newConfig => handleSaveConfig newConfig s
  | AddToLibrary now1 now2 type content meta =>
      handleAddToLibrary now1 now2 type content meta s
  | AddHistoryConcept concepts => addHistoryConcept concepts s
  | AddHistoryImage img => addHistoryImage img s
  | AddHistoryVideo vid => addHistoryVideo vid s
  | ModeChange mode => handleModeChange mode s
  | Next info => onNext info s
  | Select concept => onSelect concept s
  | OpenSettings => App.setIsSettingsOpen true s
  | CloseSettings => App.setIsSettingsOpen false s
  | OpenLibrary => App.setIsLibraryOpen true s
  | CloseLibrary => App.setIsLibraryOpen false s
  end.

(** A session: the actions applied one after the other. *)
Definition run (s : App.t) (actions : list Action) : App.t :=
  fold_left step actions s.

(* ================================================================== *)
(** * StepIdeation: concept generation and stamping *)
(* ================================================================== *)

(** What [setError] is given in [handleGenerate]. *)
Inductive IdeationError : Type :=
| NoError                                 (* [''] *)
| PermissionDenied                        (* the 403 message *)
| GenerationFailed (message : string).    (* the message with [err.message || '未知错误'] *)

Module Ideation.
Record t : Type := mk { loading : bool; error : IdeationError }.
End Ideation.

(** [xs.map((x, i) => f(x, i))], counting from [i]. *)
Fixpoint mapIndexFrom {A B} (i : nat) (f : A -> nat -> B) (xs : list A) : list B :=
  match xs with
  | [] => []
  | x :: xs' => f x i :: mapIndexFrom (S i) f xs'
  end.

(** The object literal of [withMeta].  [DateNow k] is the k-th reading
    of [Date.now()] made by the handler: the callback reads it twice for
    each concept, first for the id and then for [createdAt]. *)
Definition stamp (DateNow : nat -> N) (product : ProductInfo.t)
    (currentMode : AppMode) (c : RawConcept.t) (i : nat) : SceneConcept.t :=
  SceneConcept.mk
    (N_toString (DateNow (2 * i)) ++ "-" ++ N_toString (N.of_nat i))%string
    (RawConcept.title c) (RawConcept.description c) (RawConcept.script c)
    (RawConcept.storyboard c) (RawConcept.visualPrompt c)
    (ProductInfo.name product)
    (ProductInfo.creativeDirection product)
    (DateNow (2 * i + 1))
    (Some currentMode).

Definition withMeta (DateNow : nat -> N) (product : ProductInfo.t)
    (currentMode : AppMode) (results : list RawConcept.t) : list SceneConcept.t :=
  mapIndexFrom 0 (stamp DateNow product currentMode) results.

(** [handleGenerate] of [StepIdeation], with [onNewConcepts] wired to
    [addHistoryConcept] as in [App].  It acts on the state of the
    component and on the state of [App]; it never throws. *)
Definition handleGenerate (DateNow : nat -> N) (product : ProductInfo.t)
    (currentMode : AppMode) (s : App.t) : Async (Ideation.t * App.t) :=
  tryCatch
    (results <- generateConcepts (ProductInfo.name product)
                  (ProductInfo.description product)
                  (ProductInfo.creativeDirection product)
                  (ProductInfo.userImages product) currentMode ;;
     ret (Ideation.mk false NoError,
          addHistoryConcept (withMeta DateNow product currentMode results) s))
    (fun err =>
       let shown :=
         if includes (errToString err) "403"
            || includes (errToString err) "PERMISSION_DENIED"
         then PermissionDenied
         else GenerationFailed (messageOrUnknown err) in
       ret (Ideation.mk false shown, s)).

(* ================================================================== *)
(** * StepVisualizer and StepProduction: the filtered views *)
(* ================================================================== *)

(** [StepVisualizer]: the strict filter for the current concept and mode. *)
Definition currentHistoryImages (historyImages : list ImageHistoryItem.t)
    (concept : SceneConcept.t) (currentMode : AppMode) : list ImageHistoryItem.t :=
  filter (fun i =>
            String.eqb (ImageHistoryItem.conceptId i) (SceneConcept.id concept)
            && modeIs (ImageHistoryItem.mode i) currentMode)
         historyImages.

(** [StepProduction]: the images of the concept, in video mode. *)
Definition relevantImages (historyImages : list ImageHistoryItem.t)
    (concept : SceneConcept.t) : list ImageHistoryItem.t :=
  filter (fun img =>
            String.eqb (ImageHistoryItem.conceptId img) (SceneConcept.id concept)
            && modeIs (ImageHistoryItem.mode img) video)
         historyImages.

(** [v.productName + v.conceptTitle] *)
Definition groupKey (v : VideoHistoryItem.t) : string :=
  (VideoHistoryItem.productName v ++ VideoHistoryItem.conceptTitle v)%string.

(** [Array.from(new Set(xs))]: the first occurrence of each string, in order. *)
Fixpoint unique (seen : list string) (xs : list string) : list string :=
  match xs with
  | [] => []
  | x :: xs' =>
      if existsb (String.eqb x) seen then unique seen xs'
      else x :: unique (x :: seen) xs'
  end.

(** The keys of the video history groups of [StepProduction]. *)
Definition videoGroupKeys (historyVideos : list VideoHistoryItem.t) : list string :=
  unique []
    (map groupKey
       (filter (fun v => modeIs (VideoHistoryItem.mode v) video) historyVideos)).

(** [groupVids] for a key. *)
Definition groupVids (historyVideos : list VideoHistoryItem.t) (key : string)
  : list VideoHistoryItem.t :=
  filter (fun v => String.eqb (groupKey v) key
                   && modeIs (VideoHistoryItem.mode v) video)
         historyVideos.

(** The groups displayed, in order, each with its key. *)
Definition videoGroups (historyVideos : list VideoHistoryItem.t)
  : list (string * list VideoHistoryItem.t) :=
  map (fun key => (key, groupVids historyVideos key)) (videoGroupKeys historyVideos).

(* ================================================================== *)
(** * Definitions used to state the properties *)
(* ================================================================== *)

(** [extends new old]: [new] is [old] with some entries put in front of
    it; nothing of [old] is removed, replaced or reordered. *)
Definition extends {A} (new old : list A) : Prop :=
  exists front, new = front ++ old.

(** Unfolds the monad and the provider primitives. *)
Ltac run_async :=
  unfold getAiClient, generateConceptContent, generateShotContent,
    generateImageContent, generateVideos, getVideosOperation, sleep,
    JSON_parse, lengthIsZero, mapReceiver;
  unfold tryCatch, bind, ret, throw, getConfig, getEnvKey, issue, settle;
  simpl.

(** A generation request, as opposed to a poll or a timer. *)
Definition isGeneration (c : Call) : bool :=
  match c with
  | GenerateContent _ _ => true
  | GenerateVideos _ _ => true
  | GetVideosOperation _ _ => false
  | SetTimeout _ => false
  end.

(** How many generation requests a world has seen. *)
Definition generationCalls (w : World.t) : nat :=
  length (filter isGeneration (World.calls w)).

(** The descriptors the second part works on, by the way the text call
    settles: the parsed array when it is not empty; the defaults when
    the call is rejected, has no text, has a text that does not parse,
    or parses to an empty array or to another value whose length is 0;
    none when the text parses to [null] or to any other value that is
    not an array. *)
Definition shotsOfAnswer
    (answer : Settled (ResponseText (Parsed ShotConfig.t)))
  : option (list ShotConfig.t) :=
  match answer with
  | Resolves (Parses (JsonArray (shot :: shots))) => Some (shot :: shots)
  | Resolves (Parses JsonNull) => None
  | Resolves (Parses (JsonOther false)) => None
  | _ => Some defaultShots
  end.

(** What [editSceneImage] makes of the way its call settles: the data url
    of the first part that has [inlineData], or nothing when the call is
    rejected or no part of the answer has [inlineData]. *)
Definition editOutcome (answer : Settled ImageResponse.t) : option string :=
  match answer with
  | Resolves response =>
      match firstInlineData (responseParts response) with
      | Some d => Some ("data:image/png;base64," ++ interpolate d)%string
      | None => None
      end
  | Rejects _ => None
  end.

(** The shots whose edit succeeded, in the order of the descriptors. *)
Fixpoint survivors (shotsConfig : list ShotConfig.t)
    (answers : list (Settled ImageResponse.t)) : list StoryboardShot.t :=
  match shotsConfig, answers with
  | shot :: shots', answer :: answers' =>
      match editOutcome answer with
      | Some base64 =>
          StoryboardShot.mk (ShotConfig.label shot) base64
            (ShotConfig.instruction shot)
          :: survivors shots' answers'
      | None => survivors shots' answers'
      end
  | _, _ => []
  end.

(** Removing the element at position [k]. *)
Definition removeAt {A} (k : nat) (l : list A) : list A :=
  firstn k l ++ skipn (S k) l.

(** What [generateConcepts] makes of the way its call settles. *)
Definition conceptsOutcome
    (answer : Settled (ResponseText (list RawConcept.t)))
  : Outcome (list RawConcept.t) :=
  match answer with
  | Resolves (Parses concepts) => Returned concepts
  | Resolves Falsy => Thrown (Error "No concepts generated")
  | Resolves (Unparsable e) => Thrown e
  | Rejects e => Thrown e
  end.

(** The operation the polling loop ends with: the submitted operation
    when it is done, else the first done operation among the polls;
    [None] when the polls are used up before, and a rejection when a
    poll is rejected before. *)
Fixpoint finalOperation (operation : Operation.t)
    (polls : list (Settled Operation.t)) : option (Settled Operation.t) :=
  if Operation.done operation then Some (Resolves operation)
  else
    match polls with
    | [] => None
    | Resolves operation' :: polls' => finalOperation operation' polls'
    | Rejects e :: _ => Some (Rejects e)
    end.

Definition outcomeOfFinal (final : option (Settled Operation.t))
  : Outcome Operation.t :=
  match final with
  | Some (Resolves operation) => Returned operation
  | Some (Rejects e) => Thrown e
  | None => Pending
  end.

(** The inline blob an image answer is read for: [data] is the data of
    the first part of the first candidate that has [inlineData].  The
    data itself may be missing ([None]). *)
Definition firstInlinePart (response : ImageResponse.t) (data : option string)
  : Prop :=
  exists candidate others earlier part later,
    ImageResponse.candidates response = Some (candidate :: others)
    /\ Candidate.parts candidate = Some (earlier ++ part :: later)
    /\ Forall (fun p => ResponsePart.inlineData p = None) earlier
    /\ ResponsePart.inlineData part = Some data.

(** Some part of some candidate of the response holds image data. *)
Definition holdsImageData (response : ImageResponse.t) : Prop :=
  exists candidates candidate parts part data,
    ImageResponse.candidates response = Some candidates
    /\ In candidate candidates
    /\ Candidate.parts candidate = Some parts
    /\ In part parts
    /\ ResponsePart.inlineData part = Some (Some data).

(** The first generated video of the operation has the uri [uri], which
    is not empty. *)
Definition firstVideoHasUri (operation : Operation.t) (uri : string) : Prop :=
  exists first others,
    Operation.response operation = Some (first :: others)
    /\ GeneratedVideo.videoUri first = Some uri
    /\ uri <> "".

(** Some generated video of the operation has a uri that is not empty. *)
Definition holdsVideoUri (operation : Operation.t) : Prop :=
  exists videos generated uri,
    Operation.response operation = Some videos
    /\ In generated videos
    /\ GeneratedVideo.videoUri generated = Some uri
    /\ uri <> "".

(* ================================================================== *)
(** * Concrete inputs *)
(* ================================================================== *)

(** The two videos of the failing input of the grouping: their products
    and concept titles differ, their concatenations do not. *)
Definition miniVideo : VideoHistoryItem.t :=
  VideoHistoryItem.mk "1700000000000" "uri-1" "blob-1"
    "Mini" "emotional" "Fan Summer" 1700000000000 (Some video).

Definition miniFanVideo : VideoHistoryItem.t :=
  VideoHistoryItem.mk "1700000001000" "uri-2" "blob-2"
    "MiniFan" "emotional" " Summer" 1700000001000 (Some video).

(** A parsed answer of three descriptors. *)
Definition threeShots : list ShotConfig.t :=
  [ ShotConfig.mk "Opening" "Wide establishing shot of the kitchen.";
    ShotConfig.mk "Detail" "Macro close-up of the control dial.";
    ShotConfig.mk "Closing" "Product on a table, warm light." ].

Definition worldWithThreeShots : World.t :=
  World.mk DEFAULT_CONFIG None [] [Resolves (Parses (JsonArray threeShots))]
    [] [] [] [].

(** An image answer with one inline part, and a world in which the text
    call is rejected and the second of four edits is rejected. *)
Definition imageAnswer (data : string) : Settled ImageResponse.t :=
  Resolves
    (ImageResponse.mk
       (Some [Candidate.mk (Some [ResponsePart.mk (Some (Some data)) None])])).

Definition worldWithSecondEditFailing : World.t :=
  World.mk DEFAULT_CONFIG None []
    [Rejects (Error "503 overloaded")]
    [imageAnswer "AAAA"; Rejects (Error "500 internal"); imageAnswer "CCCC";
     imageAnswer "DDDD"]
    [] [] [].



(** Worlds in which the text of the parse call is [null], and the text
    of an object. *)
Definition worldWithNullShots : World.t :=
  World.mk DEFAULT_CONFIG (Some "env-key") [] [Resolves (Parses JsonNull)]
    [imageAnswer "AAAA"] [] [] [].

Definition worldWithObjectShots : World.t :=
  World.mk DEFAULT_CONFIG (Some "env-key") []
    [Resolves (Parses (JsonOther false))] [imageAnswer "AAAA"] [] [] [].

(** A brief, and a provider answer of two concepts. *)
Definition juicerBrief : ProductInfo.t :=
  ProductInfo.mk "Compact Juicer" "A portable juicer for small kitchens."
    "emotional" None.

Definition twoConcepts : list RawConcept.t :=
  [ RawConcept.mk None "Morning ritual" "A calm start of the day."
      "Fresh juice in ten seconds." "Four frames of a kitchen at dawn."
      "soft morning light, 35mm";
    RawConcept.mk None "On the go" "Juice wherever you are."
      "Blend, sip, go." "Four frames of a commute."
      "urban daylight, handheld" ].

Definition worldWithTwoConcepts : World.t :=
  World.mk DEFAULT_CONFIG None [Resolves (Parses twoConcepts)] [] [] [] [] [].

(** A world whose every answer comes back without a usable payload: no
    text, no candidate, and an operation done after one poll with no
    generated video. *)
Definition worldWithEmptyAnswers : World.t :=
  World.mk DEFAULT_CONFIG (Some "env-key")
    [Resolves Falsy] []
    [Resolves (ImageResponse.mk None)]
    [Resolves (Operation.mk false None)]
    [Resolves (Operation.mk true (Some []))]
    [].

(** An image answer whose only part has [inlineData] without [data], and
    a world that gives it to the next two image calls. *)
Definition blobWithoutData : ImageResponse.t :=
  ImageResponse.mk
    (Some [Candidate.mk (Some [ResponsePart.mk (Some None) None])]).

Definition worldWithBlobWithoutData : World.t :=
  World.mk DEFAULT_CONFIG (Some "env-key") [] []
    [Resolves blobWithoutData; Resolves blobWithoutData] [] [] [].

(** An operation whose second generated video only has a uri. *)
Definition secondVideoOnly : Operation.t :=
  Operation.mk true
    (Some [GeneratedVideo.mk None;
           GeneratedVideo.mk (Some "https://video/2?alt=media")]).

Definition worldWithSecondVideoOnly : World.t :=
  World.mk DEFAULT_CONFIG (Some "env-key") [] [] []
    [Resolves secondVideoOnly] [] [].

(** A world whose every answer comes back with a payload: two concepts,
    an image whose data follows a text part, and an operation done at
    once with a video uri. *)
Definition textThenImage : ImageResponse.t :=
  ImageResponse.mk
    (Some [Candidate.mk
             (Some [ResponsePart.mk None (Some "Here is the image.");
                    ResponsePart.mk (Some (Some "AAAA")) None])]).

Definition worldWithPayloads : World.t :=
  World.mk DEFAULT_CONFIG (Some "env-key")
    [Resolves (Parses twoConcepts)] []
    [Resolves textThenImage]
    [Resolves (Operation.mk true
                 (Some [GeneratedVideo.mk (Some "https://video/1?alt=media")]))]
    []
    [].

(* ================================================================== *)
(** * Further definitions used to state properties of the service *)
(* ================================================================== *)

(** The key a request is sent with: the configured one when it is not
    empty, the key of the environment otherwise. *)
Definition keyInUse (configured : string) (env : option string) : option string :=
  if String.eqb configured "" then env else Some configured.

(** The parts an edit request is made of: the base image, then the
    reference image with the identity directive when a reference is
    given and is not empty, then the instruction. *)
Definition editParts (baseImage instruction : string)
    (referenceProductImage : option string) : list Part :=
  InlineDataPart "image/png" (stripDataUrl baseImage)
  :: match referenceProductImage with
     | Some (String c r) =>
         [InlineDataPart "image/png" (stripDataUrl (String c r));
          TextPart IdentityDirective;
          TextPart (EditInstruction instruction)]
     | _ => [TextPart (EditInstruction instruction)]
     end.

(** The edit request for an instruction, in a world with the given
    configuration and environment key. *)
Definition editCallFor (config : AppConfig.t) (env : option string)
    (baseImage : string) (referenceImage : option string)
    (aspectRatio instruction : string) : Call :=
  GenerateContent (keyInUse (AppConfig.imageKey config) env)
    (GenerateContentParameters.mk (AppConfig.imageModel config)
       (PartsContents
          (editParts baseImage instruction referenceImage))
       (ImageConfig aspectRatio
          (if includes (AppConfig.imageModel config) "flash"
           then None else Some "1K"))).

(** The request that parses a storyboard script. *)
Definition parseCallFor (config : AppConfig.t) (env : option string)
    (storyboardScript : string) (mode : AppMode) : Call :=
  GenerateContent (keyInUse (AppConfig.textKey config) env)
    (GenerateContentParameters.mk (AppConfig.textModel config)
       (PromptContents (ParsePrompt mode storyboardScript))
       (JsonConfig ShotArraySchema)).

(** The operations the polling loop passes to [getVideosOperation], in
    order: none when the submitted operation is done; otherwise the
    operation in hand, then those of the polls that resolve, up to the
    first one that is done, or to a poll that is rejected or never
    settles. *)
Fixpoint polled (operation : Operation.t) (polls : list (Settled Operation.t))
  : list Operation.t :=
  if Operation.done operation then []
  else
    operation
    :: match polls with
       | Resolves operation' :: polls' => polled operation' polls'
       | _ => []
       end.

(** One turn of the polling loop in the log: the timer, then the poll. *)
Definition pollTurn (apiKey : option string) (operation : Operation.t)
  : list Call :=
  [SetTimeout 8000; GetVideosOperation apiKey operation].

(** A world whose concept call is rejected and whose video submission
    resolves to an operation that is not done, the poll being rejected. *)
Definition worldWithRejections : World.t :=
  World.mk DEFAULT_CONFIG (Some "env-key")
    [Rejects (Error "403 PERMISSION_DENIED")] [] []
    [Resolves (Operation.mk false None)]
    [Rejects (Error "403 PERMISSION_DENIED")]
    [].

(** A world whose next image answer holds the data "AAAA". *)
Definition worldWithOneImage : World.t :=
  World.mk DEFAULT_CONFIG None [] []
    [Resolves
       (ImageResponse.mk
          (Some [Candidate.mk
                   (Some [ResponsePart.mk (Some (Some "AAAA")) None])]))]
    [] [] [].

(** What [generateStoryVideo] makes of the operation its polling loop
    ends with. *)
Definition videoOutcome (final : option (Settled Operation.t)) : Outcome string :=
  match outcomeOfFinal final with
  | Returned operation =>
      if negb (truthy (firstVideoUri operation))
      then Thrown (Error "Video generation failed")
      else Returned (interpolate (firstVideoUri operation))
  | Thrown e => Thrown e
  | Pending => Pending
  end.

(** A world whose video submission is not done, and is done at the third
    poll. *)
Definition worldDoneAtThirdPoll : World.t :=
  World.mk DEFAULT_CONFIG (Some "env-key") [] [] []
    [Resolves (Operation.mk false None)]
    [Resolves (Operation.mk false None);
     Resolves (Operation.mk false None);
     Resolves (Operation.mk true
                 (Some [GeneratedVideo.mk (Some "https://video/1?alt=media")]));
     Resolves (Operation.mk true None)]
    [].


(* ================================================================== *)
(** * StepIdeation: the concepts displayed and their groups *)
(* ================================================================== *)

From Stdlib Require Import Sorted Permutation.

(** [filteredConcepts]: the concepts of the current mode and product. *)
Definition filteredConcepts (historyConcepts : list SceneConcept.t)
    (currentMode : AppMode) (product : ProductInfo.t) : list SceneConcept.t :=
  filter (fun c =>
            modeIs (SceneConcept.mode c) currentMode
            && String.eqb (SceneConcept.productName c) (ProductInfo.name product))
         historyConcepts.

(** [`${concept.productName}::${concept.creativeDirection}`] *)
Definition conceptGroupKey (c : SceneConcept.t) : string :=
  (SceneConcept.productName c ++ "::" ++ SceneConcept.creativeDirection c)%string.

(** The object built by the [reduce]: its keys in insertion order, each
    with its array.  (A key holds "::", so it is never an array index
    and never a property of [Object.prototype]: the keys are enumerated
    in insertion order.)  [pushToGroup] is one step of the reducer:
    [if (!groups[key]) groups[key] = []; groups[key].push(concept)]. *)
Fixpoint pushToGroup (key : string) (c : SceneConcept.t)
    (groups : list (string * list SceneConcept.t))
  : list (string * list SceneConcept.t) :=
  match groups with
  | [] => [(key, [c])]
  | (k, members) :: rest =>
      if String.eqb k key then (k, members ++ [c]) :: rest
      else (k, members) :: pushToGroup key c rest
  end.

Definition groupedConcepts (filtered : list SceneConcept.t)
  : list (string * list SceneConcept.t) :=
  fold_left (fun groups c => pushToGroup (conceptGroupKey c) c groups)
            filtered [].

(** [groupedConcepts[key]] *)
Fixpoint groupOf (groups : list (string * list SceneConcept.t)) (key : string)
  : option (list SceneConcept.t) :=
  match groups with
  | [] => None
  | (k, members) :: rest =>
      if String.eqb k key then Some members else groupOf rest key
  end.

(** [groupedConcepts[key][0].createdAt]; every key of the object has a
    first member, the default stands for no case of the code. *)
Definition firstCreatedAt (groups : list (string * list SceneConcept.t))
    (key : string) : N :=
  match groupOf groups key with
  | Some (c :: _) => SceneConcept.createdAt c
  | _ => 0%N
  end.

(** [xs.sort(compare)] for a consistent comparator, of which only the
    sign matters: the sort is stable, so its result is the one of a
    stable insertion sort.  [insertSorted] puts [x] before the first
    element it does not come after. *)
Fixpoint insertSorted {A} (compare : A -> A -> comparison) (x : A) (l : list A)
  : list A :=
  match l with
  | [] => [x]
  | y :: l' =>
      match compare x y with
      | Gt => y :: insertSorted compare x l'
      | _ => x :: y :: l'
      end
  end.

Definition sortWith {A} (compare : A -> A -> comparison) (l : list A) : list A :=
  fold_right (insertSorted compare) [] l.

(** The sign of [timeB - timeA]. *)
Definition newestGroupFirst (groups : list (string * list SceneConcept.t))
    (a b : string) : comparison :=
  N.compare (firstCreatedAt groups b) (firstCreatedAt groups a).

(** [sortedGroupKeys] *)
Definition sortedGroupKeys (groups : list (string * list SceneConcept.t))
  : list string :=
  sortWith (newestGroupFirst groups) (map fst groups).

(** [groupKey.split('::')]: the pieces between the successive leftmost
    occurrences of "::".  [current] is the piece being read. *)
Fixpoint splitDoubleColon (current s : string) : list string :=
  match s with
  | EmptyString => [current]
  | String c rest =>
      match rest with
      | String c' rest' =>
          if Ascii.eqb c ":" && Ascii.eqb c' ":"
          then current :: splitDoubleColon EmptyString rest'
          else splitDoubleColon (current ++ String c EmptyString)%string rest
      | EmptyString => [(current ++ String c EmptyString)%string]
      end
  end.

(** [const [pName, pDirection] = groupKey.split('::')] *)
Definition groupHeader (groupKey : string) : option string * option string :=
  let pieces := splitDoubleColon EmptyString groupKey in
  (nth_error pieces 0, nth_error pieces 1).

(** A brief whose name holds "::". *)
Definition colonBrief : ProductInfo.t :=
  ProductInfo.mk "Chef::Pro" "A kitchen robot." "emotional" None.

(** A world whose concept call answers with no text. *)
Definition worldWithNoConceptText : World.t :=
  World.mk DEFAULT_CONFIG None [Resolves Falsy] [] [] [] [] [].

(** A world whose concept call is rejected with an error that has no
    message. *)
Definition worldWithSilentRejection : World.t :=
  World.mk DEFAULT_CONFIG (Some "env-key") [Rejects (Error "")] [] [] [] [] [].

(** A stamped concept of each brief. *)
Definition morningRitual : RawConcept.t :=
  RawConcept.mk None "Morning ritual" "A calm start of the day."
    "Fresh juice in ten seconds." "Four frames of a kitchen at dawn."
    "soft morning light, 35mm".

Definition juicerConcept : SceneConcept.t :=
  stamp (fun k => 1700000000000%N) juicerBrief video morningRitual 0.

Definition colonConcept : SceneConcept.t :=
  stamp (fun k => 1700000000000%N) colonBrief video morningRitual 0.

(* ================================================================== *)
(** * StepVisualizer: the state of the component and its handlers *)
(* ================================================================== *)

(** What [setStatus] is given in [StepVisualizer]; a message built from a
    template carries the interpolated value. *)
Inductive VisualizerStatus : Type :=
| StatusEmpty
| StatusGeneratingFromProduct (ratio : string)
| StatusGeneratingMain (ratio : string)
| StatusPermission
| StatusImageFailed (message : string)
| StatusEditing
| StatusEditFailed (message : string).

Module Visualizer.
Record t : Type := mk {
  activeImageId : option string;
  loading : bool;
  status : VisualizerStatus;
  editInstruction : string;
  uploadRefImage : option string;
  isSceneConfirmed : bool;
  storyboardShots : list StoryboardShot.t;
  generatingStoryboard : bool;
  editingShotIdx : option nat;
  tempInstruction : string;
  regeneratingShotIdx : option nat;
  aspectRatio : string
}.

(** The initial values given to [useState]. *)
Definition initial : t :=
  mk None false StatusEmpty "" None false [] false None "" None "9:16".

Definition setActiveImageId x (v : t) : t :=
  mk x (loading v) (status v) (editInstruction v) (uploadRefImage v)
     (isSceneConfirmed v) (storyboardShots v) (generatingStoryboard v)
     (editingShotIdx v) (tempInstruction v) (regeneratingShotIdx v)
     (aspectRatio v).
Definition setLoading x (v : t) : t :=
  mk (activeImageId v) x (status v) (editInstruction v) (uploadRefImage v)
     (isSceneConfirmed v) (storyboardShots v) (generatingStoryboard v)
     (editingShotIdx v) (tempInstruction v) (regeneratingShotIdx v)
     (aspectRatio v).
Definition setStatus x (v : t) : t :=
  mk (activeImageId v) (loading v) x (editInstruction v) (uploadRefImage v)
     (isSceneConfirmed v) (storyboardShots v) (generatingStoryboard v)
     (editingShotIdx v) (tempInstruction v) (regeneratingShotIdx v)
     (aspectRatio v).
Definition setEditInstruction x (v : t) : t :=
  mk (activeImageId v) (loading v) (status v) x (uploadRefImage v)
     (isSceneConfirmed v) (storyboardShots v) (generatingStoryboard v)
     (editingShotIdx v) (tempInstruction v) (regeneratingShotIdx v)
     (aspectRatio v).
Definition setUploadRefImage x (v : t) : t :=
  mk (activeImageId v) (loading v) (status v) (editInstruction v) x
     (isSceneConfirmed v) (storyboardShots v) (generatingStoryboard v)
     (editingShotIdx v) (tempInstruction v) (regeneratingShotIdx v)
     (aspectRatio v).
Definition setIsSceneConfirmed x (v : t) : t :=
  mk (activeImageId v) (loading v) (status v) (editInstruction v)
     (uploadRefImage v) x (storyboardShots v) (generatingStoryboard v)
     (editingShotIdx v) (tempInstruction v) (regeneratingShotIdx v)
     (aspectRatio v).
Definition setStoryboardShots f (v : t) : t :=
  mk (activeImageId v) (loading v) (status v) (editInstruction v)
     (uploadRefImage v) (isSceneConfirmed v) (f (storyboardShots v))
     (generatingStoryboard v) (editingShotIdx v) (tempInstruction v)
     (regeneratingShotIdx v) (aspectRatio v).
Definition setGeneratingStoryboard x (v : t) : t :=
  mk (activeImageId v) (loading v) (status v) (editInstruction v)
     (uploadRefImage v) (isSceneConfirmed v) (storyboardShots v) x
     (editingShotIdx v) (tempInstruction v) (regeneratingShotIdx v)
     (aspectRatio v).
Definition setEditingShotIdx x (v : t) : t :=
  mk (activeImageId v) (loading v) (status v) (editInstruction v)
     (uploadRefImage v) (isSceneConfirmed v) (storyboardShots v)
     (generatingStoryboard v) x (tempInstruction v) (regeneratingShotIdx v)
     (aspectRatio v).
Definition setTempInstruction x (v : t) : t :=
  mk (activeImageId v) (loading v) (status v) (editInstruction v)
     (uploadRefImage v) (isSceneConfirmed v) (storyboardShots v)
     (generatingStoryboard v) (editingShotIdx v) x (regeneratingShotIdx v)
     (aspectRatio v).
Definition setRegeneratingShotIdx x (v : t) : t :=
  mk (activeImageId v) (loading v) (status v) (editInstruction v)
     (uploadRefImage v) (isSceneConfirmed v) (storyboardShots v)
     (generatingStoryboard v) (editingShotIdx v) (tempInstruction v) x
     (aspectRatio v).
Definition setAspectRatio x (v : t) : t :=
  mk (activeImageId v) (loading v) (status v) (editInstruction v)
     (uploadRefImage v) (isSceneConfirmed v) (storyboardShots v)
     (generatingStoryboard v) (editingShotIdx v) (tempInstruction v)
     (regeneratingShotIdx v) x.
End Visualizer.

(** The effect on [currentMode]: the default aspect ratio of the mode. *)
Definition defaultAspectRatio (currentMode : AppMode) : string :=
  match currentMode with
  | image => "1:1"
  | pdp => "9:16"
  | video => "9:16"
  end.

(** [i.id === activeImageId], where [activeImageId] may be null. *)
Definition isActiveId (activeImageId : option string) (i : ImageHistoryItem.t)
  : bool :=
  match activeImageId with
  | Some id => String.eqb (ImageHistoryItem.id i) id
  | None => false
  end.

(** [activeImage]: the image of the current view that has the active id. *)
Definition activeImage (v : Visualizer.t)
    (historyImages : list ImageHistoryItem.t) (concept : SceneConcept.t)
    (currentMode : AppMode) : option ImageHistoryItem.t :=
  find (isActiveId (Visualizer.activeImageId v))
       (currentHistoryImages historyImages concept currentMode).

(** The effect on [concept.id] and [currentMode]: the storyboard state
    is reset and the newest image of the view, if any, becomes active. *)
Definition resetOnConceptChange (historyImages : list ImageHistoryItem.t)
    (concept : SceneConcept.t) (currentMode : AppMode) (v : Visualizer.t)
  : Visualizer.t :=
  let v' :=
    Visualizer.setActiveImageId None
      (Visualizer.setEditingShotIdx None
         (Visualizer.setStoryboardShots (fun _ => [])
            (Visualizer.setIsSceneConfirmed false v))) in
  match currentHistoryImages historyImages concept currentMode with
  | newest :: _ =>
      Visualizer.setActiveImageId (Some (ImageHistoryItem.id newest)) v'
  | [] => v'
  end.

(** [e.toString().includes('403') || e.toString().includes('PERMISSION_DENIED')] *)
Definition isPermissionError (e : JsError) : bool :=
  includes (errToString e) "403" || includes (errToString e) "PERMISSION_DENIED".

(** [handleGenerateMainVisual(overrideRatio?)], with [onAddImage] wired
    to [addHistoryImage] as in [App].  [DateNow 0] and [DateNow 1] are
    the two readings of [Date.now()], for the id and for [createdAt].
    The handler never throws. *)
Definition handleGenerateMainVisual (DateNow : nat -> N)
    (concept : SceneConcept.t) (productImages : option (list string))
    (currentMode : AppMode) (overrideRatio : option string)
    (v : Visualizer.t) (s : App.t) : Async (Visualizer.t * App.t) :=
  let ratio :=
    if truthy overrideRatio then interpolate overrideRatio
    else Visualizer.aspectRatio v in
  let v1 :=
    Visualizer.setStatus
      (if nonEmptyImages productImages
       then StatusGeneratingFromProduct ratio
       else StatusGeneratingMain ratio)
      (Visualizer.setLoading true v) in
  tryCatch
    (result <- generateSceneImage (SceneConcept.visualPrompt concept)
                 productImages ratio ;;
     let newItem :=
       ImageHistoryItem.mk (N_toString (DateNow 0)) result
         (SceneConcept.visualPrompt concept)
         (SceneConcept.productName concept)
         (SceneConcept.creativeDirection concept)
         (SceneConcept.title concept)
         (SceneConcept.id concept)
         (DateNow 1)
         (Some currentMode) in
     ret (Visualizer.setLoading false
            (Visualizer.setActiveImageId (Some (ImageHistoryItem.id newItem))
               v1),
          addHistoryImage newItem s))
    (fun e =>
       ret (Visualizer.setLoading false
              (Visualizer.setStatus
                 (if isPermissionError e then StatusPermission
                  else StatusImageFailed (errMessage e))
                 v1),
            s)).

(** [handleRatioChange]: [setAspectRatio(newRatio)], then
    [handleGenerateMainVisual(newRatio)], which still reads the aspect
    ratio of the render it was created in. *)
Definition handleRatioChange (DateNow : nat -> N)
    (concept : SceneConcept.t) (productImages : option (list string))
    (currentMode : AppMode) (newRatio : string)
    (v : Visualizer.t) (s : App.t) : Async (Visualizer.t * App.t) :=
  r <- handleGenerateMainVisual DateNow concept productImages currentMode
         (Some newRatio) v s ;;
  ret (Visualizer.setAspectRatio newRatio (fst r), snd r).

(** [handleEdit] *)
Definition handleEdit (DateNow : nat -> N)
    (concept : SceneConcept.t) (currentMode : AppMode)
    (v : Visualizer.t) (s : App.t) : Async (Visualizer.t * App.t) :=
  match activeImage v (App.historyImages s) concept currentMode with
  | None => ret (v, s)
  | Some active =>
      if negb (truthy (Some (Visualizer.editInstruction v))) then ret (v, s)
      else
        let v1 :=
          Visualizer.setStatus StatusEditing (Visualizer.setLoading true v) in
        tryCatch
          (result <- editSceneImage (ImageHistoryItem.base64 active)
                       (Visualizer.editInstruction v)
                       (orElse (Visualizer.uploadRefImage v) None)
                       (Visualizer.aspectRatio v) ;;
           let newItem :=
             ImageHistoryItem.mk (N_toString (DateNow 0)) result
               ("Edit: " ++ Visualizer.editInstruction v)%string
               (SceneConcept.productName concept)
               (SceneConcept.creativeDirection concept)
               (SceneConcept.title concept)
               (SceneConcept.id concept)
               (DateNow 1)
               (Some currentMode) in
           ret (Visualizer.setLoading false
                  (Visualizer.setUploadRefImage None
                     (Visualizer.setEditInstruction ""
                        (Visualizer.setActiveImageId
                           (Some (ImageHistoryItem.id newItem)) v1))),
                addHistoryImage newItem s))
          (fun e =>
             ret (Visualizer.setLoading false
                    (Visualizer.setStatus (StatusEditFailed (errMessage e)) v1),
                  s))
  end.

(** The history item of a storyboard shot: [DateNow (2 * k)] and
    [DateNow (2 * k + 1)] are the readings of [Date.now()] for the shot
    at position [k], [Random k] the text of its [Math.random()]. *)
Definition storyboardItem (DateNow : nat -> N) (Random : nat -> string)
    (concept : SceneConcept.t) (currentMode : AppMode)
    (shot : StoryboardShot.t) (k : nat) : ImageHistoryItem.t :=
  ImageHistoryItem.mk
    (N_toString (DateNow (2 * k)) ++ Random k)%string
    (StoryboardShot.base64 shot)
    ("Storyboard: " ++ StoryboardShot.label shot)%string
    (SceneConcept.productName concept)
    (SceneConcept.creativeDirection concept)
    (SceneConcept.title concept)
    (SceneConcept.id concept)
    (DateNow (2 * k + 1))
    (Some currentMode).

(** [shots.forEach(shot => onAddImage({...}))], counting from [k]. *)
Fixpoint addShotsToHistory (DateNow : nat -> N) (Random : nat -> string)
    (concept : SceneConcept.t) (currentMode : AppMode)
    (shots : list StoryboardShot.t) (k : nat) (s : App.t) : App.t :=
  match shots with
  | [] => s
  | shot :: shots' =>
      addShotsToHistory DateNow Random concept currentMode shots' (S k)
        (addHistoryImage
           (storyboardItem DateNow Random concept currentMode shot k) s)
  end.

(** [handleConfirmAndGenerateStoryboard] *)
Definition handleConfirmAndGenerateStoryboard (DateNow : nat -> N)
    (Random : nat -> string) (concept : SceneConcept.t)
    (productImages : option (list string)) (currentMode : AppMode)
    (v : Visualizer.t) (s : App.t) : Async (Visualizer.t * App.t) :=
  match activeImage v (App.historyImages s) concept currentMode with
  | None => ret (v, s)
  | Some active =>
      let v1 :=
        Visualizer.setGeneratingStoryboard true
          (Visualizer.setIsSceneConfirmed true v) in
      tryCatch
        (shots <- generateStoryboardShots (ImageHistoryItem.base64 active)
                    (SceneConcept.storyboard concept) productImages
                    currentMode (Visualizer.aspectRatio v) ;;
         ret (Visualizer.setGeneratingStoryboard false
                (Visualizer.setStoryboardShots (fun _ => shots) v1),
              addShotsToHistory DateNow Random concept currentMode shots 0 s))
        (fun _ =>
           ret (Visualizer.setGeneratingStoryboard false v1, s))
  end.

(** [handleOpenRegen] *)
Definition handleOpenRegen (index : nat) (instruction : string)
    (v : Visualizer.t) : Visualizer.t :=
  Visualizer.setTempInstruction instruction
    (Visualizer.setEditingShotIdx (Some index) v).

(** [updated[index] = {...updated[index], base64, instruction}], for an
    index of the array. *)
Fixpoint replaceShot (index : nat) (base64 instruction : string)
    (shots : list StoryboardShot.t) : list StoryboardShot.t :=
  match shots, index with
  | [], _ => []
  | shot :: shots', O =>
      StoryboardShot.mk (StoryboardShot.label shot) base64 instruction
      :: shots'
  | shot :: shots', S index' =>
      shot :: replaceShot index' base64 instruction shots'
  end.

(** [handleRegenerateShot(index)], for the index of a displayed shot:
    the handler is the [onClick] of a button rendered inside
    [storyboardShots.map((shot, idx) => ...)] and is given that [idx].
    The result is [None] for any other index, which the component has no
    way to pass: the array with a gap that the assignment would then make
    is not modelled.  No other handler is taken to run while the edit is
    awaited, so the array updated is the one the label is read from.
    The [alert] of the [catch] is the [bool] returned. *)
Definition handleRegenerateShot (DateNow : nat -> N) (Random : nat -> string)
    (concept : SceneConcept.t) (productImages : option (list string))
    (currentMode : AppMode) (index : nat)
    (v : Visualizer.t) (s : App.t)
  : option (Async (Visualizer.t * App.t * bool)) :=
  match nth_error (Visualizer.storyboardShots v) index with
  | None => None
  | Some shot =>
      Some
        match activeImage v (App.historyImages s) concept currentMode with
        | None => ret (v, s, false)
        | Some active =>
            let v1 :=
              Visualizer.setRegeneratingShotIdx (Some index)
                (Visualizer.setEditingShotIdx None v) in
            tryCatch
              (let refImg :=
                 if nonEmptyImages productImages
                 then hd_error (imagesOf productImages) else None in
               newBase64 <- editSceneImage (ImageHistoryItem.base64 active)
                              (Visualizer.tempInstruction v) refImg
                              (Visualizer.aspectRatio v) ;;
               ret (Visualizer.setRegeneratingShotIdx None
                      (Visualizer.setStoryboardShots
                         (replaceShot index newBase64
                            (Visualizer.tempInstruction v)) v1),
                    addHistoryImage
                      (ImageHistoryItem.mk
                         (N_toString (DateNow 0) ++ Random 0)%string
                         newBase64
                         ("Regen Storyboard: " ++ StoryboardShot.label shot)%string
                         (SceneConcept.productName concept)
                         (SceneConcept.creativeDirection concept)
                         (SceneConcept.title concept)
                         (SceneConcept.id concept)
                         (DateNow 1)
                         (Some currentMode))
                      s,
                    false))
              (fun _ =>
                 ret (Visualizer.setRegeneratingShotIdx None v1, s, true))
        end
  end.

(** The button "use as video source" of a shot: [onAddImage] with the
    label as prompt. *)
Definition useShotAsVideoSource (DateNow : nat -> N)
    (concept : SceneConcept.t) (currentMode : AppMode)
    (shot : StoryboardShot.t) (s : App.t) : App.t :=
  addHistoryImage
    (ImageHistoryItem.mk (N_toString (DateNow 0))
       (StoryboardShot.base64 shot) (StoryboardShot.label shot)
       (SceneConcept.productName concept)
       (SceneConcept.creativeDirection concept)
       (SceneConcept.title concept)
       (SceneConcept.id concept)
       (DateNow 1)
       (Some currentMode))
    s.

(** What [generateSceneImage] ([failure] = "No image generated") and
    [editSceneImage] ([failure] = "Image editing failed") make of the way
    their call settles. *)
Definition imageOutcome (failure : string) (answer : Settled ImageResponse.t)
  : Outcome string :=
  match answer with
  | Resolves response =>
      match firstInlineData (responseParts response) with
      | Some d => Returned ("data:image/png;base64," ++ interpolate d)%string
      | None => Thrown (Error failure)
      end
  | Rejects e => Thrown e
  end.

(** A displayed image of the juicer concept, the state of [App] that
    holds it, and a state of the component in which it is active. *)
Definition juicerImage : ImageHistoryItem.t :=
  ImageHistoryItem.mk "1700000000500" "data:image/png;base64,BASE"
    "soft morning light, 35mm" "Compact Juicer" "emotional" "Morning ritual"
    (SceneConcept.id juicerConcept) 1700000000500 (Some video).

Definition appWithJuicerImage : App.t :=
  addHistoryImage juicerImage (onSelect juicerConcept App.initial).

Definition visualizerOnJuicerImage : Visualizer.t :=
  Visualizer.setEditInstruction "add neon lighting"
    (resetOnConceptChange (App.historyImages appWithJuicerImage)
       juicerConcept video Visualizer.initial).

(** A state of the component with three shots displayed, the second
    being edited with a new instruction. *)
Definition visualizerWithShots : Visualizer.t :=
  Visualizer.setTempInstruction "Macro close-up, warmer light"
    (Visualizer.setStoryboardShots
       (fun _ =>
          [StoryboardShot.mk "Opening" "data:image/png;base64,OLD1"
             "Wide establishing shot of the kitchen.";
           StoryboardShot.mk "Detail" "data:image/png;base64,OLD2"
             "Macro close-up of the control dial.";
           StoryboardShot.mk "Closing" "data:image/png;base64,OLD3"
             "Product on a table, warm light."])
       visualizerOnJuicerImage).

(* ================================================================== *)
(** * StepProduction: selection of reference images and video run *)
(* ================================================================== *)

(** A [Set<string>]: its elements in insertion order, each once. *)
Definition setHas (id : string) (ids : list string) : bool :=
  existsb (String.eqb id) ids.

Definition setAdd (id : string) (ids : list string) : list string :=
  if setHas id ids then ids else ids ++ [id].

Definition setDelete (id : string) (ids : list string) : list string :=
  filter (fun x => negb (String.eqb x id)) ids.

(** [toggleImageSelection]: the new selection, and the alert shown when a
    fourth image is refused. *)
Definition toggleImageSelection (id : string) (selectedImageIds : list string)
  : list string * option string :=
  if setHas id selectedImageIds
  then (setDelete id selectedImageIds, None)
  else if Nat.leb 3 (length selectedImageIds)
       then (selectedImageIds,
             Some "Veo 模型目前最多支持 3 张参考图。请先取消一个选择。")
       else (setAdd id selectedImageIds, None).

(** The selection after a series of clicks. *)
Definition toggleAll (ids : list string) (selectedImageIds : list string)
  : list string :=
  fold_left (fun selection id => fst (toggleImageSelection id selection))
            ids selectedImageIds.

(** The effect on [concept.id] and [relevantImages.length]: the newest
    relevant image, if any, is the selection. *)
Definition initialSelection (relevant : list ImageHistoryItem.t) : list string :=
  match relevant with
  | newest :: _ => [ImageHistoryItem.id newest]
  | [] => []
  end.

(** [relevantImages.filter(img => selectedImageIds.has(img.id)).map(img => img.base64)] *)
Definition selectedImgs (relevant : list ImageHistoryItem.t)
    (selectedImageIds : list string) : list string :=
  map ImageHistoryItem.base64
    (filter (fun img => setHas (ImageHistoryItem.id img) selectedImageIds)
       relevant).

(** The browser around the service: how each future [fetch] of a video
    settles (with the object url made of its blob), and the urls
    fetched so far, oldest first. *)
Module Browser.
Record t : Type := mk {
  service : World.t;
  fetchAnswers : list (Settled string);
  fetched : list string
}.
End Browser.

(** The monad of the asynchronous functions that also use the browser. *)
Definition UI (A : Type) : Type := Browser.t -> Outcome A * Browser.t.

Definition uiRet {A} (a : A) : UI A := fun b => (Returned a, b).

Definition uiBind {A B} (m : UI A) (k : A -> UI B) : UI B :=
  fun b =>
    match m b with
    | (Returned a, b') => k a b'
    | (Thrown e, b') => (Thrown e, b')
    | (Pending, b') => (Pending, b')
    end.

Definition uiTryCatch {A} (m : UI A) (h : JsError -> UI A) : UI A :=
  fun b =>
    match m b with
    | (Thrown e, b') => h e b'
    | r => r
    end.

(** A function of the service, run in the browser. *)
Definition liftAsync {A} (m : Async A) : UI A :=
  fun b =>
    (fst (m (Browser.service b)),
     Browser.mk (snd (m (Browser.service b))) (Browser.fetchAnswers b)
       (Browser.fetched b)).

(** [URL.createObjectURL(await (await fetch(url)).blob())] *)
Definition fetchObjectUrl (url : string) : UI string :=
  fun b =>
    let b' :=
      Browser.mk (Browser.service b) (tl (Browser.fetchAnswers b))
        (Browser.fetched b ++ [url]) in
    match Browser.fetchAnswers b with
    | [] => (Pending, b')
    | Resolves objectUrl :: _ => (Returned objectUrl, b')
    | Rejects e :: _ => (Thrown e, b')
    end.

(** [fetchVideoUrl] *)
Definition fetchVideoUrl (uri : string) : UI string :=
  uiBind (liftAsync getConfig) (fun currentConfig =>
  uiBind (liftAsync getEnvKey) (fun env =>
  let key := orElse (Some (AppConfig.videoKey currentConfig)) env in
  fetchObjectUrl (uri ++ "&key=" ++ interpolate key)%string)).

(** What [setStatus] is given in [StepProduction]. *)
Inductive ProductionStatus : Type :=
| ProductionIdle
| ProductionInitializing
| ProductionDownloading
| ProductionKeyRejected
| ProductionFailed (message : string).

Module Production.
Record t : Type := mk {
  activeVideo : option VideoHistoryItem.t;
  loading : bool;
  status : ProductionStatus;
  hasKey : bool;
  currentScript : string;
  selectedImageIds : list string
}.
End Production.

(** The test of the [catch] of [handleGenerateVideo]. *)
Definition isKeyError (e : JsError) : bool :=
  includes (errToString e) "Requested entity was not found"
  || includes (errToString e) "403"
  || includes (errToString e) "PERMISSION_DENIED".

(** [handleGenerateVideo], with [onAddVideo] wired to [addHistoryVideo]
    as in [App].  The third component of the result is the alert of the
    guard.  The handler never throws. *)
Definition handleGenerateVideo (DateNow : nat -> N) (concept : SceneConcept.t)
    (p : Production.t) (s : App.t)
  : UI (Production.t * App.t * option string) :=
  if Nat.eqb (length (Production.selectedImageIds p)) 0
  then uiRet (p, s, Some "请至少选择一张参考图片")
  else
    uiTryCatch
      (let imgs :=
         selectedImgs (relevantImages (App.historyImages s) concept)
           (Production.selectedImageIds p) in
       uiBind (liftAsync (generateStoryVideo (Production.currentScript p) imgs))
         (fun uri =>
       uiBind (fetchVideoUrl uri) (fun blobUrl =>
       let newVideo :=
         VideoHistoryItem.mk (N_toString (DateNow 0)) uri blobUrl
           (SceneConcept.productName concept)
           (SceneConcept.creativeDirection concept)
           (SceneConcept.title concept)
           (DateNow 1)
           (Some video) in
       uiRet
         (Production.mk (Some newVideo) false ProductionDownloading
            (Production.hasKey p) (Production.currentScript p)
            (Production.selectedImageIds p),
          addHistoryVideo newVideo s,
          None))))
      (fun e =>
         uiRet
           (if isKeyError e
            then Production.mk (Production.activeVideo p) false
                   ProductionKeyRejected false (Production.currentScript p)
                   (Production.selectedImageIds p)
            else Production.mk (Production.activeVideo p) false
                   (ProductionFailed (messageOrUnknown e))
                   (Production.hasKey p) (Production.currentScript p)
                   (Production.selectedImageIds p),
            s,
            None)).

(** The state [handleGenerateVideo] leaves after a failure [e]. *)
Definition productionAfterFailure (p : Production.t) (e : JsError)
  : Production.t :=
  if isKeyError e
  then Production.mk (Production.activeVideo p) false ProductionKeyRejected
         false (Production.currentScript p) (Production.selectedImageIds p)
  else Production.mk (Production.activeVideo p) false
         (ProductionFailed (messageOrUnknown e)) (Production.hasKey p)
         (Production.currentScript p) (Production.selectedImageIds p).

(** A production state with the juicer image selected, and a browser in
    which the video is done at the third poll and the fetch succeeds. *)
Definition productionOnJuicerImage : Production.t :=
  Production.mk None false ProductionIdle true "Fresh juice in ten seconds."
    (initialSelection
       (relevantImages (App.historyImages appWithJuicerImage) juicerConcept)).

Definition browserDoneAtThirdPoll : Browser.t :=
  Browser.mk worldDoneAtThirdPoll [Resolves "blob:https://app/1"] [].

(** A browser in which the video submission is refused. *)
Definition browserWithRejections : Browser.t :=
  Browser.mk worldWithRejections [] [].

(* ================================================================== *)
(** * StepInput: the brief form and the product library *)
(* ================================================================== *)

From Stdlib Require Import ZArith.

Module ProductHistoryItem.
Record t : Type := mk {
  id : string;
  name : string;
  description : string;
  userImages : option (list string);
  timestamp : N;
  isPinned : bool
}.
End ProductHistoryItem.

Definition DIRECTIONS : list string :=
  ["猎奇吸睛"; "强化用户痛点"; "产品效果展示"; "情感共鸣"; "未来科技感"].

Definition MAX_IMAGES : nat := 4.

(** The state of [StepInput] after its mount effect.  [localStorage]
    is the value whose JSON text is stored under [HISTORY_KEY]. *)
Module Input.
Record t : Type := mk {
  name : string;
  description : string;
  direction : string;
  isAiWriting : bool;
  userImages : list string;
  history : list ProductHistoryItem.t;
  localStorage : option (list ProductHistoryItem.t)
}.

Definition setName v (i : t) : t :=
  mk v (description i) (direction i) (isAiWriting i) (userImages i)
     (history i) (localStorage i).

Definition setDescription v (i : t) : t :=
  mk (name i) v (direction i) (isAiWriting i) (userImages i)
     (history i) (localStorage i).

Definition setDirection v (i : t) : t :=
  mk (name i) (description i) v (isAiWriting i) (userImages i)
     (history i) (localStorage i).

Definition setUserImages (f : list string -> list string) (i : t) : t :=
  mk (name i) (description i) (direction i) (isAiWriting i)
     (f (userImages i)) (history i) (localStorage i).

(** [setHistory] with an updater that also stores its result. *)
Definition setHistoryAndStore
    (f : list ProductHistoryItem.t -> list ProductHistoryItem.t) (i : t) : t :=
  mk (name i) (description i) (direction i) (isAiWriting i) (userImages i)
     (f (history i)) (Some (f (history i))).
End Input.

(** [JSON.stringify(item.userImages) === JSON.stringify(images)], where
    [images] is an array of strings: the text of an array of strings
    determines the array, and the text of [undefined] is [undefined]. *)
Definition sameImages (a : option (list string)) (images : list string) : bool :=
  match a with
  | Some l => if list_eq_dec string_dec l images then true else false
  | None => false
  end.

(** The test of the [findIndex] of [saveToHistory]. *)
Definition sameContent (name description : string) (userImages : list string)
    (item : ProductHistoryItem.t) : bool :=
  String.eqb (ProductHistoryItem.name item) name
  && String.eqb (ProductHistoryItem.description item) description
  && sameImages (ProductHistoryItem.userImages item) userImages.

(** [Array.prototype.findIndex], with [None] for -1. *)
Fixpoint findIndex {A} (p : A -> bool) (l : list A) : option nat :=
  match l with
  | [] => None
  | x :: l' => if p x then Some 0 else option_map S (findIndex p l')
  end.

(** [{ ...existingItem, timestamp: now }] *)
Definition withTimestamp (now : N) (item : ProductHistoryItem.t)
  : ProductHistoryItem.t :=
  ProductHistoryItem.mk (ProductHistoryItem.id item)
    (ProductHistoryItem.name item) (ProductHistoryItem.description item)
    (ProductHistoryItem.userImages item) now
    (ProductHistoryItem.isPinned item).

(** The updater of [saveToHistory].  [findIndex] gives an index of
    [prev], so the last branch is never taken. *)
Definition saveUpdater (DateNow : nat -> N) (newItem : ProductHistoryItem.t)
    (name description : string) (userImages : list string)
    (prev : list ProductHistoryItem.t) : list ProductHistoryItem.t :=
  match findIndex (sameContent name description userImages) prev with
  | Some existingIndex =>
      match nth_error prev existingIndex with
      | Some existingItem =>
          withTimestamp (DateNow 2) existingItem :: removeAt existingIndex prev
      | None => prev
      end
  | None => newItem :: prev
  end.

(** [saveToHistory] *)
Definition saveToHistory (DateNow : nat -> N) (i : Input.t) : Input.t :=
  let newItem :=
    ProductHistoryItem.mk (N_toString (DateNow 0)) (Input.name i)
      (Input.description i) (Some (Input.userImages i)) (DateNow 1) false in
  Input.setHistoryAndStore
    (saveUpdater DateNow newItem (Input.name i) (Input.description i)
       (Input.userImages i))
    i.

(** [handleSubmit]: the new state and what [onNext] is called with, if
    it is called. *)
Definition handleSubmit (DateNow : nat -> N) (i : Input.t)
  : Input.t * option ProductInfo.t :=
  if truthy (Some (Input.name i)) && truthy (Some (Input.description i))
     && truthy (Some (Input.direction i))
  then (saveToHistory DateNow i,
        Some (ProductInfo.mk (Input.name i) (Input.description i)
                (Input.direction i)
                (if Nat.ltb 0 (length (Input.userImages i))
                 then Some (Input.userImages i) else None)))
  else (i, None).

(** [l.slice(0, n)] for an integer [n]: a negative [n] counts from the
    end. *)
Definition sliceTo {A} (n : Z) (l : list A) : list A :=
  if (n <? 0)%Z
  then firstn (Z.to_nat (Z.of_nat (length l) + n)) l
  else firstn (Z.to_nat n) l.

(** The files [handleImageUpload] starts a reader for. *)
Definition filesToProcess {A} (files : list A) (userImages : list string)
  : list A :=
  sliceTo (Z.of_nat MAX_IMAGES - Z.of_nat (length userImages)) files.

(** The updater run when a reader ends with [result]. *)
Definition onloadend (result : string) (prev : list string) : list string :=
  if Nat.leb MAX_IMAGES (length prev) then prev else prev ++ [result].

(** [prev.filter((_, i) => i !== index)], the indices counted from
    [start]. *)
Fixpoint filterIndexFrom {A} (start index : nat) (l : list A) : list A :=
  match l with
  | [] => []
  | x :: l' =>
      if Nat.eqb start index
      then filterIndexFrom (S start) index l'
      else x :: filterIndexFrom (S start) index l'
  end.

(** [removeImage] *)
Definition removeImage (index : nat) (i : Input.t) : Input.t :=
  Input.setUserImages (filterIndexFrom 0 index) i.

(** [handleApply] *)
Definition handleApply (item : ProductHistoryItem.t) (i : Input.t) : Input.t :=
  Input.setUserImages
    (fun _ => match ProductHistoryItem.userImages item with
              | Some images => images
              | None => []
              end)
    (Input.setDescription (ProductHistoryItem.description item)
       (Input.setName (ProductHistoryItem.name item) i)).

(** [{ ...item, isPinned: !item.isPinned }] *)
Definition togglePin (item : ProductHistoryItem.t) : ProductHistoryItem.t :=
  ProductHistoryItem.mk (ProductHistoryItem.id item)
    (ProductHistoryItem.name item) (ProductHistoryItem.description item)
    (ProductHistoryItem.userImages item) (ProductHistoryItem.timestamp item)
    (negb (ProductHistoryItem.isPinned item)).

(** [handlePin] *)
Definition handlePin (id : string) (i : Input.t) : Input.t :=
  Input.setHistoryAndStore
    (map (fun item =>
            if String.eqb (ProductHistoryItem.id item) id
            then togglePin item else item))
    i.

(** [handleDelete] *)
Definition handleDelete (id : string) (i : Input.t) : Input.t :=
  Input.setHistoryAndStore
    (filter (fun item => negb (String.eqb (ProductHistoryItem.id item) id)))
    i.

(** The comparator of [sortedHistory], by its sign. *)
Definition pinnedThenNewest (a b : ProductHistoryItem.t) : comparison :=
  if negb (Bool.eqb (ProductHistoryItem.isPinned a)
             (ProductHistoryItem.isPinned b))
  then if ProductHistoryItem.isPinned a then Lt else Gt
  else N.compare (ProductHistoryItem.timestamp b)
         (ProductHistoryItem.timestamp a).

(** [sortedHistory] *)
Definition sortedHistory (history : list ProductHistoryItem.t)
  : list ProductHistoryItem.t :=
  sortWith pinnedThenNewest history.

(** What the user and the readers do to [StepInput]: typing in the two
    fields (the description is also set by the writing aid), picking a
    direction, a reader that ends, and the clicks.  The rows of the
    library are those of [sortedHistory]; a click on a row that is not
    displayed does not happen. *)
Inductive InputEvent : Type :=
| TypeName (value : string)
| TypeDescription (value : string)
| PickDirection (value : string)
| ReaderEnds (result : string)
| ClickRemoveImage (index : nat)
| ClickSubmit (DateNow : nat -> N)
| ClickApply (row : nat)
| ClickPin (row : nat)
| ClickDelete (row : nat).

Definition onRow (row : nat) (handler : ProductHistoryItem.t -> Input.t -> Input.t)
    (i : Input.t) : Input.t :=
  match nth_error (sortedHistory (Input.history i)) row with
  | Some item => handler item i
  | None => i
  end.

Definition inputStep (i : Input.t) (e : InputEvent) : Input.t :=
  match e with
  | TypeName value => Input.setName value i
  | TypeDescription value => Input.setDescription value i
  | PickDirection value => Input.setDirection value i
  | ReaderEnds result => Input.setUserImages (onloadend result) i
  | ClickRemoveImage index => removeImage index i
  | ClickSubmit DateNow => fst (handleSubmit DateNow i)
  | ClickApply row => onRow row handleApply i
  | ClickPin row =>
      onRow row (fun item => handlePin (ProductHistoryItem.id item)) i
  | ClickDelete row =>
      onRow row (fun item => handleDelete (ProductHistoryItem.id item)) i
  end.

Definition inputRun (events : list InputEvent) (i : Input.t) : Input.t :=
  fold_left inputStep events i.

(** What the duplicate test of [saveToHistory] compares. *)
Definition content (item : ProductHistoryItem.t)
  : string * string * option (list string) :=
  (ProductHistoryItem.name item, ProductHistoryItem.description item,
   ProductHistoryItem.userImages item).

(** The number of images of a library entry. *)
Definition imageCount (item : ProductHistoryItem.t) : nat :=
  match ProductHistoryItem.userImages item with
  | Some images => length images
  | None => 0
  end.

(** The order of the rows of the library: pinned before unpinned, and
    among entries of the same kind no entry before a newer one. *)
Definition rowBefore (a b : ProductHistoryItem.t) : Prop :=
  (ProductHistoryItem.isPinned a = true
   /\ ProductHistoryItem.isPinned b = false)
  \/ (ProductHistoryItem.isPinned a = ProductHistoryItem.isPinned b
      /\ (ProductHistoryItem.timestamp b <= ProductHistoryItem.timestamp a)%N).

(** Two entries of the library, and the juicer brief typed in over
    them. *)
Definition juicerEntry : ProductHistoryItem.t :=
  ProductHistoryItem.mk "1700000000000" "Juicer" "Portable juicer"
    (Some ["data:image/png;base64,BASE"]) 1700000000000 true.

Definition fanEntry : ProductHistoryItem.t :=
  ProductHistoryItem.mk "1700000005000" "Fan" "Desk fan" (Some [])
    1700000005000 false.

Definition juicerFormWithLibrary : Input.t :=
  Input.mk "Juicer" "Portable juicer" "猎奇吸睛" false
    ["data:image/png;base64,BASE"] [fanEntry; juicerEntry]
    (Some [fanEntry; juicerEntry]).

(* ================================================================== *)
(** * The asset library: promotion and display *)
(* ================================================================== *)

(** The three handlers that promote to the library, with
    [onAddToLibrary] wired to [handleAddToLibrary] as in [App]. *)
Module StepIdeation.
Definition handleAdd (now1 now2 : N) (currentMode : AppMode)
    (product : ProductInfo.t) (concept : SceneConcept.t) (s : App.t) : App.t :=
  handleAddToLibrary now1 now2 concept_asset (ConceptContent concept)
    (Some (AssetMeta.mk (Some (SceneConcept.title concept)) None
             (Some currentMode) (Some (ProductInfo.name product))
             (Some (SceneConcept.title concept))))
    s.
End StepIdeation.

Module StepVisualizer.
Definition handleAddToLibrary (now1 now2 : N) (currentMode : AppMode)
    (concept : SceneConcept.t) (imgBase64 prompt : string) (s : App.t)
  : App.t :=
  handleAddToLibrary now1 now2 image_asset (StringContent imgBase64)
    (Some (AssetMeta.mk None (Some prompt) (Some currentMode)
             (Some (SceneConcept.productName concept))
             (Some (SceneConcept.title concept))))
    s.
End StepVisualizer.

Module StepProduction.
Definition handleAddToLibrary (now1 now2 : N) (concept : SceneConcept.t)
    (p : Production.t) (s : App.t) : App.t :=
  match Production.activeVideo p with
  | Some activeVideo =>
      handleAddToLibrary now1 now2 video_asset
        (StringContent (VideoHistoryItem.blobUrl activeVideo))
        (Some (AssetMeta.mk None (Some (Production.currentScript p))
                 (Some video) (Some (SceneConcept.productName concept))
                 (Some (SceneConcept.title concept))))
        s
  | None => s
  end.
End StepProduction.

(** [AppMode | 'all'] *)
Inductive FilterMode : Type :=
| all
| onlyMode (mode : AppMode).

Definition AssetType_eqb (a b : AssetType) : bool :=
  match a, b with
  | concept_asset, concept_asset
  | image_asset, image_asset
  | video_asset, video_asset => true
  | _, _ => false
  end.

(** [a.meta?.mode] *)
Definition metaMode (a : LibraryAsset.t) : option AppMode :=
  match LibraryAsset.meta a with
  | Some meta => AssetMeta.mode meta
  | None => None
  end.

Module AssetLibraryModal.
Definition filteredAssets (filterMode : FilterMode)
    (assets : list LibraryAsset.t) : list LibraryAsset.t :=
  filter (fun a =>
            match filterMode with
            | all => true
            | onlyMode mode => modeIs (metaMode a) mode
            end)
    assets.

Definition concepts (filterMode : FilterMode) (assets : list LibraryAsset.t)
  : list LibraryAsset.t :=
  filter (fun a => AssetType_eqb (LibraryAsset.type a) concept_asset)
    (filteredAssets filterMode assets).

Definition images (filterMode : FilterMode) (assets : list LibraryAsset.t)
  : list LibraryAsset.t :=
  filter (fun a => AssetType_eqb (LibraryAsset.type a) image_asset)
    (filteredAssets filterMode assets).

Definition videos (filterMode : FilterMode) (assets : list LibraryAsset.t)
  : list LibraryAsset.t :=
  filter (fun a => AssetType_eqb (LibraryAsset.type a) video_asset)
    (filteredAssets filterMode assets).
End AssetLibraryModal.

(** [filterMode] shows the assets of [mode]. *)
Definition shows (filterMode : FilterMode) (mode : AppMode) : bool :=
  match filterMode with
  | all => true
  | onlyMode m => AppMode_eqb mode m
  end.

(* ================================================================== *)
(** * Properties of the history store and of the views *)
(* ================================================================== *)

Lemma AppMode_eqb_eq (a b : AppMode) : AppMode_eqb a b = true <-> a = b.
Proof. destruct a, b; simpl; split; congruence. Qed.

Lemma modeIs_true (x : option AppMode) (m : AppMode) :
  modeIs x m = true <-> x = Some m.
Proof.
  destruct x as [a|]; simpl.
  - rewrite AppMode_eqb_eq. split; congruence.
  - split; discriminate.
Qed.

Section HistoryViews.

Variable historyImages : list ImageHistoryItem.t.
Variable concept : SceneConcept.t.

Lemma currentHistoryImages_spec (currentMode : AppMode) (a : ImageHistoryItem.t) :
  In a (currentHistoryImages historyImages concept currentMode) <->
  In a historyImages
  /\ ImageHistoryItem.conceptId a = SceneConcept.id concept
  /\ ImageHistoryItem.mode a = Some currentMode.
Proof.
  unfold currentHistoryImages.
  rewrite filter_In, andb_true_iff, String.eqb_eq, modeIs_true.
  reflexivity.
Qed.

(** The Production view is the Visualizer view taken in video mode. *)
Lemma relevantImages_video :
  relevantImages historyImages concept
  = currentHistoryImages historyImages concept video.
Proof. reflexivity. Qed.

End HistoryViews.

(** C3.  The strict filter of the Visualizer ([currentHistoryImages]) and
    of the Production view ([relevantImages], whose active mode is
    [video]) keeps an item of the image history exactly when its
    [conceptId] is the id of the active concept and its [mode] is the
    active mode: an item that matches the active pair is included, and
    no item with another concept id or another mode ever is. *)
Theorem strict_filter_exact :
  forall (historyImages : list ImageHistoryItem.t) (concept : SceneConcept.t)
         (currentMode : AppMode) (a : ImageHistoryItem.t),
    (In a (currentHistoryImages historyImages concept currentMode) <->
       In a historyImages
       /\ ImageHistoryItem.conceptId a = SceneConcept.id concept
       /\ ImageHistoryItem.mode a = Some currentMode)
    /\
    (In a (relevantImages historyImages concept) <->
       In a historyImages
       /\ ImageHistoryItem.conceptId a = SceneConcept.id concept
       /\ ImageHistoryItem.mode a = Some video).
Proof.
  intros historyImages concept currentMode a. split.
  - apply currentHistoryImages_spec.
  - rewrite relevantImages_video. apply currentHistoryImages_spec.
Qed.

Lemma extends_refl {A} (l : list A) : extends l l.
Proof. exists []. reflexivity. Qed.

Lemma extends_trans {A} (l3 l2 l1 : list A) :
  extends l3 l2 -> extends l2 l1 -> extends l3 l1.
Proof.
  intros [f2 ->] [f1 ->]. exists (f2 ++ f1). now rewrite app_assoc.
Qed.

Lemma extends_length {A} (new old : list A) :
  extends new old -> length old <= length new.
Proof. intros [front ->]. rewrite length_app. lia. Qed.

Lemma step_extends (s : App.t) (a : Action) :
  extends (App.historyConcepts (step s a)) (App.historyConcepts s)
  /\ extends (App.historyImages (step s a)) (App.historyImages s)
  /\ extends (App.historyVideos (step s a)) (App.historyVideos s).
Proof.
  destruct a; simpl; repeat split; try apply extends_refl.
  - exists concepts. reflexivity.
  - exists [img]. reflexivity.
  - exists [vid]. reflexivity.
Qed.

Lemma run_extends (actions : list Action) :
  forall s : App.t,
    extends (App.historyConcepts (run s actions)) (App.historyConcepts s)
    /\ extends (App.historyImages (run s actions)) (App.historyImages s)
    /\ extends (App.historyVideos (run s actions)) (App.historyVideos s).
Proof.
  induction actions as [|a actions IH]; intros s; simpl.
  - repeat split; apply extends_refl.
  - destruct (IH (step s a)) as (Hc & Hi & Hv).
    destruct (step_extends s a) as (Hc' & Hi' & Hv').
    repeat split; eapply extends_trans; eassumption.
Qed.

(** C6.  The three history collections are append-only with insertion at
    the front.  Each add operation prepends ([addHistoryConcept] puts the
    new concepts, [addHistoryImage] the new image, [addHistoryVideo] the
    new video in front of the previous entries), and after every sequence
    of actions of a session each collection is its earlier value with
    entries put in front of it: nothing is removed or replaced, and no
    size decreases. *)
Theorem history_append_only :
  forall (s : App.t) (actions : list Action),
    (forall concepts,
        App.historyConcepts (addHistoryConcept concepts s)
        = concepts ++ App.historyConcepts s)
    /\ (forall img,
        App.historyImages (addHistoryImage img s) = img :: App.historyImages s)
    /\ (forall vid,
        App.historyVideos (addHistoryVideo vid s) = vid :: App.historyVideos s)
    /\ (exists front,
        App.historyConcepts (run s actions) = front ++ App.historyConcepts s)
    /\ (exists front,
        App.historyImages (run s actions) = front ++ App.historyImages s)
    /\ (exists front,
        App.historyVideos (run s actions) = front ++ App.historyVideos s)
    /\ length (App.historyConcepts s) <= length (App.historyConcepts (run s actions))
    /\ length (App.historyImages s) <= length (App.historyImages (run s actions))
    /\ length (App.historyVideos s) <= length (App.historyVideos (run s actions)).
Proof.
  intros s actions.
  destruct (run_extends actions s) as (Hc & Hi & Hv).
  repeat split; try reflexivity; try assumption;
    apply extends_length; assumption.
Qed.

(** C7.  A mode change sets the selected concept and the active image to
    null and records the new mode; the product brief, the three history
    collections (hence their sizes) and the rest of the state are left
    as they were. *)
Theorem handleModeChange_frame :
  forall (mode : AppMode) (s : App.t),
    App.selectedConcept (handleModeChange mode s) = None
    /\ App.generatedImage (handleModeChange mode s) = None
    /\ App.appMode (handleModeChange mode s) = mode
    /\ App.product (handleModeChange mode s) = App.product s
    /\ App.historyConcepts (handleModeChange mode s) = App.historyConcepts s
    /\ App.historyImages (handleModeChange mode s) = App.historyImages s
    /\ App.historyVideos (handleModeChange mode s) = App.historyVideos s
    /\ length (App.historyConcepts (handleModeChange mode s))
       = length (App.historyConcepts s)
    /\ length (App.historyImages (handleModeChange mode s))
       = length (App.historyImages s)
    /\ length (App.historyVideos (handleModeChange mode s))
       = length (App.historyVideos s)
    /\ App.appConfig (handleModeChange mode s) = App.appConfig s
    /\ App.isSettingsOpen (handleModeChange mode s) = App.isSettingsOpen s
    /\ App.isLibraryOpen (handleModeChange mode s) = App.isLibraryOpen s
    /\ App.libraryAssets (handleModeChange mode s) = App.libraryAssets s.
Proof.
  intros mode s. repeat split.
Qed.

(** C10.  Appending an image to the history is not a pure append: besides
    putting the item in front of the image history, [addHistoryImage]
    makes its payload the active generated image, so after every append
    the active image is the payload of the newest entry of the history
    (and the state differs from the one a bare prepend would give
    whenever the active image was another one); the selected concept and
    the other two histories are unchanged. *)
Theorem addHistoryImage_sets_active :
  forall (img : ImageHistoryItem.t) (s : App.t),
    App.historyImages (addHistoryImage img s) = img :: App.historyImages s
    /\ App.generatedImage (addHistoryImage img s)
       = Some (ImageHistoryItem.base64 img)
    /\ App.generatedImage (addHistoryImage img s)
       = option_map ImageHistoryItem.base64
           (hd_error (App.historyImages (addHistoryImage img s)))
    /\ (App.generatedImage s <> Some (ImageHistoryItem.base64 img) ->
        addHistoryImage img s <> App.setHistoryImages (cons img) s)
    /\ App.selectedConcept (addHistoryImage img s) = App.selectedConcept s
    /\ App.historyConcepts (addHistoryImage img s) = App.historyConcepts s
    /\ App.historyVideos (addHistoryImage img s) = App.historyVideos s.
Proof.
  intros img s. repeat split.
  intros Hactive Hpure. apply Hactive.
  apply (f_equal App.generatedImage) in Hpure. simpl in Hpure.
  symmetry. exact Hpure.
Qed.

(** Within the groups displayed, two videos of video mode share a group
    exactly when their keys, the concatenations, are equal. *)
Lemma groupVids_spec (historyVideos : list VideoHistoryItem.t) (key : string)
    (v : VideoHistoryItem.t) :
  In v (groupVids historyVideos key) <->
  In v historyVideos /\ groupKey v = key /\ VideoHistoryItem.mode v = Some video.
Proof.
  unfold groupVids.
  rewrite filter_In, andb_true_iff, String.eqb_eq, modeIs_true.
  reflexivity.
Qed.

(** C4, at the failing input.  The display groups are keyed by the
    concatenation [productName + conceptTitle], with nothing between the
    two strings: the videos of ("Mini", "Fan Summer") and of
    ("MiniFan", " Summer") are two distinct pairs and are displayed as one
    group. *)
Theorem video_groups_merge_distinct_pairs :
  (VideoHistoryItem.productName miniVideo, VideoHistoryItem.conceptTitle miniVideo)
  <> (VideoHistoryItem.productName miniFanVideo,
      VideoHistoryItem.conceptTitle miniFanVideo)
  /\ videoGroups [miniVideo; miniFanVideo]
     = [("MiniFan Summer", [miniVideo; miniFanVideo])].
Proof.
  split.
  - discriminate.
  - reflexivity.
Qed.

(* ================================================================== *)
(** * Properties of the service functions *)
(* ================================================================== *)

Lemma generationCalls_log (c : Call) (w : World.t) :
  generationCalls (World.log c w)
  = generationCalls w + (if isGeneration c then 1 else 0).
Proof.
  unfold generationCalls. simpl. rewrite filter_app, length_app. simpl.
  destruct (isGeneration c); reflexivity.
Qed.

(** ** Storyboard decomposition, first part *)

(** The first part, by the way its text call settles. *)
Lemma parseShotsConfig_world storyboardScript mode w answer rest :
  World.shotAnswers w = answer :: rest ->
  parseShotsConfig storyboardScript mode w
  = (match answer with
     | Resolves (Parses (JsonArray (shot :: shots))) =>
         Returned (JsonArray (shot :: shots))
     | Resolves (Parses JsonNull) =>
         Thrown (TypeError "Cannot read properties of null (reading 'length')")
     | Resolves (Parses (JsonOther false)) => Returned (JsonOther false)
     | _ => Returned (JsonArray defaultShots)
     end,
     World.setShotAnswers rest
       (World.log
          (GenerateContent
             (orElse (Some (AppConfig.textKey (World.currentConfig w)))
                     (World.API_KEY w))
             (GenerateContentParameters.mk
                (AppConfig.textModel (World.currentConfig w))
                (PromptContents (ParsePrompt mode storyboardScript))
                (JsonConfig ShotArraySchema))) w)).
Proof.
  intros H. destruct w as [cfg env ca sa ia va pa cs]. simpl in H. subst sa.
  unfold parseShotsConfig. run_async.
  destruct answer as [[ | e | [[|s l] | | [|]]] | e]; reflexivity.
Qed.

Lemma parseShotsConfig_run storyboardScript mode w answer rest shotsConfig :
  World.shotAnswers w = answer :: rest ->
  shotsOfAnswer answer = Some shotsConfig ->
  parseShotsConfig storyboardScript mode w
  = (Returned (JsonArray shotsConfig),
     World.setShotAnswers rest
       (World.log
          (GenerateContent
             (orElse (Some (AppConfig.textKey (World.currentConfig w)))
                     (World.API_KEY w))
             (GenerateContentParameters.mk
                (AppConfig.textModel (World.currentConfig w))
                (PromptContents (ParsePrompt mode storyboardScript))
                (JsonConfig ShotArraySchema))) w)).
Proof.
  intros H Hshots. destruct w as [cfg env ca sa ia va pa cs]. simpl in H.
  subst sa. unfold parseShotsConfig. run_async.
  destruct answer as [[ | e | [[|s l] | | [|]]] | e]; simpl in Hshots;
    try discriminate; injection Hshots as <-; reflexivity.
Qed.

(** Once the first part has handed on an array, the function is its
    second part on that array. *)
Lemma generateStoryboardShots_second_part baseImage storyboardScript
    referenceProductImages mode aspectRatio w answer rest shotsConfig :
  World.shotAnswers w = answer :: rest ->
  shotsOfAnswer answer = Some shotsConfig ->
  generateStoryboardShots baseImage storyboardScript referenceProductImages
    mode aspectRatio w
  = renderShots baseImage referenceProductImages aspectRatio shotsConfig
      (World.setShotAnswers rest
         (World.log
            (GenerateContent
               (orElse (Some (AppConfig.textKey (World.currentConfig w)))
                       (World.API_KEY w))
               (GenerateContentParameters.mk
                  (AppConfig.textModel (World.currentConfig w))
                  (PromptContents (ParsePrompt mode storyboardScript))
                  (JsonConfig ShotArraySchema))) w)).
Proof.
  intros H Hshots. unfold generateStoryboardShots. unfold bind at 1.
  rewrite (parseShotsConfig_run storyboardScript mode w answer rest
             shotsConfig H Hshots).
  reflexivity.
Qed.

Lemma shotsOfAnswer_not_empty answer shotsConfig :
  shotsOfAnswer answer = Some shotsConfig -> shotsConfig <> [].
Proof.
  destruct answer as [[ | e | [[|s l] | | [|]]] | e]; simpl; intros H;
    try discriminate; injection H as <-; discriminate.
Qed.

(** C1, as stated, fails: when the text call returns a list of three
    descriptors, the first part hands these three descriptors on; the
    defaults are not used and the list has length 3, not 4. *)
Lemma parseShotsConfig_keeps_three_shots :
  fst (parseShotsConfig "three scenes" video worldWithThreeShots)
  = Returned (JsonArray threeShots)
  /\ length threeShots = 3
  /\ threeShots <> defaultShots.
Proof.
  split; [reflexivity | split; [reflexivity | discriminate]].
Qed.

(** C1, amended.  Whenever the text call settles, the first part of
    [generateStoryboardShots] has issued exactly one text request and
    does not stay pending, and what it makes of the answer is this.  It
    hands on the parsed array as it is, whatever its length, when the
    text parses to an array that is not empty.  It hands on the fixed
    default set of four shots when the call is rejected, has no text,
    has a text that does not parse, or has a text that parses to an
    empty array or to another value whose length is 0.  So an array it
    hands on is never empty.  When the text parses to [null], the test
    of the fallback throws a [TypeError]; when it parses to any other
    value that is not an array, that value is handed on and the second
    part throws a [TypeError] on it; in both cases
    [generateStoryboardShots] throws after the text request alone, with
    no edit request. *)
Theorem parseShotsConfig_parsed_or_default :
  forall (storyboardScript : string) (mode : AppMode) (w : World.t)
         (answer : Settled (ResponseText (Parsed ShotConfig.t)))
         (rest : list (Settled (ResponseText (Parsed ShotConfig.t))))
         (baseImage : string) (referenceProductImages : option (list string))
         (aspectRatio : string),
    World.shotAnswers w = answer :: rest ->
    generationCalls (snd (parseShotsConfig storyboardScript mode w))
    = S (generationCalls w)
    /\ fst (parseShotsConfig storyboardScript mode w) <> Pending
    /\ length defaultShots = 4
    /\ (forall parsed,
          answer = Resolves (Parses (JsonArray parsed)) -> parsed <> [] ->
          fst (parseShotsConfig storyboardScript mode w)
          = Returned (JsonArray parsed))
    /\ ((exists e, answer = Rejects e)
        \/ answer = Resolves Falsy
        \/ (exists e, answer = Resolves (Unparsable e))
        \/ answer = Resolves (Parses (JsonArray []))
        \/ answer = Resolves (Parses (JsonOther true)) ->
        fst (parseShotsConfig storyboardScript mode w)
        = Returned (JsonArray defaultShots))
    /\ (forall shotsConfig,
          fst (parseShotsConfig storyboardScript mode w)
          = Returned (JsonArray shotsConfig) ->
          length shotsConfig <> 0)
    /\ (answer = Resolves (Parses JsonNull) ->
        exists e,
          fst (parseShotsConfig storyboardScript mode w) = Thrown e
          /\ errName e = "TypeError")
    /\ (answer = Resolves (Parses (JsonOther false)) ->
        fst (parseShotsConfig storyboardScript mode w)
        = Returned (JsonOther false))
    /\ (answer = Resolves (Parses JsonNull)
        \/ answer = Resolves (Parses (JsonOther false)) ->
        exists e,
          fst (generateStoryboardShots baseImage storyboardScript
                 referenceProductImages mode aspectRatio w) = Thrown e
          /\ errName e = "TypeError"
          /\ generationCalls
               (snd (generateStoryboardShots baseImage storyboardScript
                       referenceProductImages mode aspectRatio w))
             = S (generationCalls w)).
Proof.
  intros storyboardScript mode w answer rest baseImage referenceProductImages
    aspectRatio H.
  pose proof (parseShotsConfig_world storyboardScript mode w answer rest H)
    as Hrun.
  match type of Hrun with
  | _ = (_, World.setShotAnswers rest (World.log ?c w)) =>
      set (call := c) in *;
      assert (Hcalls : generationCalls
                         (World.setShotAnswers rest (World.log call w))
                       = S (generationCalls w))
        by (change (generationCalls
                      (World.setShotAnswers rest (World.log call w)))
              with (generationCalls (World.log call w));
            rewrite generationCalls_log; unfold call; simpl; lia)
  end.
  rewrite Hrun. cbn [fst snd].
  split; [exact Hcalls|]. split.
  { destruct answer as [[ | e | [[|s l] | | [|]]] | e]; discriminate. }
  split; [reflexivity|]. split.
  { intros parsed -> Hne. destruct parsed; [contradiction | reflexivity]. }
  split.
  { intros [[e ->] | [-> | [[e ->] | [-> | ->]]]]; reflexivity. }
  split.
  { intros shotsConfig Hret Hlen. apply length_zero_iff_nil in Hlen. subst.
    destruct answer as [[ | e | [[|s l] | | [|]]] | e]; discriminate. }
  split.
  { intros ->. eexists. split; reflexivity. }
  split.
  { intros ->. reflexivity. }
  intros [-> | ->]; unfold generateStoryboardShots, bind; rewrite Hrun;
    unfold mapReceiver, throw; cbv beta iota; cbn [fst snd]; eexists;
    (split; [reflexivity|]); (split; [reflexivity | exact Hcalls]).
Qed.

(** The amended statement at the answer of three descriptors, at the
    text [null] and at the text of an object. *)
Lemma parseShotsConfig_parsed_or_default_witness :
  (fst (parseShotsConfig "three scenes" video worldWithThreeShots)
   = Returned (JsonArray threeShots)
   /\ generationCalls
        (snd (parseShotsConfig "three scenes" video worldWithThreeShots))
      = S (generationCalls worldWithThreeShots))
  /\ (exists e,
        fst (generateStoryboardShots "data:image/png;base64,BASE"
               "three scenes" None video "9:16" worldWithNullShots)
        = Thrown e
        /\ errName e = "TypeError"
        /\ generationCalls
             (snd (generateStoryboardShots "data:image/png;base64,BASE"
                     "three scenes" None video "9:16" worldWithNullShots))
           = S (generationCalls worldWithNullShots))
  /\ (exists e,
        fst (generateStoryboardShots "data:image/png;base64,BASE"
               "three scenes" None video "9:16" worldWithObjectShots)
        = Thrown e
        /\ errName e = "TypeError"
        /\ generationCalls
             (snd (generateStoryboardShots "data:image/png;base64,BASE"
                     "three scenes" None video "9:16" worldWithObjectShots))
           = S (generationCalls worldWithObjectShots)).
Proof.
  split; [|split].
  - destruct (parseShotsConfig_parsed_or_default "three scenes" video
                worldWithThreeShots (Resolves (Parses (JsonArray threeShots)))
                [] "data:image/png;base64,BASE" None "9:16" eq_refl)
      as (Hcalls & _ & _ & Hparsed & _).
    split; [|exact Hcalls].
    apply (Hparsed threeShots); [reflexivity | discriminate].
  - destruct (parseShotsConfig_parsed_or_default "three scenes" video
                worldWithNullShots (Resolves (Parses JsonNull))
                [] "data:image/png;base64,BASE" None "9:16" eq_refl)
      as (_ & _ & _ & _ & _ & _ & _ & _ & Hthrows).
    apply Hthrows. left. reflexivity.
  - destruct (parseShotsConfig_parsed_or_default "three scenes" video
                worldWithObjectShots (Resolves (Parses (JsonOther false)))
                [] "data:image/png;base64,BASE" None "9:16" eq_refl)
      as (_ & _ & _ & _ & _ & _ & _ & _ & Hthrows).
    apply Hthrows. right. reflexivity.
Defined.

(** ** Storyboard decomposition, second part *)

Lemma editSceneImage_run baseImage instruction referenceProductImage
    aspectRatio w answer rest :
  World.imageAnswers w = answer :: rest ->
  exists call,
    isGeneration call = true
    /\ editSceneImage baseImage instruction referenceProductImage aspectRatio w
       = (match answer with
          | Resolves response =>
              match firstInlineData (responseParts response) with
              | Some d =>
                  Returned ("data:image/png;base64," ++ interpolate d)%string
              | None => Thrown (Error "Image editing failed")
              end
          | Rejects e => Thrown e
          end,
          World.setImageAnswers rest (World.log call w)).
Proof.
  intros H. destruct w as [cfg env ca sa ia va pa cs]. simpl in H. subst ia.
  eexists. split; [|unfold editSceneImage; run_async].
  2:{ destruct answer as [response | e]; [|reflexivity].
      destruct (firstInlineData (responseParts response)); reflexivity. }
  reflexivity.
Qed.

Lemma renderShot_run baseImage referenceImage aspectRatio shot w answer rest :
  World.imageAnswers w = answer :: rest ->
  exists call,
    isGeneration call = true
    /\ renderShot baseImage referenceImage aspectRatio shot w
       = (Returned
            (option_map
               (fun base64 =>
                  StoryboardShot.mk (ShotConfig.label shot) base64
                    (ShotConfig.instruction shot))
               (editOutcome answer)),
          World.setImageAnswers rest (World.log call w)).
Proof.
  intros H.
  destruct (editSceneImage_run baseImage (ShotConfig.instruction shot)
              referenceImage aspectRatio w answer rest H)
    as (call & Hgen & Hrun).
  exists call. split; [assumption|].
  unfold renderShot, tryCatch, bind. rewrite Hrun.
  destruct answer as [response | e]; simpl; [|reflexivity].
  destruct (firstInlineData (responseParts response)); reflexivity.
Qed.

Lemma promiseAllMap_renderShot baseImage referenceImage aspectRatio :
  forall shotsConfig w answers rest,
    World.imageAnswers w = answers ++ rest ->
    length answers = length shotsConfig ->
    exists results w',
      promiseAllMap (renderShot baseImage referenceImage aspectRatio)
        shotsConfig w = (Returned results, w')
      /\ nonNull results = survivors shotsConfig answers
      /\ World.imageAnswers w' = rest
      /\ generationCalls w' = generationCalls w + length shotsConfig.
Proof.
  induction shotsConfig as [|shot shots IH]; intros w answers rest Hq Hlen.
  - destruct answers; [|discriminate]. simpl in Hq.
    exists [], w. simpl. repeat split; auto.
  - destruct answers as [|answer answers]; [discriminate|].
    simpl in Hq, Hlen. injection Hlen as Hlen.
    destruct (renderShot_run baseImage referenceImage aspectRatio shot w
                answer (answers ++ rest) Hq)
      as (call & Hgen & Hrun).
    destruct (IH (World.setImageAnswers (answers ++ rest) (World.log call w))
                answers rest eq_refl Hlen)
      as (results & w' & Hall & Hnn & Hrest & Hcalls).
    eexists. exists w'. split.
    + cbn [promiseAllMap]. rewrite Hrun. cbv beta iota.
      rewrite Hall. reflexivity.
    + repeat split; [|assumption|].
      * simpl. destruct (editOutcome answer); simpl; rewrite Hnn; reflexivity.
      * rewrite Hcalls.
        change (generationCalls (World.setImageAnswers (answers ++ rest)
                                   (World.log call w)))
          with (generationCalls (World.log call w)).
        rewrite generationCalls_log, Hgen. simpl. lia.
Qed.

Lemma renderShots_run baseImage referenceProductImages aspectRatio :
  forall shotsConfig w answers rest,
    World.imageAnswers w = answers ++ rest ->
    length answers = length shotsConfig ->
    exists w',
      renderShots baseImage referenceProductImages aspectRatio shotsConfig w
      = (Returned (survivors shotsConfig answers), w')
      /\ World.imageAnswers w' = rest
      /\ generationCalls w' = generationCalls w + length shotsConfig.
Proof.
  intros shotsConfig w answers rest Hq Hlen.
  unfold renderShots, bind. cbv zeta.
  match goal with
  | |- context [promiseAllMap (renderShot ?b ?r ?a) _ _] =>
      destruct (promiseAllMap_renderShot b r a shotsConfig w answers rest
                  Hq Hlen)
        as (results & w' & Hall & Hnn & Hrest & Hcalls)
  end.
  exists w'. rewrite Hall. unfold ret. rewrite Hnn. auto.
Qed.









(** ** Concept generation *)

Lemma generateConcepts_run name description direction productImages mode w :
  exists call,
    isGeneration call = true
    /\ generateConcepts name description direction productImages mode w
       = match World.conceptAnswers w with
         | [] => (Pending, World.log call w)
         | answer :: rest =>
             (conceptsOutcome answer,
              World.setConceptAnswers rest (World.log call w))
         end.
Proof.
  destruct w as [cfg env ca sa ia va pa cs].
  eexists. split; [|unfold generateConcepts; run_async].
  2:{ destruct ca as [|[[ | e | concepts] | e] rest]; reflexivity. }
  reflexivity.
Qed.

Lemma generateConcepts_one_call name description direction productImages mode w :
  generationCalls
    (snd (generateConcepts name description direction productImages mode w))
  = S (generationCalls w).
Proof.
  destruct (generateConcepts_run name description direction productImages
              mode w) as (call & Hgen & ->).
  destruct (World.conceptAnswers w); simpl;
    [|change (generationCalls (World.setConceptAnswers l (World.log call w)))
        with (generationCalls (World.log call w))];
    rewrite generationCalls_log, Hgen; lia.
Qed.

Lemma mapIndexFrom_length {A B} (f : A -> nat -> B) (xs : list A) :
  forall i, length (mapIndexFrom i f xs) = length xs.
Proof.
  induction xs as [|x xs IH]; intros i; simpl; [reflexivity|].
  now rewrite IH.
Qed.

Lemma mapIndexFrom_nth {A B} (f : A -> nat -> B) (xs : list A) :
  forall i k x,
    nth_error xs k = Some x ->
    nth_error (mapIndexFrom i f xs) k = Some (f x (i + k)).
Proof.
  induction xs as [|y xs IH]; intros i k x Hk.
  - destruct k; discriminate.
  - destruct k as [|k]; simpl in *.
    + injection Hk as ->. now rewrite Nat.add_0_r.
    + rewrite (IH (S i) k x Hk). f_equal. f_equal. lia.
Qed.

(** C5, as stated, fails: the run below succeeds, for a brief with a name
    and a description, and puts two concepts in the history, not three. *)
Lemma handleGenerate_two_concepts :
  exists (s' : App.t),
    fst (handleGenerate (fun k => 1700000000000%N) juicerBrief video
           App.initial worldWithTwoConcepts)
    = Returned (Ideation.mk false NoError, s')
    /\ length (App.historyConcepts s') = 2.
Proof.
  eexists. split; reflexivity.
Qed.

(** C5, amended.  When the provider answers the concept request with a
    JSON array, the run succeeds and produces as many concepts as the array
    holds (three are asked for in the prompt; the count is not checked).
    Every concept of the result, in the order of the array, is stamped by
    [handleGenerate] with a synthetic id (the time read and the index),
    the name of the brief as [productName], the direction of the brief as
    [creativeDirection], the current mode and a creation time, and keeps
    the generated texts; the stamped concepts are then put in front of
    the concept history. *)
Theorem handleGenerate_stamps_every_concept :
  forall (DateNow : nat -> N) (product : ProductInfo.t) (currentMode : AppMode)
         (s : App.t) (w : World.t) (results : list RawConcept.t)
         (rest : list (Settled (ResponseText (list RawConcept.t)))),
    World.conceptAnswers w = Resolves (Parses results) :: rest ->
    exists (w' : World.t),
      handleGenerate DateNow product currentMode s w
      = (Returned
           (Ideation.mk false NoError,
            addHistoryConcept (withMeta DateNow product currentMode results) s),
         w')
      /\ App.historyConcepts
           (addHistoryConcept (withMeta DateNow product currentMode results) s)
         = withMeta DateNow product currentMode results ++ App.historyConcepts s
      /\ length (withMeta DateNow product currentMode results) = length results
      /\ (forall (i : nat) (raw : RawConcept.t),
            nth_error results i = Some raw ->
            exists c : SceneConcept.t,
              nth_error (withMeta DateNow product currentMode results) i = Some c
              /\ SceneConcept.id c
                 = (N_toString (DateNow (2 * i)) ++ "-"
                      ++ N_toString (N.of_nat i))%string
              /\ SceneConcept.productName c = ProductInfo.name product
              /\ SceneConcept.creativeDirection c
                 = ProductInfo.creativeDirection product
              /\ SceneConcept.mode c = Some currentMode
              /\ SceneConcept.createdAt c = DateNow (2 * i + 1)
              /\ SceneConcept.title c = RawConcept.title raw
              /\ SceneConcept.description c = RawConcept.description raw
              /\ SceneConcept.script c = RawConcept.script raw
              /\ SceneConcept.storyboard c = RawConcept.storyboard raw
              /\ SceneConcept.visualPrompt c = RawConcept.visualPrompt raw)
      /\ generationCalls w' = S (generationCalls w).
Proof.
  intros DateNow product currentMode s w results rest Hq.
  pose proof (generateConcepts_one_call (ProductInfo.name product)
                (ProductInfo.description product)
                (ProductInfo.creativeDirection product)
                (ProductInfo.userImages product) currentMode w) as Hone.
  destruct (generateConcepts_run (ProductInfo.name product)
              (ProductInfo.description product)
              (ProductInfo.creativeDirection product)
              (ProductInfo.userImages product) currentMode w)
    as (call & Hgen & Hrun).
  rewrite Hq in Hrun. simpl in Hrun. rewrite Hrun in Hone. simpl in Hone.
  eexists. split.
  - unfold handleGenerate, tryCatch, bind. rewrite Hrun. reflexivity.
  - split; [reflexivity|]. split; [apply mapIndexFrom_length|].
    split; [|exact Hone].
    intros i raw Hi. eexists. split.
    + unfold withMeta. apply (mapIndexFrom_nth _ _ 0 i raw Hi).
    + simpl. repeat split.
Qed.

(** The amended statement at the answer of two concepts. *)
Lemma handleGenerate_stamps_every_concept_witness :
  exists (w' : World.t),
    handleGenerate (fun k => 1700000000000%N) juicerBrief video App.initial
      worldWithTwoConcepts
    = (Returned
         (Ideation.mk false NoError,
          addHistoryConcept
            (withMeta (fun k => 1700000000000%N) juicerBrief video twoConcepts)
            App.initial),
       w')
    /\ length (withMeta (fun k => 1700000000000%N) juicerBrief video twoConcepts)
       = length twoConcepts.
Proof.
  destruct (handleGenerate_stamps_every_concept
              (fun k => 1700000000000%N) juicerBrief video App.initial
              worldWithTwoConcepts twoConcepts [] eq_refl)
    as (w' & Hrun & _ & Hlen & _).
  exists w'. split; [exact Hrun | exact Hlen].
Defined.

(** ** Image generation and editing *)

Lemma generateSceneImage_run prompt referenceProductImages aspectRatio w :
  exists call,
    isGeneration call = true
    /\ generateSceneImage prompt referenceProductImages aspectRatio w
       = match World.imageAnswers w with
         | [] => (Pending, World.log call w)
         | answer :: rest =>
             (match answer with
              | Resolves response =>
                  match firstInlineData (responseParts response) with
                  | Some d =>
                      Returned
                        ("data:image/png;base64," ++ interpolate d)%string
                  | None => Thrown (Error "No image generated")
                  end
              | Rejects e => Thrown e
              end,
              World.setImageAnswers rest (World.log call w))
         end.
Proof.
  destruct w as [cfg env ca sa ia va pa cs].
  eexists. split; [|unfold generateSceneImage; run_async].
  2:{ destruct ia as [|[response | e] rest]; try reflexivity.
      destruct (firstInlineData (responseParts response)); reflexivity. }
  reflexivity.
Qed.

Lemma editSceneImage_pending baseImage instruction referenceProductImage
    aspectRatio w :
  World.imageAnswers w = [] ->
  exists call,
    isGeneration call = true
    /\ editSceneImage baseImage instruction referenceProductImage aspectRatio w
       = (Pending, World.log call w).
Proof.
  intros H. destruct w as [cfg env ca sa ia va pa cs]. simpl in H. subst ia.
  eexists. split; [|unfold editSceneImage; run_async; reflexivity].
  reflexivity.
Qed.

Lemma generateSceneImage_one_call prompt referenceProductImages aspectRatio w :
  generationCalls
    (snd (generateSceneImage prompt referenceProductImages aspectRatio w))
  = S (generationCalls w).
Proof.
  destruct (generateSceneImage_run prompt referenceProductImages aspectRatio w)
    as (call & Hgen & ->).
  destruct (World.imageAnswers w); simpl;
    [|change (generationCalls (World.setImageAnswers l (World.log call w)))
        with (generationCalls (World.log call w))];
    rewrite generationCalls_log, Hgen; lia.
Qed.

Lemma editSceneImage_one_call baseImage instruction referenceProductImage
    aspectRatio w :
  generationCalls
    (snd (editSceneImage baseImage instruction referenceProductImage
            aspectRatio w))
  = S (generationCalls w).
Proof.
  destruct (World.imageAnswers w) as [|answer rest] eqn:Hq.
  - destruct (editSceneImage_pending baseImage instruction
                referenceProductImage aspectRatio w Hq) as (call & Hgen & ->).
    simpl. rewrite generationCalls_log, Hgen. lia.
  - destruct (editSceneImage_run baseImage instruction referenceProductImage
                aspectRatio w answer rest Hq) as (call & Hgen & ->).
    simpl.
    change (generationCalls (World.setImageAnswers rest (World.log call w)))
      with (generationCalls (World.log call w)).
    rewrite generationCalls_log, Hgen. lia.
Qed.

(** ** Video synthesis *)

Lemma pollUntilDone_final key :
  forall polls operation w,
    World.pollAnswers w = polls ->
    fst (pollUntilDone (length polls) key operation w)
    = outcomeOfFinal (finalOperation operation polls).
Proof.
  induction polls as [|answer polls IH]; intros operation w Hq;
    destruct w as [cfg env ca sa ia va pa cs]; simpl in Hq; subst pa; simpl;
    destruct (Operation.done operation); try reflexivity.
  run_async. destruct answer as [operation' | e]; [|reflexivity].
  apply IH. reflexivity.
Qed.

Lemma pollUntilDone_calls key :
  forall fuel operation w,
    exists extra,
      World.calls (snd (pollUntilDone fuel key operation w))
      = World.calls w ++ extra
      /\ filter isGeneration extra = [].
Proof.
  induction fuel as [|fuel IH]; intros operation w;
    destruct w as [cfg env ca sa ia va pa cs]; simpl;
    destruct (Operation.done operation);
    try (exists []; simpl; rewrite app_nil_r; split; reflexivity);
    run_async.
  - exists [SetTimeout 8000; GetVideosOperation key operation].
    destruct pa as [|[operation' | e] pa]; simpl;
      rewrite <- app_assoc; split; reflexivity.
  - destruct pa as [|[operation' | e] pa]; simpl.
    + exists [SetTimeout 8000; GetVideosOperation key operation].
      rewrite <- app_assoc. split; reflexivity.
    + match goal with
      | |- context [pollUntilDone fuel key operation' ?w1] =>
          destruct (IH operation' w1) as (extra & Hcalls & Hpolls)
      end.
      exists ([SetTimeout 8000; GetVideosOperation key operation] ++ extra).
      rewrite Hcalls. simpl. rewrite <- !app_assoc. split; [reflexivity|].
      simpl. exact Hpolls.
    + exists [SetTimeout 8000; GetVideosOperation key operation].
      rewrite <- app_assoc. split; reflexivity.
Qed.

Lemma generateStoryVideo_calls script referenceImages w :
  exists key extra,
    World.calls (snd (generateStoryVideo script referenceImages w))
    = World.calls w
        ++ GenerateVideos key (videoRequest script referenceImages) :: extra
    /\ filter isGeneration extra = [].
Proof.
  destruct w as [cfg env ca sa ia va pa cs].
  exists (orElse (Some (AppConfig.videoKey cfg)) env).
  unfold generateStoryVideo. run_async.
  destruct va as [|[submitted | e] va]; simpl;
    try (exists []; split; reflexivity).
  match goal with
  | |- context [pollUntilDone ?fuel ?key submitted ?w1] =>
      destruct (pollUntilDone_calls key fuel submitted w1)
        as (extra & Hcalls & Hpolls);
      destruct (pollUntilDone fuel key submitted w1) as [o w2]
  end.
  simpl in Hcalls. exists extra. split; [|exact Hpolls].
  rewrite <- app_assoc in Hcalls. simpl in Hcalls.
  destruct o as [operation | e |]; try exact Hcalls.
  destruct (negb (truthy (firstVideoUri operation))); exact Hcalls.
Qed.

Lemma generateStoryVideo_one_call script referenceImages w :
  generationCalls (snd (generateStoryVideo script referenceImages w))
  = S (generationCalls w).
Proof.
  destruct (generateStoryVideo_calls script referenceImages w)
    as (key & extra & Hcalls & Hpolls).
  unfold generationCalls. rewrite Hcalls, filter_app, length_app. simpl.
  rewrite Hpolls. simpl. lia.
Qed.

Lemma generateStoryVideo_run script referenceImages w submitted rest :
  World.videoAnswers w = Resolves submitted :: rest ->
  fst (generateStoryVideo script referenceImages w)
  = match outcomeOfFinal (finalOperation submitted (World.pollAnswers w)) with
    | Returned operation =>
        if negb (truthy (firstVideoUri operation))
        then Thrown (Error "Video generation failed")
        else Returned (interpolate (firstVideoUri operation))
    | Thrown e => Thrown e
    | Pending => Pending
    end.
Proof.
  intros Hq. destruct w as [cfg env ca sa ia va pa cs]. simpl in Hq. subst va.
  unfold generateStoryVideo. run_async.
  match goal with
  | |- context [pollUntilDone (length pa) ?key submitted ?w1] =>
      pose proof (pollUntilDone_final key pa submitted w1 eq_refl) as Hfinal;
      destruct (pollUntilDone (length pa) key submitted w1) as [o w2]
  end.
  simpl in Hfinal. rewrite <- Hfinal.
  destruct o as [operation | e |]; try reflexivity.
  destruct (negb (truthy (firstVideoUri operation))); reflexivity.
Qed.

Lemma videoRequest_referenceImages script referenceImages :
  GenerateVideosParameters.referenceImages (videoRequest script referenceImages)
  = if isEmpty referenceImages then None
    else Some (map (fun img => ReferenceImage.mk (stripDataUrl img) "image/png")
                 (firstn 3 referenceImages)).
Proof.
  destruct referenceImages as [|a [|b [|c l]]]; reflexivity.
Qed.

(** C8.  Whatever the script and the reference images, [generateStoryVideo]
    issues its request to the provider with at most three reference
    images: the payload of the request is made of the first three images
    of the list (of all of them when there are fewer, and no payload at
    all when there is none), so a list of four images is submitted as
    three.  This request is the only generation request of the run. *)
Theorem generateStoryVideo_sends_at_most_three :
  forall (script : string) (referenceImages : list string) (w : World.t),
    (exists (key : option string) (extra : list Call),
        World.calls (snd (generateStoryVideo script referenceImages w))
        = World.calls w
            ++ GenerateVideos key (videoRequest script referenceImages) :: extra
        /\ filter isGeneration extra = [])
    /\ GenerateVideosParameters.referenceImages
         (videoRequest script referenceImages)
       = (if isEmpty referenceImages then None
          else Some (map (fun img =>
                            ReferenceImage.mk (stripDataUrl img) "image/png")
                       (firstn 3 referenceImages)))
    /\ (forall payload,
          GenerateVideosParameters.referenceImages
            (videoRequest script referenceImages) = Some payload ->
          length payload = Nat.min 3 (length referenceImages)
          /\ length payload <= 3)
    /\ (length referenceImages = 4 ->
        exists payload,
          GenerateVideosParameters.referenceImages
            (videoRequest script referenceImages) = Some payload
          /\ length payload = 3).
Proof.
  intros script referenceImages w.
  split; [apply generateStoryVideo_calls|].
  split; [apply videoRequest_referenceImages|].
  rewrite videoRequest_referenceImages. split.
  - intros payload Hp. destruct (isEmpty referenceImages); [discriminate|].
    injection Hp as <-.
    rewrite length_map.
    pose proof (length_firstn 3 referenceImages) as Hlen.
    split; [exact Hlen | exact (firstn_le_length 3 referenceImages)].
  - intros Hfour.
    destruct referenceImages as [|a [|b [|c [|d [|e l]]]]]; try discriminate.
    eexists. split; reflexivity.
Qed.

Lemma firstInlineData_found (parts : list ResponsePart.t) (data : option string) :
  firstInlineData parts = Some data
  <-> exists earlier part later,
        parts = earlier ++ part :: later
        /\ Forall (fun p => ResponsePart.inlineData p = None) earlier
        /\ ResponsePart.inlineData part = Some data.
Proof.
  induction parts as [|p parts IH]; simpl.
  - split; [discriminate|].
    intros (earlier & part & later & H & _). destruct earlier; discriminate.
  - destruct (ResponsePart.inlineData p) as [d|] eqn:Ep.
    + split.
      * intros [= <-]. exists [], p, parts. repeat split; auto.
      * intros (earlier & part & later & H & Hall & Hpart).
        destruct earlier as [|q earlier]; simpl in H; injection H as <- _.
        -- congruence.
        -- inversion Hall; subst. congruence.
    + rewrite IH. split.
      * intros (earlier & part & later & -> & Hall & Hpart).
        exists (p :: earlier), part, later. repeat split; auto.
      * intros (earlier & part & later & H & Hall & Hpart).
        destruct earlier as [|q earlier]; simpl in H; injection H as <- ->.
        -- congruence.
        -- inversion Hall; subst. exists earlier, part, later. auto.
Qed.

Lemma firstInlineData_firstInlinePart response data :
  firstInlineData (responseParts response) = Some data
  <-> firstInlinePart response data.
Proof.
  rewrite firstInlineData_found. unfold firstInlinePart, responseParts. split.
  - intros (earlier & part & later & Hparts & Hall & Hpart).
    destruct (ImageResponse.candidates response) as [[|candidate others]|];
      try (destruct earlier; discriminate).
    destruct (Candidate.parts candidate) as [ps|] eqn:Eps;
      [|destruct earlier; discriminate].
    exists candidate, others, earlier, part, later. subst ps. auto.
  - intros (candidate & others & earlier & part & later & -> & -> & Hall
            & Hpart).
    exists earlier, part, later. auto.
Qed.

Lemma firstInlineData_none response :
  firstInlineData (responseParts response) = None
  <-> ~ (exists data, firstInlinePart response data).
Proof.
  split.
  - intros Hnone (data & Hpart).
    apply firstInlineData_firstInlinePart in Hpart. congruence.
  - intros Hno.
    destruct (firstInlineData (responseParts response)) as [data|] eqn:E;
      [|reflexivity].
    exfalso. apply Hno. exists data.
    apply firstInlineData_firstInlinePart. exact E.
Qed.

Lemma firstInlinePart_holdsImageData response data :
  firstInlinePart response (Some data) -> holdsImageData response.
Proof.
  intros (candidate & others & earlier & part & later & Hc & Hp & _ & Hpart).
  exists (candidate :: others), candidate, (earlier ++ part :: later), part,
    data.
  repeat split; auto.
  - left. reflexivity.
  - apply in_elt.
Qed.

Lemma firstVideoUri_firstVideoHasUri operation uri :
  (firstVideoUri operation = Some uri /\ uri <> "")
  <-> firstVideoHasUri operation uri.
Proof.
  unfold firstVideoUri, firstVideoHasUri. split.
  - intros (Huri & Hne).
    destruct (Operation.response operation) as [[|first others]|];
      try discriminate.
    exists first, others. auto.
  - intros (first & others & -> & Huri & Hne). auto.
Qed.

Lemma firstVideoUri_truthy operation :
  truthy (firstVideoUri operation) = true
  <-> exists uri, firstVideoHasUri operation uri.
Proof.
  split.
  - intros Htruthy.
    destruct (firstVideoUri operation) as [uri|] eqn:E; [|discriminate].
    exists uri. apply firstVideoUri_firstVideoHasUri.
    split; [exact E|]. intros ->. discriminate.
  - intros (uri & Huri). apply firstVideoUri_firstVideoHasUri in Huri.
    destruct Huri as (-> & Hne). destruct uri; [contradiction | reflexivity].
Qed.

(** C9, as stated, fails.  An image answer whose only part has
    [inlineData] without [data] holds no image data, and
    [generateSceneImage] and [editSceneImage] do not throw on it: they
    return a data url that ends in the text of [undefined].  And
    [generateStoryVideo] throws on a completed operation that does hold
    a video uri, on its second generated video. *)
Lemma generateSceneImage_returns_without_image_data :
  fst (generateSceneImage "soft morning light" None "9:16"
         worldWithBlobWithoutData)
  = Returned "data:image/png;base64,undefined"
  /\ fst (editSceneImage "data:image/png;base64,BASE" "add neon lighting"
            None "9:16" worldWithBlobWithoutData)
     = Returned "data:image/png;base64,undefined"
  /\ ~ holdsImageData blobWithoutData
  /\ fst (generateStoryVideo "A juicer at dawn." ["img-1"]
            worldWithSecondVideoOnly)
     = Thrown (Error "Video generation failed")
  /\ holdsVideoUri secondVideoOnly.
Proof.
  split; [vm_compute; reflexivity|]. split; [vm_compute; reflexivity|].
  split; [|split; [vm_compute; reflexivity|]].
  - intros (candidates & candidate & parts & part & data & Hc & Hin & Hp
            & Hpart & Hdata).
    injection Hc as <-. destruct Hin as [<- | []].
    injection Hp as <-. destruct Hpart as [<- | []]. discriminate.
  - exists [GeneratedVideo.mk None;
            GeneratedVideo.mk (Some "https://video/2?alt=media")],
      (GeneratedVideo.mk (Some "https://video/2?alt=media")),
      "https://video/2?alt=media".
    repeat split; [right; left; reflexivity | discriminate].
Qed.

(** C9, amended.  Each generation operation issues exactly one
    generation request, whatever the outcome (there is no retry).  When
    the provider call returns: [generateConcepts] throws "No concepts
    generated" when the response has no text, and throws exactly when
    the text is missing or does not parse; [generateSceneImage] and
    [editSceneImage] throw ("No image generated", "Image editing
    failed") exactly when no part of the first candidate has
    [inlineData], and otherwise return the data url made of the data of
    the first such part, so that on a response without any image data
    they throw or return the url that ends in the text of [undefined];
    [generateStoryVideo] throws "Video generation failed" exactly when
    the first generated video of the completed operation has no uri
    that is not empty, hence whenever the operation holds no video uri,
    and otherwise returns that uri. *)
Theorem empty_result_is_fatal_and_not_retried :
  (forall name description direction productImages mode w,
      generationCalls
        (snd (generateConcepts name description direction productImages mode w))
      = S (generationCalls w)
      /\ forall text rest,
          World.conceptAnswers w = Resolves text :: rest ->
          (text = Falsy ->
           fst (generateConcepts name description direction productImages mode w)
           = Thrown (Error "No concepts generated"))
          /\ ((exists e,
                 fst (generateConcepts name description direction productImages
                        mode w) = Thrown e)
              <-> (forall concepts, text <> Parses concepts))
          /\ (forall concepts, text = Parses concepts ->
              fst (generateConcepts name description direction productImages
                     mode w) = Returned concepts))
  /\
  (forall prompt referenceProductImages aspectRatio w,
      generationCalls
        (snd (generateSceneImage prompt referenceProductImages aspectRatio w))
      = S (generationCalls w)
      /\ forall response rest,
          World.imageAnswers w = Resolves response :: rest ->
          ((exists e,
               fst (generateSceneImage prompt referenceProductImages
                      aspectRatio w) = Thrown e)
           <-> ~ (exists data, firstInlinePart response data))
          /\ (~ (exists data, firstInlinePart response data) ->
              fst (generateSceneImage prompt referenceProductImages
                     aspectRatio w) = Thrown (Error "No image generated"))
          /\ (forall data, firstInlinePart response data ->
              fst (generateSceneImage prompt referenceProductImages
                     aspectRatio w)
              = Returned ("data:image/png;base64," ++ interpolate data)%string)
          /\ (~ holdsImageData response ->
              fst (generateSceneImage prompt referenceProductImages
                     aspectRatio w) = Thrown (Error "No image generated")
              \/ fst (generateSceneImage prompt referenceProductImages
                        aspectRatio w)
                 = Returned "data:image/png;base64,undefined"))
  /\
  (forall baseImage instruction referenceProductImage aspectRatio w,
      generationCalls
        (snd (editSceneImage baseImage instruction referenceProductImage
                aspectRatio w))
      = S (generationCalls w)
      /\ forall response rest,
          World.imageAnswers w = Resolves response :: rest ->
          ((exists e,
               fst (editSceneImage baseImage instruction referenceProductImage
                      aspectRatio w) = Thrown e)
           <-> ~ (exists data, firstInlinePart response data))
          /\ (~ (exists data, firstInlinePart response data) ->
              fst (editSceneImage baseImage instruction referenceProductImage
                     aspectRatio w) = Thrown (Error "Image editing failed"))
          /\ (forall data, firstInlinePart response data ->
              fst (editSceneImage baseImage instruction referenceProductImage
                     aspectRatio w)
              = Returned ("data:image/png;base64," ++ interpolate data)%string)
          /\ (~ holdsImageData response ->
              fst (editSceneImage baseImage instruction referenceProductImage
                     aspectRatio w) = Thrown (Error "Image editing failed")
              \/ fst (editSceneImage baseImage instruction
                        referenceProductImage aspectRatio w)
                 = Returned "data:image/png;base64,undefined"))
  /\
  (forall script referenceImages w,
      generationCalls (snd (generateStoryVideo script referenceImages w))
      = S (generationCalls w)
      /\ forall submitted rest operation,
          World.videoAnswers w = Resolves submitted :: rest ->
          finalOperation submitted (World.pollAnswers w)
          = Some (Resolves operation) ->
          ((exists e,
               fst (generateStoryVideo script referenceImages w) = Thrown e)
           <-> ~ (exists uri, firstVideoHasUri operation uri))
          /\ (~ (exists uri, firstVideoHasUri operation uri) ->
              fst (generateStoryVideo script referenceImages w)
              = Thrown (Error "Video generation failed"))
          /\ (forall uri, firstVideoHasUri operation uri ->
              fst (generateStoryVideo script referenceImages w)
              = Returned uri)
          /\ (~ holdsVideoUri operation ->
              fst (generateStoryVideo script referenceImages w)
              = Thrown (Error "Video generation failed"))).
Proof.
  split; [|split; [|split]].
  - intros name description direction productImages mode w.
    split; [apply generateConcepts_one_call|].
    intros text rest Hq.
    destruct (generateConcepts_run name description direction productImages
                mode w) as (call & _ & ->).
    rewrite Hq. simpl. split; [intros ->; reflexivity|]. split.
    + split.
      * intros [e He] concepts ->. discriminate.
      * intros Hno. destruct text as [ | e | concepts]; simpl; eauto.
        exfalso. apply (Hno concepts eq_refl).
    + intros concepts ->. reflexivity.
  - intros prompt referenceProductImages aspectRatio w.
    split; [apply generateSceneImage_one_call|].
    intros response rest Hq.
    destruct (generateSceneImage_run prompt referenceProductImages
                aspectRatio w) as (call & _ & ->).
    rewrite Hq. cbn [fst].
    rewrite <- firstInlineData_none.
    destruct (firstInlineData (responseParts response)) as [d|] eqn:Efirst.
    + split; [split; [intros [e He]; discriminate | discriminate]|].
      split; [discriminate|]. split.
      * intros data Hpart. apply firstInlineData_firstInlinePart in Hpart.
        rewrite Efirst in Hpart. injection Hpart as ->. reflexivity.
      * intros Hno. right. destruct d as [data|]; [|reflexivity].
        exfalso. apply Hno.
        apply (firstInlinePart_holdsImageData response data).
        apply firstInlineData_firstInlinePart. exact Efirst.
    + split; [split; eauto|]. split; [reflexivity|]. split.
      * intros data Hpart. apply firstInlineData_firstInlinePart in Hpart.
        congruence.
      * intros _. left. reflexivity.
  - intros baseImage instruction referenceProductImage aspectRatio w.
    split; [apply editSceneImage_one_call|].
    intros response rest Hq.
    destruct (editSceneImage_run baseImage instruction referenceProductImage
                aspectRatio w (Resolves response) rest Hq) as (call & _ & ->).
    cbn [fst].
    rewrite <- firstInlineData_none.
    destruct (firstInlineData (responseParts response)) as [d|] eqn:Efirst.
    + split; [split; [intros [e He]; discriminate | discriminate]|].
      split; [discriminate|]. split.
      * intros data Hpart. apply firstInlineData_firstInlinePart in Hpart.
        rewrite Efirst in Hpart. injection Hpart as ->. reflexivity.
      * intros Hno. right. destruct d as [data|]; [|reflexivity].
        exfalso. apply Hno.
        apply (firstInlinePart_holdsImageData response data).
        apply firstInlineData_firstInlinePart. exact Efirst.
    + split; [split; eauto|]. split; [reflexivity|]. split.
      * intros data Hpart. apply firstInlineData_firstInlinePart in Hpart.
        congruence.
      * intros _. left. reflexivity.
  - intros script referenceImages w.
    split; [apply generateStoryVideo_one_call|].
    intros submitted rest operation Hq Hfinal.
    rewrite (generateStoryVideo_run script referenceImages w submitted rest Hq).
    rewrite Hfinal. cbn [fst outcomeOfFinal].
    pose proof (firstVideoUri_truthy operation) as Htruthy.
    destruct (truthy (firstVideoUri operation)) eqn:Euri; cbn [negb].
    + assert (Hsome : exists uri, firstVideoHasUri operation uri)
        by (apply Htruthy; reflexivity).
      split; [split; [intros [e He]; discriminate | intros Hno; contradiction]|].
      split; [intros Hno; contradiction|]. split.
      * intros uri Huri. apply firstVideoUri_firstVideoHasUri in Huri.
        destruct Huri as (-> & _). reflexivity.
      * intros Hno. exfalso. apply Hno. destruct Hsome as (uri & Huri).
        destruct Huri as (first & others & Hresponse & Huri & Hne).
        exists (first :: others), first, uri.
        repeat split; auto. left. reflexivity.
    + assert (Hnone : ~ (exists uri, firstVideoHasUri operation uri)).
      { intros Hsome. apply Htruthy in Hsome. discriminate. }
      split; [split; [intros _; exact Hnone | eauto]|].
      split; [reflexivity|]. split.
      * intros uri Huri. exfalso. apply Hnone. exists uri. exact Huri.
      * reflexivity.
Qed.

(** Four reference images are submitted as three. *)
Lemma generateStoryVideo_sends_at_most_three_witness :
  exists payload,
    GenerateVideosParameters.referenceImages
      (videoRequest "A juicer at dawn." ["img-1"; "img-2"; "img-3"; "img-4"])
    = Some payload
    /\ length payload = 3.
Proof.
  destruct (generateStoryVideo_sends_at_most_three "A juicer at dawn."
              ["img-1"; "img-2"; "img-3"; "img-4"] worldWithEmptyAnswers)
    as (_ & _ & _ & Hfour).
  apply Hfour. reflexivity.
Defined.

(** The four operations on answers without a usable payload, and on
    answers with one. *)
Lemma empty_result_is_fatal_and_not_retried_witness :
  (fst (generateConcepts "Compact Juicer" "A portable juicer." "emotional"
          None video worldWithEmptyAnswers)
   = Thrown (Error "No concepts generated")
   /\ fst (generateSceneImage "soft morning light" None "9:16"
             worldWithEmptyAnswers)
      = Thrown (Error "No image generated")
   /\ fst (editSceneImage "data:image/png;base64,BASE" "add neon lighting"
             None "9:16" worldWithEmptyAnswers)
      = Thrown (Error "Image editing failed")
   /\ fst (generateStoryVideo "A juicer at dawn." ["img-1"]
             worldWithEmptyAnswers)
      = Thrown (Error "Video generation failed"))
  /\ (fst (generateConcepts "Compact Juicer" "A portable juicer." "emotional"
             None video worldWithPayloads)
      = Returned twoConcepts
      /\ fst (generateSceneImage "soft morning light" None "9:16"
                worldWithPayloads)
         = Returned "data:image/png;base64,AAAA"
      /\ fst (editSceneImage "data:image/png;base64,BASE" "add neon lighting"
                None "9:16" worldWithPayloads)
         = Returned "data:image/png;base64,AAAA"
      /\ fst (generateStoryVideo "A juicer at dawn." ["img-1"]
                worldWithPayloads)
         = Returned "https://video/1?alt=media").
Proof.
  destruct empty_result_is_fatal_and_not_retried as (Hc & Hs & He & Hv).
  assert (Hnoparts :
            ~ (exists data, firstInlinePart (ImageResponse.mk None) data)).
  { intros (data & candidate & others & earlier & part & later & H & _).
    discriminate. }
  assert (Hpart : firstInlinePart textThenImage (Some "AAAA")).
  { exists (Candidate.mk
              (Some [ResponsePart.mk None (Some "Here is the image.");
                     ResponsePart.mk (Some (Some "AAAA")) None])),
      [], [ResponsePart.mk None (Some "Here is the image.")],
      (ResponsePart.mk (Some (Some "AAAA")) None), [].
    repeat split. repeat constructor. }
  split; (split; [|split; [|split]]).
  - destruct (Hc "Compact Juicer" "A portable juicer." "emotional" None video
                worldWithEmptyAnswers) as (_ & H).
    destruct (H Falsy [] eq_refl) as (Hthrow & _). apply Hthrow. reflexivity.
  - destruct (Hs "soft morning light" None "9:16" worldWithEmptyAnswers)
      as (_ & H).
    destruct (H (ImageResponse.mk None) [] eq_refl) as (_ & Hthrow & _).
    apply Hthrow. exact Hnoparts.
  - destruct (He "data:image/png;base64,BASE" "add neon lighting" None "9:16"
                worldWithEmptyAnswers) as (_ & H).
    destruct (H (ImageResponse.mk None) [] eq_refl) as (_ & Hthrow & _).
    apply Hthrow. exact Hnoparts.
  - destruct (Hv "A juicer at dawn." ["img-1"] worldWithEmptyAnswers)
      as (_ & H).
    destruct (H (Operation.mk false None) [] (Operation.mk true (Some []))
                eq_refl eq_refl) as (_ & Hthrow & _).
    apply Hthrow. intros (uri & first & others & Hresponse & _). discriminate.
  - destruct (Hc "Compact Juicer" "A portable juicer." "emotional" None video
                worldWithPayloads) as (_ & H).
    destruct (H (Parses twoConcepts) [] eq_refl) as (_ & _ & Hreturn).
    apply Hreturn. reflexivity.
  - destruct (Hs "soft morning light" None "9:16" worldWithPayloads)
      as (_ & H).
    destruct (H textThenImage [] eq_refl) as (_ & _ & Hreturn & _).
    apply (Hreturn (Some "AAAA")). exact Hpart.
  - destruct (He "data:image/png;base64,BASE" "add neon lighting" None "9:16"
                worldWithPayloads) as (_ & H).
    destruct (H textThenImage [] eq_refl) as (_ & _ & Hreturn & _).
    apply (Hreturn (Some "AAAA")). exact Hpart.
  - destruct (Hv "A juicer at dawn." ["img-1"] worldWithPayloads) as (_ & H).
    destruct (H (Operation.mk true
                   (Some [GeneratedVideo.mk
                            (Some "https://video/1?alt=media")]))
                []
                (Operation.mk true
                   (Some [GeneratedVideo.mk
                            (Some "https://video/1?alt=media")]))
                eq_refl eq_refl) as (_ & _ & Hreturn & _).
    apply Hreturn.
    exists (GeneratedVideo.mk (Some "https://video/1?alt=media")), [].
    repeat split. discriminate.
Defined.

(* ================================================================== *)
(** * Further properties of the service functions *)
(* ================================================================== *)

(** Brings a world built with the setters to its literal form. *)
Ltac world_norm :=
  unfold World.log, World.setConceptAnswers, World.setShotAnswers,
    World.setImageAnswers, World.setVideoAnswers, World.setPollAnswers,
    World.setConfig;
  cbn [World.currentConfig World.API_KEY World.conceptAnswers
       World.shotAnswers World.imageAnswers World.videoAnswers
       World.pollAnswers World.calls snd fst].

Lemma orElse_keyInUse (configured : string) (env : option string) :
  orElse (Some configured) env = keyInUse configured env.
Proof. destruct configured; reflexivity. Qed.

Lemma stripPrefix_app (p s : string) : stripPrefix p (p ++ s)%string = Some s.
Proof.
  induction p as [|a p IH]; simpl; [reflexivity|].
  rewrite Ascii.eqb_refl. exact IH.
Qed.

Lemma stripDataUrl_png (s : string) :
  stripDataUrl ("data:image/png;base64," ++ s)%string = s.
Proof.
  unfold stripDataUrl. rewrite stripPrefix_app. reflexivity.
Qed.


Lemma generateSceneImage_calls prompt referenceProductImages aspectRatio w :
  World.calls
    (snd (generateSceneImage prompt referenceProductImages aspectRatio w))
  = World.calls w
    ++ [GenerateContent
          (keyInUse (AppConfig.imageKey (World.currentConfig w)) (World.API_KEY w))
          (GenerateContentParameters.mk
             (AppConfig.imageModel (World.currentConfig w))
             (if nonEmptyImages referenceProductImages
              then PartsContents
                     (map inlinePng (imagesOf referenceProductImages)
                        ++ [TextPart (SceneWithReferencesPrompt prompt)])
              else PromptContents (PlainPrompt prompt))
             (ImageConfig aspectRatio
                (if includes (AppConfig.imageModel (World.currentConfig w)) "flash"
                 then None else Some "1K")))].
Proof.
  destruct w as [cfg env ca sa ia va pa cs].
  unfold generateSceneImage. run_async. rewrite orElse_keyInUse.
  destruct ia as [|[response | e] rest]; try reflexivity.
  destruct (firstInlineData (responseParts response)); reflexivity.
Qed.

Lemma editParts_source baseImage instruction referenceProductImage :
  [inlinePng baseImage]
    ++ (if truthy referenceProductImage
        then [inlinePng (interpolate referenceProductImage);
              TextPart IdentityDirective]
        else [])
    ++ [TextPart (EditInstruction instruction)]
  = editParts baseImage instruction referenceProductImage.
Proof.
  destruct referenceProductImage as [[|c r]|]; reflexivity.
Qed.

(** The world after [editSceneImage], and its outcome, in full. *)
Lemma editSceneImage_world baseImage instruction referenceProductImage
    aspectRatio cfg env ca sa ia va pa cs :
  editSceneImage baseImage instruction referenceProductImage aspectRatio
    (World.mk cfg env ca sa ia va pa cs)
  = (match ia with
     | [] => Pending
     | Resolves response :: _ =>
         match firstInlineData (responseParts response) with
         | Some d => Returned ("data:image/png;base64," ++ interpolate d)%string
         | None => Thrown (Error "Image editing failed")
         end
     | Rejects e :: _ => Thrown e
     end,
     World.mk cfg env ca sa (tl ia) va pa
       (cs ++ [editCallFor cfg env baseImage referenceProductImage aspectRatio
                 instruction])).
Proof.
  unfold editSceneImage, editCallFor. run_async.
  rewrite orElse_keyInUse.
  rewrite <- (editParts_source baseImage instruction referenceProductImage).
  destruct ia as [|[response | e] rest]; try reflexivity.
  destruct (firstInlineData (responseParts response)); reflexivity.
Qed.

Lemma renderShot_world baseImage referenceImage aspectRatio shot
    cfg env ca sa answer rest va pa cs :
  renderShot baseImage referenceImage aspectRatio shot
    (World.mk cfg env ca sa (answer :: rest) va pa cs)
  = (Returned
       (option_map
          (fun base64 =>
             StoryboardShot.mk (ShotConfig.label shot) base64
               (ShotConfig.instruction shot))
          (editOutcome answer)),
     World.mk cfg env ca sa rest va pa
       (cs ++ [editCallFor cfg env baseImage referenceImage aspectRatio
                 (ShotConfig.instruction shot)])).
Proof.
  unfold renderShot, tryCatch, bind. rewrite editSceneImage_world. simpl.
  destruct answer as [response | e]; simpl; [|reflexivity].
  destruct (firstInlineData (responseParts response)); reflexivity.
Qed.

Lemma promiseAllMap_renderShot_world baseImage referenceImage aspectRatio
    cfg env ca sa va pa :
  forall shotsConfig answers rest cs,
    length answers = length shotsConfig ->
    exists results,
      promiseAllMap (renderShot baseImage referenceImage aspectRatio)
        shotsConfig (World.mk cfg env ca sa (answers ++ rest) va pa cs)
      = (Returned results,
         World.mk cfg env ca sa rest va pa
           (cs ++ map (fun shot =>
                         editCallFor cfg env baseImage referenceImage
                           aspectRatio (ShotConfig.instruction shot))
                    shotsConfig)).
Proof.
  induction shotsConfig as [|shot shots IH]; intros answers rest cs Hlen.
  - destruct answers; [|discriminate]. simpl. rewrite app_nil_r.
    eexists. reflexivity.
  - destruct answers as [|answer answers]; [discriminate|].
    simpl in Hlen. injection Hlen as Hlen.
    destruct (IH answers rest
                (cs ++ [editCallFor cfg env baseImage referenceImage
                          aspectRatio (ShotConfig.instruction shot)]) Hlen)
      as (results & Hall).
    eexists. cbn [promiseAllMap app]. rewrite renderShot_world. cbv beta iota.
    rewrite Hall. cbn [map]. rewrite <- app_assoc. reflexivity.
Qed.



(** X2.  The video request does not depend on the configured video
    model: whatever the configuration saved, [generateStoryVideo] asks
    the model "veo-3.1-generate-preview" for one video in 720p and 16:9
    (the default configuration names another video model, which is
    never requested), and it is sent with the configured video key when
    that key is not empty, with the key of the environment otherwise. *)
Theorem video_request_ignores_configured_model :
  forall (config : AppConfig.t) (w : World.t) (script : string)
         (referenceImages : list string),
    exists (params : GenerateVideosParameters.t) (extra : list Call),
      World.calls
        (snd (generateStoryVideo script referenceImages
                (snd (updateServiceConfig config w))))
      = World.calls w
        ++ GenerateVideos
             (if String.eqb (AppConfig.videoKey config) ""
              then World.API_KEY w else Some (AppConfig.videoKey config))
             params
           :: extra
      /\ GenerateVideosParameters.model params = "veo-3.1-generate-preview"
      /\ GenerateVideosParameters.model params
         <> AppConfig.videoModel DEFAULT_CONFIG
      /\ GenerateVideosParameters.numberOfVideos params = 1
      /\ GenerateVideosParameters.resolution params = "720p"
      /\ GenerateVideosParameters.aspectRatio params = "16:9"
      /\ GenerateVideosParameters.prompt params = VideoPrompt script.
Proof.
  intros config w script referenceImages.
  exists (videoRequest script referenceImages).
  destruct w as [cfg env ca sa ia va pa cs].
  unfold updateServiceConfig, generateStoryVideo. run_async.
  rewrite orElse_keyInUse. unfold keyInUse.
  assert (Hparams :
            GenerateVideosParameters.model (videoRequest script referenceImages)
            = "veo-3.1-generate-preview"
            /\ GenerateVideosParameters.model (videoRequest script referenceImages)
               <> AppConfig.videoModel DEFAULT_CONFIG
            /\ GenerateVideosParameters.numberOfVideos
                 (videoRequest script referenceImages) = 1
            /\ GenerateVideosParameters.resolution
                 (videoRequest script referenceImages) = "720p"
            /\ GenerateVideosParameters.aspectRatio
                 (videoRequest script referenceImages) = "16:9"
            /\ GenerateVideosParameters.prompt
                 (videoRequest script referenceImages) = VideoPrompt script).
  { repeat split. discriminate. }
  destruct va as [|[submitted | e] va]; simpl;
    try (exists []; split; [reflexivity | exact Hparams]).
  match goal with
  | |- context [pollUntilDone ?fuel ?key submitted ?w1] =>
      destruct (pollUntilDone_calls key fuel submitted w1)
        as (extra & Hcalls & _);
      destruct (pollUntilDone fuel key submitted w1) as [o w2]
  end.
  simpl in Hcalls. rewrite <- app_assoc in Hcalls. simpl in Hcalls.
  exists extra. split; [|exact Hparams].
  destruct o as [operation | e |]; try exact Hcalls.
  destruct (negb (truthy (firstVideoUri operation))); exact Hcalls.
Qed.

(** X3.  A rejection of the provider call reaches the caller unchanged:
    when the call of [generateConcepts], [generateSceneImage] or
    [editSceneImage] is rejected with an error, or the text of the
    concept answer does not parse, the function throws that very error;
    [generateStoryVideo] throws the error of a rejected submission, and
    the error of a rejected poll when no operation was done before. *)
Theorem provider_errors_reach_the_caller :
  forall (e : JsError) (w : World.t),
    (forall name description direction productImages mode rest,
        World.conceptAnswers w = Rejects e :: rest
        \/ World.conceptAnswers w = Resolves (Unparsable e) :: rest ->
        fst (generateConcepts name description direction productImages mode w)
        = Thrown e)
    /\ (forall prompt referenceProductImages aspectRatio rest,
        World.imageAnswers w = Rejects e :: rest ->
        fst (generateSceneImage prompt referenceProductImages aspectRatio w)
        = Thrown e)
    /\ (forall baseImage instruction referenceProductImage aspectRatio rest,
        World.imageAnswers w = Rejects e :: rest ->
        fst (editSceneImage baseImage instruction referenceProductImage
               aspectRatio w)
        = Thrown e)
    /\ (forall script referenceImages rest,
        World.videoAnswers w = Rejects e :: rest ->
        fst (generateStoryVideo script referenceImages w) = Thrown e)
    /\ (forall script referenceImages submitted rest,
        World.videoAnswers w = Resolves submitted :: rest ->
        finalOperation submitted (World.pollAnswers w) = Some (Rejects e) ->
        fst (generateStoryVideo script referenceImages w) = Thrown e).
Proof.
  intros e w. repeat split.
  - intros name description direction productImages mode rest Hq.
    destruct (generateConcepts_run name description direction productImages
                mode w) as (call & _ & ->).
    destruct Hq as [-> | ->]; reflexivity.
  - intros prompt referenceProductImages aspectRatio rest Hq.
    destruct (generateSceneImage_run prompt referenceProductImages
                aspectRatio w) as (call & _ & ->).
    rewrite Hq. reflexivity.
  - intros baseImage instruction referenceProductImage aspectRatio rest Hq.
    destruct (editSceneImage_run baseImage instruction referenceProductImage
                aspectRatio w (Rejects e) rest Hq) as (call & _ & ->).
    reflexivity.
  - intros script referenceImages rest Hq.
    destruct w as [cfg env ca sa ia va pa cs]. simpl in Hq. subst va.
    reflexivity.
  - intros script referenceImages submitted rest Hq Hfinal.
    rewrite (generateStoryVideo_run script referenceImages w submitted rest Hq).
    rewrite Hfinal. reflexivity.
Qed.

(** A rejected concept call, a rejected image call, a submission that
    resolves and a poll that is rejected. *)
Lemma provider_errors_reach_the_caller_witness :
  fst (generateConcepts "Compact Juicer" "A portable juicer." "emotional"
         None video worldWithRejections)
  = Thrown (Error "403 PERMISSION_DENIED")
  /\ fst (generateStoryVideo "A juicer at dawn." ["img-1"] worldWithRejections)
     = Thrown (Error "403 PERMISSION_DENIED").
Proof.
  destruct (provider_errors_reach_the_caller
              (Error "403 PERMISSION_DENIED") worldWithRejections)
    as (Hc & _ & _ & _ & Hv).
  split.
  - apply (Hc _ _ _ _ _ []). left. reflexivity.
  - apply (Hv _ _ (Operation.mk false None) []); reflexivity.
Defined.

(** X4.  The data url returned by [generateSceneImage] goes back to the
    provider as the data the provider gave: when the answer holds image
    data [d], the function returns a url from which the request builder
    recovers exactly [d], and an edit of that url sends [d] as its first
    part, with the type "image/png". *)
Theorem generated_image_round_trips_into_edit :
  forall (prompt : string) (referenceProductImages : option (list string))
         (aspectRatio instruction : string)
         (referenceProductImage : option string) (w : World.t)
         (response : ImageResponse.t) (rest : list (Settled ImageResponse.t))
         (d : string),
    World.imageAnswers w = Resolves response :: rest ->
    firstInlineData (responseParts response) = Some (Some d) ->
    exists (url : string) (w1 : World.t),
      generateSceneImage prompt referenceProductImages aspectRatio w
      = (Returned url, w1)
      /\ stripDataUrl url = d
      /\ exists key model parts config,
          World.calls
            (snd (editSceneImage url instruction referenceProductImage
                    aspectRatio w1))
          = World.calls w1
            ++ [GenerateContent key
                  (GenerateContentParameters.mk model
                     (PartsContents (InlineDataPart "image/png" d :: parts))
                     config)].
Proof.
  intros prompt referenceProductImages aspectRatio instruction
    referenceProductImage w response rest d Hq Hd.
  destruct (generateSceneImage_run prompt referenceProductImages aspectRatio w)
    as (call & _ & Hrun).
  rewrite Hq, Hd in Hrun. cbv beta iota in Hrun.
  eexists. eexists. split; [exact Hrun|].
  split; [exact (stripDataUrl_png d)|].
  destruct w as [cfg env ca sa ia va pa cs].
  world_norm. rewrite editSceneImage_world. world_norm.
  unfold editCallFor, editParts.
  rewrite (stripDataUrl_png (interpolate (Some d))).
  do 4 eexists. reflexivity.
Qed.

Lemma generated_image_round_trips_into_edit_witness :
  exists (url : string) (w1 : World.t),
    generateSceneImage "soft morning light" None "9:16" worldWithOneImage
    = (Returned url, w1)
    /\ stripDataUrl url = "AAAA".
Proof.
  destruct (generated_image_round_trips_into_edit
              "soft morning light" None "9:16" "add neon lighting" None
              worldWithOneImage
              (ImageResponse.mk
                 (Some [Candidate.mk
                          (Some [ResponsePart.mk (Some (Some "AAAA")) None])]))
              [] "AAAA" eq_refl eq_refl)
    as (url & w1 & Hrun & Hstrip & _).
  exists url, w1. split; assumption.
Defined.

(** X5.  The requests of a storyboard run: when the first part hands on
    descriptors and the edit calls settle, [generateStoryboardShots]
    issues the parse request,
    then one edit request for each descriptor, in the order of the
    descriptors, and nothing else.  Every edit request carries the same
    base image, the same reference (the first product image, when there
    is one) and the same aspect ratio; only the instruction differs and
    is the one of the descriptor. *)
Theorem storyboard_requests_share_the_base_image :
  forall (baseImage storyboardScript : string)
         (referenceProductImages : option (list string)) (mode : AppMode)
         (aspectRatio : string) (w : World.t)
         (parsed : Settled (ResponseText (Parsed ShotConfig.t)))
         (laterShotAnswers : list (Settled (ResponseText (Parsed ShotConfig.t))))
         (shotsConfig : list ShotConfig.t)
         (answers laterImageAnswers : list (Settled ImageResponse.t)),
    World.shotAnswers w = parsed :: laterShotAnswers ->
    shotsOfAnswer parsed = Some shotsConfig ->
    World.imageAnswers w = answers ++ laterImageAnswers ->
    length answers = length shotsConfig ->
    World.calls
      (snd (generateStoryboardShots baseImage storyboardScript
              referenceProductImages mode aspectRatio w))
    = World.calls w
      ++ parseCallFor (World.currentConfig w) (World.API_KEY w)
           storyboardScript mode
         :: map (fun shot =>
                   editCallFor (World.currentConfig w) (World.API_KEY w)
                     baseImage
                     (match referenceProductImages with
                      | Some (first :: _) => Some first
                      | _ => None
                      end)
                     aspectRatio (ShotConfig.instruction shot))
              shotsConfig.
Proof.
  intros baseImage storyboardScript referenceProductImages mode aspectRatio w
    parsed laterShotAnswers shotsConfig answers laterImageAnswers
    Hshots Hparsed Himages Hlen.
  rewrite (generateStoryboardShots_second_part baseImage storyboardScript
             referenceProductImages mode aspectRatio w parsed
             laterShotAnswers shotsConfig Hshots Hparsed).
  destruct w as [cfg env ca sa ia va pa cs]. simpl in Himages. subst ia.
  unfold renderShots, bind. cbv zeta.
  match goal with
  | |- context [promiseAllMap (renderShot ?b ?r ?a) ?shots (World.setShotAnswers ?q (World.log ?c ?w0))] =>
      change (World.setShotAnswers q (World.log c w0))
        with (World.mk cfg env ca q (answers ++ laterImageAnswers) va pa
                (cs ++ [c]));
      destruct (promiseAllMap_renderShot_world b r a cfg env ca q va pa
                  shots answers laterImageAnswers (cs ++ [c]) Hlen)
        as (results & ->)
  end.
  simpl. rewrite <- app_assoc. simpl.
  rewrite orElse_keyInUse. unfold parseCallFor.
  destruct referenceProductImages as [[|first l]|]; reflexivity.
Qed.

Lemma storyboard_requests_share_the_base_image_witness :
  World.calls
    (snd (generateStoryboardShots "data:image/png;base64,BASE" "four scenes"
            None video "9:16" worldWithSecondEditFailing))
  = parseCallFor DEFAULT_CONFIG None "four scenes" video
    :: map (fun shot =>
              editCallFor DEFAULT_CONFIG None "data:image/png;base64,BASE"
                None "9:16" (ShotConfig.instruction shot))
         defaultShots.
Proof.
  apply (storyboard_requests_share_the_base_image
           "data:image/png;base64,BASE" "four scenes" None video "9:16"
           worldWithSecondEditFailing (Rejects (Error "503 overloaded")) []
           defaultShots
           [imageAnswer "AAAA"; Rejects (Error "500 internal");
            imageAnswer "CCCC"; imageAnswer "DDDD"] []
           eq_refl eq_refl eq_refl eq_refl).
Defined.

Lemma pollUntilDone_world key cfg env ca sa ia va :
  forall polls operation cs,
    pollUntilDone (length polls) key operation
      (World.mk cfg env ca sa ia va polls cs)
    = (outcomeOfFinal (finalOperation operation polls),
       World.mk cfg env ca sa ia va
         (skipn (length (polled operation polls)) polls)
         (cs ++ flat_map (pollTurn key) (polled operation polls))).
Proof.
  induction polls as [|answer polls IH]; intros operation cs; simpl;
    destruct (Operation.done operation) eqn:Hdone; simpl;
    try (rewrite app_nil_r; reflexivity).
  - run_async. world_norm. rewrite <- app_assoc. reflexivity.
  - run_async. world_norm. destruct answer as [operation' | e].
    + rewrite IH. rewrite <- !app_assoc. reflexivity.
    + rewrite <- app_assoc. reflexivity.
Qed.

Lemma generateStoryVideo_world script referenceImages cfg env ca sa ia va pa cs :
  generateStoryVideo script referenceImages
    (World.mk cfg env ca sa ia va pa cs)
  = match va with
    | [] =>
        (Pending,
         World.mk cfg env ca sa ia [] pa
           (cs ++ [GenerateVideos (keyInUse (AppConfig.videoKey cfg) env)
                     (videoRequest script referenceImages)]))
    | Rejects e :: va' =>
        (Thrown e,
         World.mk cfg env ca sa ia va' pa
           (cs ++ [GenerateVideos (keyInUse (AppConfig.videoKey cfg) env)
                     (videoRequest script referenceImages)]))
    | Resolves submitted :: va' =>
        (videoOutcome (finalOperation submitted pa),
         World.mk cfg env ca sa ia va'
           (skipn (length (polled submitted pa)) pa)
           (cs ++ GenerateVideos (keyInUse (AppConfig.videoKey cfg) env)
                    (videoRequest script referenceImages)
                  :: flat_map (pollTurn (keyInUse (AppConfig.videoKey cfg) env))
                       (polled submitted pa)))
    end.
Proof.
  unfold generateStoryVideo. run_async. rewrite orElse_keyInUse.
  destruct va as [|[submitted | e] va']; try reflexivity.
  world_norm. rewrite pollUntilDone_world. unfold videoOutcome.
  rewrite <- app_assoc. simpl.
  destruct (outcomeOfFinal (finalOperation submitted pa)) as [operation | e |];
    try reflexivity.
  destruct (negb (truthy (firstVideoUri operation))); reflexivity.
Qed.

Lemma polled_not_done :
  forall polls operation other,
    In other (polled operation polls) -> Operation.done other = false.
Proof.
  induction polls as [|answer polls IH]; intros operation other;
    simpl; destruct (Operation.done operation) eqn:Hdone; simpl;
    try contradiction.
  - intros [<- | []]. exact Hdone.
  - intros [<- | Hin]; [exact Hdone|].
    destruct answer as [operation' | e]; [|contradiction].
    apply (IH operation' other Hin).
Qed.

Lemma polled_length :
  forall polls operation, length (polled operation polls) <= S (length polls).
Proof.
  induction polls as [|answer polls IH]; intros operation; simpl;
    destruct (Operation.done operation); simpl; try lia.
  destruct answer as [operation' | e]; simpl; [|lia].
  specialize (IH operation'). lia.
Qed.

(** X6.  The polling discipline of [generateStoryVideo]: once the
    submission has resolved, the log is the submission followed, for
    each poll, by a timer of 8000 ms and then the poll, which is given
    the operation last received; only operations that are not done are
    polled, so an operation that is done at once is not polled at all
    and no timer is set; the poll answers that come after the first done
    operation are left unread. *)
Theorem polling_sleeps_before_each_poll :
  forall (script : string) (referenceImages : list string) (w : World.t)
         (submitted : Operation.t) (rest : list (Settled Operation.t)),
    World.videoAnswers w = Resolves submitted :: rest ->
    exists key : option string,
      World.calls (snd (generateStoryVideo script referenceImages w))
      = World.calls w
        ++ GenerateVideos key (videoRequest script referenceImages)
           :: flat_map (fun operation =>
                          [SetTimeout 8000; GetVideosOperation key operation])
                (polled submitted (World.pollAnswers w))
      /\ World.pollAnswers (snd (generateStoryVideo script referenceImages w))
         = skipn (length (polled submitted (World.pollAnswers w)))
             (World.pollAnswers w)
      /\ (forall operation,
            In operation (polled submitted (World.pollAnswers w)) ->
            Operation.done operation = false)
      /\ (Operation.done submitted = true ->
          polled submitted (World.pollAnswers w) = [])
      /\ (forall first later,
            Operation.done submitted = false ->
            World.pollAnswers w = Resolves first :: later ->
            Operation.done first = true ->
            polled submitted (World.pollAnswers w) = [submitted]).
Proof.
  intros script referenceImages w submitted rest Hq.
  destruct w as [cfg env ca sa ia va pa cs]. simpl in Hq. subst va.
  exists (keyInUse (AppConfig.videoKey cfg) env).
  rewrite generateStoryVideo_world. simpl.
  split; [reflexivity|]. split; [reflexivity|].
  split; [apply polled_not_done|]. split.
  - intros Hdone. destruct pa; simpl; rewrite Hdone; reflexivity.
  - intros first later Hdone -> Hfirst. simpl. rewrite Hdone.
    destruct later; simpl; rewrite Hfirst; reflexivity.
Qed.

Lemma polling_sleeps_before_each_poll_witness :
  exists key : option string,
    World.calls
      (snd (generateStoryVideo "A juicer at dawn." ["img-1"]
              worldDoneAtThirdPoll))
    = [GenerateVideos key (videoRequest "A juicer at dawn." ["img-1"]);
       SetTimeout 8000; GetVideosOperation key (Operation.mk false None);
       SetTimeout 8000; GetVideosOperation key (Operation.mk false None);
       SetTimeout 8000; GetVideosOperation key (Operation.mk false None)]
    /\ World.pollAnswers
         (snd (generateStoryVideo "A juicer at dawn." ["img-1"]
                 worldDoneAtThirdPoll))
       = [Resolves (Operation.mk true None)].
Proof.
  destruct (polling_sleeps_before_each_poll "A juicer at dawn." ["img-1"]
              worldDoneAtThirdPoll (Operation.mk false None) [] eq_refl)
    as (key & Hcalls & Hleft & _).
  exists key. split; [exact Hcalls | exact Hleft].
Defined.

(* ================================================================== *)
(** * Properties of StepIdeation *)
(* ================================================================== *)

Lemma AppMode_eqb_refl (m : AppMode) : AppMode_eqb m m = true.
Proof. destruct m; reflexivity. Qed.

Lemma handleGenerate_run DateNow product currentMode s w :
  exists call,
    handleGenerate DateNow product currentMode s w
    = match World.conceptAnswers w with
      | [] => (Pending, World.log call w)
      | answer :: rest =>
          (match conceptsOutcome answer with
           | Returned results =>
               Returned
                 (Ideation.mk false NoError,
                  addHistoryConcept
                    (withMeta DateNow product currentMode results) s)
           | Thrown err =>
               Returned
                 (Ideation.mk false
                    (if includes (errToString err) "403"
                        || includes (errToString err) "PERMISSION_DENIED"
                     then PermissionDenied
                     else GenerationFailed (messageOrUnknown err)), s)
           | Pending => Pending
           end,
           World.setConceptAnswers rest (World.log call w))
      end.
Proof.
  destruct (generateConcepts_run (ProductInfo.name product)
              (ProductInfo.description product)
              (ProductInfo.creativeDirection product)
              (ProductInfo.userImages product) currentMode w)
    as (call & _ & Hrun).
  exists call. unfold handleGenerate, tryCatch, bind. rewrite Hrun.
  destruct (World.conceptAnswers w) as [|answer rest]; [reflexivity|].
  destruct (conceptsOutcome answer); reflexivity.
Qed.

(** X7.  [handleGenerate] never throws.  When the concept call settles
    without a parsed array (the call is rejected, the response has no
    text, or the text does not parse), the handler returns with the
    state of [App] unchanged, hence with the three histories as they
    were, with [loading] false and with an error shown: the permission
    message when the text of the error contains "403" or
    "PERMISSION_DENIED"; otherwise the failure message, which carries
    the message of the error when it is not empty ("No concepts
    generated" for a response without text) and the default text
    when the message of the error is empty. *)
Theorem handleGenerate_failure_keeps_state :
  forall (DateNow : nat -> N) (product : ProductInfo.t) (currentMode : AppMode)
         (s : App.t) (w : World.t),
    (forall e, fst (handleGenerate DateNow product currentMode s w) <> Thrown e)
    /\ forall answer rest,
        World.conceptAnswers w = answer :: rest ->
        (forall results, answer <> Resolves (Parses results)) ->
        exists (err : JsError),
          fst (generateConcepts (ProductInfo.name product)
                 (ProductInfo.description product)
                 (ProductInfo.creativeDirection product)
                 (ProductInfo.userImages product) currentMode w)
          = Thrown err
          /\ fst (handleGenerate DateNow product currentMode s w)
             = Returned
                 (Ideation.mk false
                    (if includes (errToString err) "403"
                        || includes (errToString err) "PERMISSION_DENIED"
                     then PermissionDenied
                     else GenerationFailed (messageOrUnknown err)), s)
          /\ (answer = Resolves Falsy ->
              fst (handleGenerate DateNow product currentMode s w)
              = Returned
                  (Ideation.mk false (GenerationFailed "No concepts generated"),
                   s))
          /\ (errMessage err <> "" ->
              messageOrUnknown err = errMessage err)
          /\ (errMessage err = "" ->
              messageOrUnknown err = "未知错误").
Proof.
  intros DateNow product currentMode s w.
  destruct (handleGenerate_run DateNow product currentMode s w)
    as (call & Hrun).
  split.
  - intros e. rewrite Hrun.
    destruct (World.conceptAnswers w) as [|answer rest]; [discriminate|].
    simpl. destruct (conceptsOutcome answer); discriminate.
  - intros answer rest Hq Hno.
    destruct (generateConcepts_run (ProductInfo.name product)
                (ProductInfo.description product)
                (ProductInfo.creativeDirection product)
                (ProductInfo.userImages product) currentMode w)
      as (call' & _ & Hgen).
    rewrite Hrun, Hgen, Hq. simpl.
    assert (Hmessage : forall err,
               (errMessage err <> "" -> messageOrUnknown err = errMessage err)
               /\ (errMessage err = "" -> messageOrUnknown err = "未知错误")).
    { intros err. unfold messageOrUnknown.
      destruct (errMessage err); split; intros H;
        try reflexivity; try contradiction; discriminate. }
    destruct answer as [[ | e | results] | e]; simpl.
    + eexists. split; [reflexivity|]. split; [reflexivity|].
      split; [intros _; reflexivity | apply Hmessage].
    + eexists. split; [reflexivity|]. split; [reflexivity|].
      split; [discriminate | apply Hmessage].
    + exfalso. apply (Hno results eq_refl).
    + eexists. split; [reflexivity|]. split; [reflexivity|].
      split; [discriminate | apply Hmessage].
Qed.

Lemma handleGenerate_failure_keeps_state_witness :
  fst (handleGenerate (fun k => 1700000000000%N) juicerBrief video App.initial
         worldWithNoConceptText)
  = Returned
      (Ideation.mk false (GenerationFailed "No concepts generated"),
       App.initial)
  /\ fst (handleGenerate (fun k => 1700000000000%N) juicerBrief video
            App.initial worldWithSilentRejection)
     = Returned (Ideation.mk false (GenerationFailed "未知错误"), App.initial).
Proof.
  split.
  - destruct (handleGenerate_failure_keeps_state
                (fun k => 1700000000000%N) juicerBrief video App.initial
                worldWithNoConceptText) as (_ & H).
    destruct (H (Resolves Falsy) [] eq_refl) as (err & _ & _ & Hshown & _).
    + intros results. discriminate.
    + apply Hshown. reflexivity.
  - destruct (handleGenerate_failure_keeps_state
                (fun k => 1700000000000%N) juicerBrief video App.initial
                worldWithSilentRejection) as (_ & H).
    destruct (H (Rejects (Error "")) [] eq_refl)
      as (err & Hthrown & Hshown & _ & _ & Hdefault).
    + intros results. discriminate.
    + injection Hthrown as <-. rewrite Hshown.
      rewrite (Hdefault eq_refl). reflexivity.
Defined.

Lemma stamped_concepts_pass_filter DateNow product currentMode results :
  forall i,
    filter (fun c =>
              modeIs (SceneConcept.mode c) currentMode
              && String.eqb (SceneConcept.productName c)
                   (ProductInfo.name product))
           (mapIndexFrom i (stamp DateNow product currentMode) results)
    = mapIndexFrom i (stamp DateNow product currentMode) results.
Proof.
  induction results as [|raw results IH]; intros i; simpl; [reflexivity|].
  rewrite AppMode_eqb_refl, String.eqb_refl. simpl. now rewrite IH.
Qed.

Lemma stamped_concepts_other_mode DateNow product currentMode results
    otherMode name :
  otherMode <> currentMode ->
  forall i,
    filter (fun c =>
              modeIs (SceneConcept.mode c) otherMode
              && String.eqb (SceneConcept.productName c) name)
           (mapIndexFrom i (stamp DateNow product currentMode) results)
    = [].
Proof.
  intros Hne. induction results as [|raw results IH]; intros i; simpl;
    [reflexivity|].
  replace (AppMode_eqb currentMode otherMode) with false.
  - simpl. apply IH.
  - symmetry. destruct (AppMode_eqb currentMode otherMode) eqn:E;
      [|reflexivity].
    apply AppMode_eqb_eq in E. congruence.
Qed.

(** X8.  The concepts of a successful run are the ones displayed first:
    after [handleGenerate] succeeds, the list shown by [StepIdeation] for
    the same mode and product is the stamped concepts, in the order of
    the provider's array, followed by what was shown before; the lists
    shown for the other modes do not change. *)
Theorem generated_concepts_are_displayed_first :
  forall (DateNow : nat -> N) (product : ProductInfo.t) (currentMode : AppMode)
         (s : App.t) (w : World.t) (results : list RawConcept.t)
         (rest : list (Settled (ResponseText (list RawConcept.t)))),
    World.conceptAnswers w = Resolves (Parses results) :: rest ->
    exists (ui : Ideation.t) (s' : App.t),
      fst (handleGenerate DateNow product currentMode s w) = Returned (ui, s')
      /\ filteredConcepts (App.historyConcepts s') currentMode product
         = withMeta DateNow product currentMode results
           ++ filteredConcepts (App.historyConcepts s) currentMode product
      /\ (forall otherMode otherProduct,
            otherMode <> currentMode ->
            filteredConcepts (App.historyConcepts s') otherMode otherProduct
            = filteredConcepts (App.historyConcepts s) otherMode otherProduct).
Proof.
  intros DateNow product currentMode s w results rest Hq.
  destruct (handleGenerate_run DateNow product currentMode s w)
    as (call & Hrun).
  rewrite Hq in Hrun. simpl in Hrun.
  eexists. eexists. split; [rewrite Hrun; reflexivity|].
  unfold filteredConcepts. simpl. split.
  - rewrite filter_app. f_equal. apply stamped_concepts_pass_filter.
  - intros otherMode otherProduct Hne. rewrite filter_app.
    unfold withMeta.
    rewrite (stamped_concepts_other_mode DateNow product currentMode results
               otherMode (ProductInfo.name otherProduct) Hne 0).
    reflexivity.
Qed.

Lemma generated_concepts_are_displayed_first_witness :
  exists (ui : Ideation.t) (s' : App.t),
    fst (handleGenerate (fun k => 1700000000000%N) juicerBrief video
           App.initial worldWithTwoConcepts) = Returned (ui, s')
    /\ filteredConcepts (App.historyConcepts s') video juicerBrief
       = withMeta (fun k => 1700000000000%N) juicerBrief video twoConcepts.
Proof.
  destruct (generated_concepts_are_displayed_first
              (fun k => 1700000000000%N) juicerBrief video App.initial
              worldWithTwoConcepts twoConcepts [] eq_refl)
    as (ui & s' & Hrun & Hshown & _).
  exists ui, s'. split; [exact Hrun|].
  rewrite Hshown. apply app_nil_r.
Defined.

(** ** Lists without repetition *)

Lemma existsb_eqb_In (x : string) (l : list string) :
  existsb (String.eqb x) l = true <-> In x l.
Proof.
  rewrite existsb_exists. split.
  - intros (y & Hy & E). apply String.eqb_eq in E. now subst.
  - intros H. exists x. split; [assumption | apply String.eqb_refl].
Qed.

Lemma unique_In (xs : list string) :
  forall seen x,
    In x (unique seen xs) <-> In x xs /\ ~ In x seen.
Proof.
  induction xs as [|y xs IH]; intros seen x; simpl.
  - tauto.
  - destruct (existsb (String.eqb y) seen) eqn:E.
    + apply existsb_eqb_In in E. rewrite IH. split.
      * tauto.
      * intros [[-> | H] Hn]; tauto.
    + assert (Hy : ~ In y seen).
      { intros H. apply existsb_eqb_In in H. congruence. }
      simpl. rewrite IH. simpl. split.
      * intros [-> | [H Hn]]; tauto.
      * intros [[-> | H] Hn]; [tauto|].
        destruct (string_dec y x) as [-> | Hne]; [tauto|]. right. tauto.
Qed.

Lemma unique_NoDup (xs : list string) :
  forall seen, NoDup (unique seen xs).
Proof.
  induction xs as [|y xs IH]; intros seen; simpl.
  - constructor.
  - destruct (existsb (String.eqb y) seen); [apply IH|].
    constructor; [|apply IH].
    rewrite unique_In. simpl. tauto.
Qed.

Lemma unique_snoc (xs : list string) :
  forall seen x,
    unique seen (xs ++ [x])
    = unique seen xs
      ++ (if existsb (String.eqb x) seen || existsb (String.eqb x) xs
          then [] else [x]).
Proof.
  induction xs as [|y xs IH]; intros seen x; simpl.
  - rewrite orb_false_r. destruct (existsb (String.eqb x) seen); reflexivity.
  - destruct (existsb (String.eqb y) seen) eqn:E.
    + rewrite IH. f_equal.
      destruct (String.eqb x y) eqn:Exy; [|reflexivity].
      apply String.eqb_eq in Exy. subst y. rewrite E. reflexivity.
    + simpl. rewrite IH. simpl. f_equal. f_equal.
      destruct (String.eqb x y), (existsb (String.eqb x) seen); reflexivity.
Qed.

Lemma filter_none {A} (f : A -> bool) (l : list A) :
  (forall x, In x l -> f x = false) -> filter f l = [].
Proof.
  induction l as [|a l IH]; intros H; simpl; [reflexivity|].
  rewrite (H a (or_introl eq_refl)). apply IH.
  intros x Hx. apply H. right. assumption.
Qed.

(** ** The groups of the concepts displayed *)

(** The groups read as a function of the list: the distinct keys in
    order of first occurrence, each with the concepts of that key. *)
Lemma pushToGroup_keyed (key : string) (c : SceneConcept.t)
    (members : string -> list SceneConcept.t) :
  forall keys,
    NoDup keys ->
    pushToGroup key c (map (fun k => (k, members k)) keys)
    = map (fun k => (k, members k ++ (if String.eqb k key then [c] else [])))
        keys
      ++ (if existsb (String.eqb key) keys then [] else [(key, [c])]).
Proof.
  induction keys as [|k keys IH]; intros Hnd; simpl; [reflexivity|].
  inversion Hnd as [|? ? Hnotin Hnd']; subst.
  destruct (String.eqb k key) eqn:E.
  - apply String.eqb_eq in E. subst k. rewrite String.eqb_refl. simpl.
    rewrite app_nil_r. f_equal. apply map_ext_in.
    intros k' Hk'. destruct (String.eqb k' key) eqn:E'.
    + apply String.eqb_eq in E'. subst k'. contradiction.
    + now rewrite app_nil_r.
  - rewrite String.eqb_sym, E. simpl. rewrite app_nil_r.
    f_equal. apply IH. assumption.
Qed.

Lemma groupedConcepts_from (l : list SceneConcept.t) :
  forall pre,
    fold_left (fun groups c => pushToGroup (conceptGroupKey c) c groups) l
      (map (fun key =>
              (key, filter (fun c => String.eqb (conceptGroupKey c) key) pre))
         (unique [] (map conceptGroupKey pre)))
    = map (fun key =>
             (key,
              filter (fun c => String.eqb (conceptGroupKey c) key) (pre ++ l)))
        (unique [] (map conceptGroupKey (pre ++ l))).
Proof.
  induction l as [|c l IH]; intros pre; simpl.
  - now rewrite app_nil_r.
  - rewrite (pushToGroup_keyed (conceptGroupKey c) c
               (fun key =>
                  filter (fun c' => String.eqb (conceptGroupKey c') key) pre)
               (unique [] (map conceptGroupKey pre))
               (unique_NoDup _ _)).
    replace (pre ++ c :: l) with ((pre ++ [c]) ++ l)
      by (rewrite <- app_assoc; reflexivity).
    rewrite <- IH. f_equal.
    rewrite map_app. simpl. rewrite unique_snoc. simpl.
    rewrite map_app. f_equal.
    + apply map_ext. intros key. rewrite filter_app. simpl.
      rewrite (String.eqb_sym key). reflexivity.
    + assert (Hsame :
                existsb (String.eqb (conceptGroupKey c))
                  (unique [] (map conceptGroupKey pre))
                = existsb (String.eqb (conceptGroupKey c))
                    (map conceptGroupKey pre)).
      { apply eq_true_iff_eq. rewrite !existsb_eqb_In, unique_In.
        simpl. tauto. }
      rewrite Hsame.
      destruct (existsb (String.eqb (conceptGroupKey c))
                  (map conceptGroupKey pre)) eqn:E; [reflexivity|].
      simpl. rewrite filter_app. simpl. rewrite String.eqb_refl.
      replace (filter
                 (fun c' =>
                    String.eqb (conceptGroupKey c') (conceptGroupKey c)) pre)
        with (@nil SceneConcept.t); [reflexivity|].
      symmetry. apply filter_none. intros c' Hc'.
      destruct (String.eqb (conceptGroupKey c') (conceptGroupKey c)) eqn:E';
        [|reflexivity].
      apply String.eqb_eq in E'.
      assert (Hin : In (conceptGroupKey c) (map conceptGroupKey pre)).
      { rewrite <- E'. apply in_map. assumption. }
      apply existsb_eqb_In in Hin. congruence.
Qed.

Lemma groupOf_keyed (members : string -> list SceneConcept.t) (key : string) :
  forall keys,
    In key keys ->
    groupOf (map (fun k => (k, members k)) keys) key = Some (members key).
Proof.
  induction keys as [|k keys IH]; intros Hin; simpl; [contradiction|].
  destruct (String.eqb k key) eqn:E.
  - apply String.eqb_eq in E. now subst.
  - apply IH. destruct Hin as [-> | Hin]; [|assumption].
    rewrite String.eqb_refl in E. discriminate.
Qed.

Lemma string_app_nil_r (s : string) : (s ++ "")%string = s.
Proof. induction s as [|c s IH]; simpl; [reflexivity | now rewrite IH]. Qed.

Lemma string_app_assoc (a b c : string) :
  ((a ++ b) ++ c)%string = (a ++ (b ++ c))%string.
Proof. induction a as [|x a IH]; simpl; [reflexivity | now rewrite IH]. Qed.

Lemma string_app_inv_head (p a b : string) :
  (p ++ a)%string = (p ++ b)%string -> a = b.
Proof.
  induction p as [|x p IH]; simpl; intros H; [assumption|].
  injection H as H. apply IH. assumption.
Qed.

(** X9.  The groups of [StepIdeation] are exactly the creative directions
    of the concepts displayed.  The object built by the [reduce] has one
    entry for each distinct key, in the order of first occurrence, and
    the entry of a key holds all the displayed concepts of that key, in
    the order of the list; so every displayed concept is in the group of
    its own key, and no key occurs twice.  The displayed concepts all
    have the name of the product, so two of them are in the same group
    exactly when their creative directions are equal. *)
Theorem ideation_groups_are_the_directions :
  forall (historyConcepts : list SceneConcept.t) (currentMode : AppMode)
         (product : ProductInfo.t),
    groupedConcepts (filteredConcepts historyConcepts currentMode product)
    = map (fun key =>
             (key,
              filter (fun c => String.eqb (conceptGroupKey c) key)
                (filteredConcepts historyConcepts currentMode product)))
        (unique []
           (map conceptGroupKey
              (filteredConcepts historyConcepts currentMode product)))
    /\ NoDup
         (map fst
            (groupedConcepts
               (filteredConcepts historyConcepts currentMode product)))
    /\ (forall c,
          In c (filteredConcepts historyConcepts currentMode product) ->
          exists members,
            groupOf
              (groupedConcepts
                 (filteredConcepts historyConcepts currentMode product))
              (conceptGroupKey c) = Some members
            /\ In c members
            /\ forall c', In c' members ->
                          conceptGroupKey c' = conceptGroupKey c)
    /\ (forall c1 c2,
          In c1 (filteredConcepts historyConcepts currentMode product) ->
          In c2 (filteredConcepts historyConcepts currentMode product) ->
          (conceptGroupKey c1 = conceptGroupKey c2
           <-> SceneConcept.creativeDirection c1
               = SceneConcept.creativeDirection c2)).
Proof.
  intros historyConcepts currentMode product.
  set (filtered := filteredConcepts historyConcepts currentMode product).
  assert (Hgroups :
            groupedConcepts filtered
            = map (fun key =>
                     (key,
                      filter (fun c => String.eqb (conceptGroupKey c) key)
                        filtered))
                (unique [] (map conceptGroupKey filtered))).
  { exact (groupedConcepts_from filtered []). }
  split; [exact Hgroups|]. split; [|split].
  - rewrite Hgroups, map_map. simpl. rewrite map_id. apply unique_NoDup.
  - intros c Hc. eexists. split; [|split].
    + rewrite Hgroups.
      apply (groupOf_keyed
               (fun key =>
                  filter (fun c' => String.eqb (conceptGroupKey c') key)
                    filtered)).
      apply unique_In. split; [apply in_map; assumption | intros []].
    + apply filter_In. split; [assumption | apply String.eqb_refl].
    + intros c' Hc'. apply filter_In in Hc'.
      apply String.eqb_eq. tauto.
  - intros c1 c2 H1 H2.
    apply filter_In in H1. apply filter_In in H2.
    destruct H1 as (_ & H1). destruct H2 as (_ & H2).
    apply andb_true_iff in H1. apply andb_true_iff in H2.
    destruct H1 as (_ & H1). destruct H2 as (_ & H2).
    apply String.eqb_eq in H1. apply String.eqb_eq in H2.
    unfold conceptGroupKey. rewrite H1, H2. split.
    + intros H. apply string_app_inv_head in H.
      apply (string_app_inv_head "::") in H. assumption.
    + intros ->. reflexivity.
Qed.

(** ** The order of the groups *)

Lemma insertSorted_perm {A} (compare : A -> A -> comparison) (x : A) :
  forall l, Permutation (insertSorted compare x l) (x :: l).
Proof.
  induction l as [|y l IH]; simpl; [reflexivity|].
  destruct (compare x y); try reflexivity.
  rewrite IH. apply perm_swap.
Qed.

Lemma sortWith_perm {A} (compare : A -> A -> comparison) :
  forall l, Permutation (sortWith compare l) l.
Proof.
  induction l as [|x l IH]; simpl; [reflexivity|].
  rewrite insertSorted_perm. now constructor.
Qed.

Section SortedByTime.

Variable A : Type.
Variable time : A -> N.

Let newestFirst (a b : A) : comparison := N.compare (time b) (time a).
Let notOlder (a b : A) : Prop := (time b <= time a)%N.

Lemma insertSorted_sorted (x : A) :
  forall l,
    StronglySorted notOlder l ->
    StronglySorted notOlder (insertSorted newestFirst x l).
Proof.
  induction l as [|y l IH]; intros Hs; simpl.
  - constructor; constructor.
  - inversion Hs as [|? ? Hs' Hall]; subst.
    unfold newestFirst at 1.
    destruct (N.compare_spec (time y) (time x)) as [E | E | E].
    + constructor; [assumption|]. constructor.
      * unfold notOlder. lia.
      * eapply Forall_impl; [|exact Hall]. unfold notOlder. intros; lia.
    + constructor; [assumption|]. constructor.
      * unfold notOlder. lia.
      * eapply Forall_impl; [|exact Hall]. unfold notOlder. intros; lia.
    + constructor; [apply IH; assumption|].
      apply (Permutation_Forall
               (Permutation_sym (insertSorted_perm newestFirst x l))).
      constructor; [unfold notOlder; lia | assumption].
Qed.

Lemma sortWith_sorted (l : list A) :
  StronglySorted notOlder (sortWith newestFirst l).
Proof.
  induction l as [|x l IH]; simpl; [constructor|].
  apply insertSorted_sorted. assumption.
Qed.

End SortedByTime.

(** X10.  The groups are listed newest first: [sortedGroupKeys] holds the
    keys of the groups, each once as in the object, ordered so that no
    key comes after a key whose first concept was created later. *)
Theorem newest_group_is_listed_first :
  forall (groups : list (string * list SceneConcept.t)),
    Permutation (sortedGroupKeys groups) (map fst groups)
    /\ StronglySorted
         (fun a b => (firstCreatedAt groups b <= firstCreatedAt groups a)%N)
         (sortedGroupKeys groups).
Proof.
  intros groups. split.
  - apply sortWith_perm.
  - apply (sortWith_sorted string (firstCreatedAt groups)).
Qed.

(** ** The header of a group *)

Lemma includes_doubleColon_cons (c : ascii) (rest : string) :
  includes (String c rest) "::"
  = (Ascii.eqb c ":"
     && match rest with
        | String c' _ => Ascii.eqb c' ":"
        | EmptyString => false
        end)
    || includes rest "::".
Proof.
  cbn [includes stripPrefix]. rewrite (Ascii.eqb_sym ":" c).
  destruct (Ascii.eqb c ":"); cbn [andb orb].
  - destruct rest as [|c' rest']; cbn [includes stripPrefix].
    + reflexivity.
    + rewrite (Ascii.eqb_sym ":" c').
      destruct (Ascii.eqb c' ":"); reflexivity.
  - destruct rest; reflexivity.
Qed.

Lemma splitDoubleColon_none :
  forall (s current : string),
    includes s "::" = false ->
    splitDoubleColon current s = [(current ++ s)%string].
Proof.
  induction s as [|c rest IH]; intros current Hno.
  - simpl. now rewrite string_app_nil_r.
  - rewrite includes_doubleColon_cons in Hno.
    apply orb_false_iff in Hno. destruct Hno as (Hhead & Hrest).
    destruct rest as [|c' rest'].
    + reflexivity.
    + change (splitDoubleColon current (String c (String c' rest')))
        with (if Ascii.eqb c ":" && Ascii.eqb c' ":"
              then current :: splitDoubleColon EmptyString rest'
              else splitDoubleColon (current ++ String c EmptyString)%string
                     (String c' rest')).
      rewrite Hhead. rewrite (IH _ Hrest).
      rewrite string_app_assoc. reflexivity.
Qed.

Lemma splitDoubleColon_first :
  forall (a current rest : string),
    includes (a ++ ":") "::" = false ->
    splitDoubleColon current (a ++ "::" ++ rest)
    = (current ++ a)%string :: splitDoubleColon EmptyString rest.
Proof.
  induction a as [|c a IH]; intros current rest Hno.
  - simpl. now rewrite string_app_nil_r.
  - change ((String c a ++ ":")%string) with (String c (a ++ ":")%string) in Hno.
    rewrite includes_doubleColon_cons in Hno.
    apply orb_false_iff in Hno. destruct Hno as (Hhead & Hrest).
    change ((String c a ++ "::" ++ rest)%string)
      with (String c (a ++ "::" ++ rest)%string).
    destruct a as [|c' a'].
    + cbn [append] in Hhead.
      rewrite Ascii.eqb_refl, andb_true_r in Hhead.
      cbn [append splitDoubleColon].
      rewrite Hhead, Ascii.eqb_refl. reflexivity.
    + change ((String c' a' ++ "::" ++ rest)%string)
        with (String c' (a' ++ "::" ++ rest)%string).
      change (splitDoubleColon current
                (String c (String c' (a' ++ "::" ++ rest)%string)))
        with (if Ascii.eqb c ":" && Ascii.eqb c' ":"
              then current
                   :: splitDoubleColon EmptyString (a' ++ "::" ++ rest)%string
              else splitDoubleColon (current ++ String c EmptyString)%string
                     (String c' (a' ++ "::" ++ rest)%string)).
      cbn [append] in Hhead. rewrite Hhead.
      change (String c' (a' ++ "::" ++ rest)%string)
        with ((String c' a' ++ "::" ++ rest)%string).
      rewrite (IH _ rest Hrest).
      rewrite string_app_assoc. reflexivity.
Qed.

(** X11.  The header of a group is read back from its key by splitting
    the key at "::".  When the product name holds no "::" and does not
    end with a colon, and the creative direction holds no "::", the
    header shows the product name and the direction.  When the product
    name itself holds "::", the header shows only what stands before its
    first "::" as the name, and what stands between it and the
    next "::" as the direction. *)
Theorem group_header_reads_back_the_key :
  forall (c : SceneConcept.t),
    (includes (SceneConcept.productName c ++ ":") "::" = false ->
     includes (SceneConcept.creativeDirection c) "::" = false ->
     groupHeader (conceptGroupKey c)
     = (Some (SceneConcept.productName c),
        Some (SceneConcept.creativeDirection c)))
    /\ (forall before after,
          SceneConcept.productName c = (before ++ "::" ++ after)%string ->
          includes (before ++ ":") "::" = false ->
          includes (after ++ ":") "::" = false ->
          groupHeader (conceptGroupKey c) = (Some before, Some after)).
Proof.
  intros c. unfold groupHeader, conceptGroupKey. split.
  - intros Hname Hdirection.
    rewrite (splitDoubleColon_first _ EmptyString _ Hname).
    rewrite (splitDoubleColon_none _ EmptyString Hdirection).
    reflexivity.
  - intros before after -> Hbefore Hafter.
    rewrite !string_app_assoc.
    rewrite (splitDoubleColon_first _ EmptyString _ Hbefore).
    rewrite (splitDoubleColon_first _ EmptyString _ Hafter).
    destruct (splitDoubleColon EmptyString (SceneConcept.creativeDirection c));
      reflexivity.
Qed.

Lemma group_header_reads_back_the_key_witness :
  groupHeader (conceptGroupKey juicerConcept)
  = (Some "Compact Juicer", Some "emotional")
  /\ groupHeader (conceptGroupKey colonConcept) = (Some "Chef", Some "Pro").
Proof.
  split.
  - exact (proj1 (group_header_reads_back_the_key juicerConcept)
             eq_refl eq_refl).
  - exact (proj2 (group_header_reads_back_the_key colonConcept)
             "Chef" "Pro" eq_refl eq_refl eq_refl).
Defined.

(* ================================================================== *)
(** * Properties of StepVisualizer *)
(* ================================================================== *)

(** A handler of the shape [try { x = await m; ...f x } catch (e) { ...g e }]
    whose two branches only set state. *)
Lemma tryCatch_bind_ret {A B} (m : Async A) (f : A -> B) (g : JsError -> B)
    (w : World.t) :
  tryCatch (x <- m ;; ret (f x)) (fun e => ret (g e)) w
  = (match fst (m w) with
     | Returned x => Returned (f x)
     | Thrown e => Returned (g e)
     | Pending => Pending
     end, snd (m w)).
Proof.
  unfold tryCatch, bind, ret. destruct (m w) as [[x | e |] w']; reflexivity.
Qed.

Lemma generateSceneImage_outcome prompt referenceProductImages aspectRatio w :
  fst (generateSceneImage prompt referenceProductImages aspectRatio w)
  = match World.imageAnswers w with
    | [] => Pending
    | answer :: _ => imageOutcome "No image generated" answer
    end.
Proof.
  destruct (generateSceneImage_run prompt referenceProductImages aspectRatio w)
    as (call & _ & ->).
  destruct (World.imageAnswers w) as [|[response | e] rest]; reflexivity.
Qed.

Lemma editSceneImage_outcome baseImage instruction referenceProductImage
    aspectRatio w :
  fst (editSceneImage baseImage instruction referenceProductImage aspectRatio w)
  = match World.imageAnswers w with
    | [] => Pending
    | answer :: _ => imageOutcome "Image editing failed" answer
    end.
Proof.
  destruct w as [cfg env ca sa ia va pa cs].
  rewrite editSceneImage_world. simpl.
  destruct ia as [|[response | e] rest]; reflexivity.
Qed.

(** An item tagged with a concept and a mode is in the view of that
    concept and mode, and in no view of another concept id or mode. *)
Lemma currentHistoryImages_cons_same item historyImages concept currentMode :
  ImageHistoryItem.conceptId item = SceneConcept.id concept ->
  ImageHistoryItem.mode item = Some currentMode ->
  currentHistoryImages (item :: historyImages) concept currentMode
  = item :: currentHistoryImages historyImages concept currentMode.
Proof.
  intros Hid Hmode. unfold currentHistoryImages. simpl.
  rewrite Hid, Hmode, String.eqb_refl. simpl.
  now rewrite AppMode_eqb_refl.
Qed.

Lemma currentHistoryImages_cons_other item historyImages concept currentMode :
  ImageHistoryItem.conceptId item <> SceneConcept.id concept
  \/ ImageHistoryItem.mode item <> Some currentMode ->
  currentHistoryImages (item :: historyImages) concept currentMode
  = currentHistoryImages historyImages concept currentMode.
Proof.
  intros Hother. unfold currentHistoryImages. simpl.
  destruct (String.eqb (ImageHistoryItem.conceptId item)
              (SceneConcept.id concept)) eqn:Eid; [|reflexivity].
  destruct (modeIs (ImageHistoryItem.mode item) currentMode) eqn:Emode;
    [|reflexivity].
  apply String.eqb_eq in Eid. apply modeIs_true in Emode.
  destruct Hother; contradiction.
Qed.

(** X12.  A main visual that is generated enters the current view and
    becomes the active image.  When the image call answers with image
    data, [handleGenerateMainVisual] returns with a new history item put
    in front of the image history; the item carries the returned data
    url, the visual prompt, and the lineage of the concept (id, title,
    product, direction) with the current mode; it is the first image of
    the strict view of this concept and mode, it is the [activeImage] of
    the component, and its payload is the active image of [App]; the
    views of every other concept id or mode are unchanged. *)
Theorem main_visual_enters_the_current_view :
  forall (DateNow : nat -> N) (concept : SceneConcept.t)
         (productImages : option (list string)) (currentMode : AppMode)
         (overrideRatio : option string) (v : Visualizer.t) (s : App.t)
         (w : World.t) (response : ImageResponse.t)
         (rest : list (Settled ImageResponse.t)) (d : option string),
    World.imageAnswers w = Resolves response :: rest ->
    firstInlineData (responseParts response) = Some d ->
    exists (v' : Visualizer.t) (item : ImageHistoryItem.t),
      fst (handleGenerateMainVisual DateNow concept productImages currentMode
             overrideRatio v s w)
      = Returned (v', addHistoryImage item s)
      /\ item
         = ImageHistoryItem.mk (N_toString (DateNow 0))
             ("data:image/png;base64," ++ interpolate d)%string
             (SceneConcept.visualPrompt concept)
             (SceneConcept.productName concept)
             (SceneConcept.creativeDirection concept)
             (SceneConcept.title concept)
             (SceneConcept.id concept)
             (DateNow 1)
             (Some currentMode)
      /\ currentHistoryImages (App.historyImages (addHistoryImage item s))
           concept currentMode
         = item :: currentHistoryImages (App.historyImages s) concept currentMode
      /\ activeImage v' (App.historyImages (addHistoryImage item s))
           concept currentMode = Some item
      /\ App.generatedImage (addHistoryImage item s)
         = Some (ImageHistoryItem.base64 item)
      /\ Visualizer.loading v' = false
      /\ (forall otherConcept otherMode,
            SceneConcept.id otherConcept <> SceneConcept.id concept
            \/ otherMode <> currentMode ->
            currentHistoryImages (App.historyImages (addHistoryImage item s))
              otherConcept otherMode
            = currentHistoryImages (App.historyImages s)
                otherConcept otherMode).
Proof.
  intros DateNow concept productImages currentMode overrideRatio v s w
    response rest d Hq Hd.
  unfold handleGenerateMainVisual. cbv zeta.
  rewrite tryCatch_bind_ret. cbn [fst].
  rewrite generateSceneImage_outcome, Hq. unfold imageOutcome. rewrite Hd.
  eexists. eexists. split; [reflexivity|]. split; [reflexivity|].
  split; [apply currentHistoryImages_cons_same; reflexivity|].
  split.
  - unfold activeImage. simpl App.historyImages.
    rewrite currentHistoryImages_cons_same by reflexivity.
    simpl. rewrite String.eqb_refl. reflexivity.
  - split; [reflexivity|]. split; [reflexivity|].
    intros otherConcept otherMode Hother.
    apply currentHistoryImages_cons_other. simpl.
    destruct Hother as [H | H]; [left; congruence | right; congruence].
Qed.

Lemma main_visual_enters_the_current_view_witness :
  exists (v' : Visualizer.t) (item : ImageHistoryItem.t),
    fst (handleGenerateMainVisual (fun k => 1700000001000%N) juicerConcept
           None video None Visualizer.initial
           (onSelect juicerConcept App.initial) worldWithOneImage)
    = Returned (v', addHistoryImage item (onSelect juicerConcept App.initial))
    /\ ImageHistoryItem.base64 item = "data:image/png;base64,AAAA"
    /\ Visualizer.activeImageId v' = Some "1700000001000".
Proof.
  destruct (main_visual_enters_the_current_view
              (fun k => 1700000001000%N) juicerConcept None video None
              Visualizer.initial (onSelect juicerConcept App.initial)
              worldWithOneImage
              (ImageResponse.mk
                 (Some [Candidate.mk
                          (Some [ResponsePart.mk (Some (Some "AAAA")) None])]))
              [] (Some "AAAA") eq_refl eq_refl)
    as (v' & item & Hrun & Hitem & _ & Hactive & _).
  exists v', item. split; [exact Hrun|]. split.
  - rewrite Hitem. reflexivity.
  - unfold activeImage in Hactive. rewrite Hitem in Hactive.
    simpl in Hrun. injection Hrun as Hv _. rewrite <- Hv. reflexivity.
Defined.

Lemma bind_ret_snd {A B} (m : Async A) (f : A -> B) (w : World.t) :
  snd ((x <- m ;; ret (f x)) w) = snd (m w).
Proof.
  unfold bind, ret. destruct (m w) as [[x | e |] w']; reflexivity.
Qed.

Lemma bind_ret_fst {A B} (m : Async A) (f : A -> B) (w : World.t) :
  fst ((x <- m ;; ret (f x)) w)
  = match fst (m w) with
    | Returned x => Returned (f x)
    | Thrown e => Thrown e
    | Pending => Pending
    end.
Proof.
  unfold bind, ret. destruct (m w) as [[x | e |] w']; reflexivity.
Qed.

(** X13.  Changing the aspect ratio regenerates the main visual with the
    new ratio: [handleRatioChange] issues one image request, whose
    configuration carries the new ratio and not the one of the state it
    was called in, and when it returns the aspect ratio of the component
    is the new one. *)
Theorem ratio_change_regenerates_with_the_new_ratio :
  forall (DateNow : nat -> N) (concept : SceneConcept.t)
         (productImages : option (list string)) (currentMode : AppMode)
         (newRatio : string) (v : Visualizer.t) (s : App.t) (w : World.t),
    newRatio <> "" ->
    (exists key model contents imageSize,
        World.calls
          (snd (handleRatioChange DateNow concept productImages currentMode
                  newRatio v s w))
        = World.calls w
          ++ [GenerateContent key
                (GenerateContentParameters.mk model contents
                   (ImageConfig newRatio imageSize))])
    /\ (forall v' s',
          fst (handleRatioChange DateNow concept productImages currentMode
                 newRatio v s w) = Returned (v', s') ->
          Visualizer.aspectRatio v' = newRatio)
    /\ (forall e,
          fst (handleRatioChange DateNow concept productImages currentMode
                 newRatio v s w) <> Thrown e).
Proof.
  intros DateNow concept productImages currentMode newRatio v s w Hratio.
  assert (Htruthy : truthy (Some newRatio) = true).
  { destruct newRatio; [contradiction | reflexivity]. }
  unfold handleRatioChange, handleGenerateMainVisual. cbv zeta.
  rewrite Htruthy. cbn [interpolate].
  split; [|split].
  - rewrite bind_ret_snd, tryCatch_bind_ret. cbn [snd].
    rewrite generateSceneImage_calls. do 4 eexists. reflexivity.
  - intros v' s'. rewrite bind_ret_fst, tryCatch_bind_ret. cbn [fst].
    destruct (fst (generateSceneImage (SceneConcept.visualPrompt concept)
                     productImages newRatio w));
      intros H; try discriminate; injection H as <- _; reflexivity.
  - intros e. rewrite bind_ret_fst, tryCatch_bind_ret. cbn [fst].
    destruct (fst (generateSceneImage (SceneConcept.visualPrompt concept)
                     productImages newRatio w)); discriminate.
Qed.

Lemma ratio_change_regenerates_with_the_new_ratio_witness :
  exists key model contents imageSize,
    World.calls
      (snd (handleRatioChange (fun k => 1700000001000%N) juicerConcept None
              video "16:9" Visualizer.initial
              (onSelect juicerConcept App.initial) worldWithOneImage))
    = [GenerateContent key
         (GenerateContentParameters.mk model contents
            (ImageConfig "16:9" imageSize))].
Proof.
  destruct (ratio_change_regenerates_with_the_new_ratio
              (fun k => 1700000001000%N) juicerConcept None video "16:9"
              Visualizer.initial (onSelect juicerConcept App.initial)
              worldWithOneImage) as (Hcalls & _).
  - discriminate.
  - exact Hcalls.
Defined.

(** X14.  [handleEdit] acts only on an image of the current view.  With
    no active image or with an empty instruction it does nothing: no
    request is issued and no state changes.  Otherwise the image it
    edits is an item of the history whose concept id and mode are the
    current ones, its payload is the first part of the one request
    issued, and when the provider answers with image data the edited
    image is put in front of the history with the prompt "Edit: " followed
    by the instruction and the lineage of the concept, becomes the active
    image, and the instruction and the uploaded reference are cleared. *)
Theorem edit_acts_on_an_image_of_the_current_view :
  forall (DateNow : nat -> N) (concept : SceneConcept.t) (currentMode : AppMode)
         (v : Visualizer.t) (s : App.t) (w : World.t),
    (activeImage v (App.historyImages s) concept currentMode = None
     \/ Visualizer.editInstruction v = "" ->
     handleEdit DateNow concept currentMode v s w = (Returned (v, s), w))
    /\ forall active,
        activeImage v (App.historyImages s) concept currentMode = Some active ->
        Visualizer.editInstruction v <> "" ->
        In active (App.historyImages s)
        /\ ImageHistoryItem.conceptId active = SceneConcept.id concept
        /\ ImageHistoryItem.mode active = Some currentMode
        /\ (exists key model parts config,
              World.calls (snd (handleEdit DateNow concept currentMode v s w))
              = World.calls w
                ++ [GenerateContent key
                      (GenerateContentParameters.mk model
                         (PartsContents
                            (InlineDataPart "image/png"
                               (stripDataUrl (ImageHistoryItem.base64 active))
                             :: parts))
                         config)])
        /\ (forall response rest d,
              World.imageAnswers w = Resolves response :: rest ->
              firstInlineData (responseParts response) = Some d ->
              exists v',
                fst (handleEdit DateNow concept currentMode v s w)
                = Returned
                    (v',
                     addHistoryImage
                       (ImageHistoryItem.mk (N_toString (DateNow 0))
                          ("data:image/png;base64," ++ interpolate d)%string
                          ("Edit: " ++ Visualizer.editInstruction v)%string
                          (SceneConcept.productName concept)
                          (SceneConcept.creativeDirection concept)
                          (SceneConcept.title concept)
                          (SceneConcept.id concept)
                          (DateNow 1)
                          (Some currentMode))
                       s)
                /\ Visualizer.activeImageId v' = Some (N_toString (DateNow 0))
                /\ Visualizer.editInstruction v' = ""
                /\ Visualizer.uploadRefImage v' = None
                /\ Visualizer.loading v' = false).
Proof.
  intros DateNow concept currentMode v s w. split.
  - intros [Hnone | Hempty]; unfold handleEdit.
    + rewrite Hnone. reflexivity.
    + rewrite Hempty.
      destruct (activeImage v (App.historyImages s) concept currentMode);
        reflexivity.
  - intros active Hactive Hinstruction.
    assert (Htruthy : truthy (Some (Visualizer.editInstruction v)) = true).
    { destruct (Visualizer.editInstruction v); [contradiction | reflexivity]. }
    pose proof Hactive as Hfound. unfold activeImage in Hfound.
    apply find_some in Hfound. destruct Hfound as (Hin & _).
    apply currentHistoryImages_spec in Hin. destruct Hin as (Hin & Hid & Hmode).
    split; [exact Hin|]. split; [exact Hid|]. split; [exact Hmode|].
    unfold handleEdit. rewrite Hactive, Htruthy. cbn [negb]. cbv zeta.
    rewrite tryCatch_bind_ret. cbn [fst snd]. split.
    + destruct w as [cfg env ca sa ia va pa cs].
      rewrite editSceneImage_world. cbn [snd World.calls].
      unfold editCallFor, editParts. do 4 eexists. reflexivity.
    + intros response rest d Hq Hd.
      rewrite editSceneImage_outcome, Hq. unfold imageOutcome. rewrite Hd.
      eexists. split; [reflexivity|]. repeat split.
Qed.

Lemma edit_acts_on_an_image_of_the_current_view_witness :
  In juicerImage (App.historyImages appWithJuicerImage)
  /\ exists v',
      fst (handleEdit (fun k => 1700000002000%N) juicerConcept video
             visualizerOnJuicerImage appWithJuicerImage worldWithOneImage)
      = Returned
          (v',
           addHistoryImage
             (ImageHistoryItem.mk "1700000002000" "data:image/png;base64,AAAA"
                "Edit: add neon lighting" "Compact Juicer" "emotional"
                "Morning ritual" (SceneConcept.id juicerConcept)
                1700000002000 (Some video))
             appWithJuicerImage)
      /\ Visualizer.editInstruction v' = "".
Proof.
  destruct (edit_acts_on_an_image_of_the_current_view
              (fun k => 1700000002000%N) juicerConcept video
              visualizerOnJuicerImage appWithJuicerImage worldWithOneImage)
    as (_ & H).
  destruct (H juicerImage eq_refl) as (Hin & _ & _ & _ & Hrun).
  - discriminate.
  - split; [exact Hin|].
    destruct (Hrun (ImageResponse.mk
                      (Some [Candidate.mk
                               (Some [ResponsePart.mk (Some (Some "AAAA"))
                                        None])]))
                [] (Some "AAAA") eq_refl eq_refl)
      as (v' & Hfst & _ & Hcleared & _).
    exists v'. split; [exact Hfst | exact Hcleared].
Defined.

Lemma generateStoryboardShots_outcome baseImage storyboardScript
    referenceProductImages mode aspectRatio w parsed laterShotAnswers
    shotsConfig answers laterImageAnswers :
  World.shotAnswers w = parsed :: laterShotAnswers ->
  shotsOfAnswer parsed = Some shotsConfig ->
  World.imageAnswers w = answers ++ laterImageAnswers ->
  length answers = length shotsConfig ->
  fst (generateStoryboardShots baseImage storyboardScript
         referenceProductImages mode aspectRatio w)
  = Returned (survivors shotsConfig answers).
Proof.
  intros Hshots Hparsed Himages Hlen.
  rewrite (generateStoryboardShots_second_part baseImage storyboardScript
             referenceProductImages mode aspectRatio w parsed
             laterShotAnswers shotsConfig Hshots Hparsed).
  match goal with
  | |- context [renderShots _ _ _ _ ?w1] =>
      destruct (renderShots_run baseImage referenceProductImages aspectRatio
                  shotsConfig w1 answers laterImageAnswers)
        as (w' & -> & _);
      [destruct w; exact Himages | exact Hlen | reflexivity]
  end.
Qed.

Lemma addShotsToHistory_images DateNow Random concept currentMode :
  forall shots k s,
    App.historyImages
      (addShotsToHistory DateNow Random concept currentMode shots k s)
    = rev (mapIndexFrom k (storyboardItem DateNow Random concept currentMode)
             shots)
      ++ App.historyImages s.
Proof.
  induction shots as [|shot shots IH]; intros k s; simpl; [reflexivity|].
  rewrite IH. simpl. rewrite <- app_assoc. reflexivity.
Qed.

Lemma addShotsToHistory_active DateNow Random concept currentMode :
  forall shots k s,
    App.generatedImage
      (addShotsToHistory DateNow Random concept currentMode shots k s)
    = match rev shots with
      | lastShot :: _ => Some (StoryboardShot.base64 lastShot)
      | [] => App.generatedImage s
      end.
Proof.
  induction shots as [|shot shots IH]; intros k s; simpl; [reflexivity|].
  rewrite IH. simpl.
  destruct (rev shots) as [|lastShot l]; reflexivity.
Qed.

Lemma addShotsToHistory_frame DateNow Random concept currentMode :
  forall shots k s,
    App.historyConcepts
      (addShotsToHistory DateNow Random concept currentMode shots k s)
    = App.historyConcepts s
    /\ App.historyVideos
         (addShotsToHistory DateNow Random concept currentMode shots k s)
       = App.historyVideos s
    /\ App.selectedConcept
         (addShotsToHistory DateNow Random concept currentMode shots k s)
       = App.selectedConcept s.
Proof.
  induction shots as [|shot shots IH]; intros k s; simpl; [auto|].
  destruct (IH (S k)
              (addHistoryImage
                 (storyboardItem DateNow Random concept currentMode shot k) s))
    as (Hc & Hv & Hs).
  rewrite Hc, Hv, Hs. auto.
Qed.

Lemma currentHistoryImages_app l1 l2 concept currentMode :
  currentHistoryImages (l1 ++ l2) concept currentMode
  = currentHistoryImages l1 concept currentMode
    ++ currentHistoryImages l2 concept currentMode.
Proof. apply filter_app. Qed.

Lemma storyboardItems_in_view DateNow Random concept currentMode shots :
  forall k,
    currentHistoryImages
      (rev (mapIndexFrom k (storyboardItem DateNow Random concept currentMode)
              shots))
      concept currentMode
    = rev (mapIndexFrom k (storyboardItem DateNow Random concept currentMode)
             shots).
Proof.
  induction shots as [|shot shots IH]; intros k; simpl; [reflexivity|].
  rewrite currentHistoryImages_app, IH. f_equal.
  apply currentHistoryImages_cons_same; reflexivity.
Qed.

(** X15.  The shots of a storyboard run go into the history.  When an
    image is active, the first part of the decomposition hands on
    descriptors and the calls settle, [handleConfirmAndGenerateStoryboard]
    returns with the scene confirmed, the rendered shots as the storyboard
    of the component, and one new history item for each rendered shot,
    each put in front of the previous one, so that the image history
    starts with the items of the shots in reverse order; the item of a
    shot carries its payload, the prompt "Storyboard: " followed by its
    label, and the lineage of the concept with the current mode, so all
    of them are in the strict view of this concept and mode.  The active
    image of [App] is then the payload of the last shot (it is unchanged
    when no shot was rendered); the other histories are unchanged. *)
Theorem storyboard_shots_go_into_history :
  forall (DateNow : nat -> N) (Random : nat -> string) (concept : SceneConcept.t)
         (productImages : option (list string)) (currentMode : AppMode)
         (v : Visualizer.t) (s : App.t) (w : World.t)
         (active : ImageHistoryItem.t)
         (parsed : Settled (ResponseText (Parsed ShotConfig.t)))
         (laterShotAnswers : list (Settled (ResponseText (Parsed ShotConfig.t))))
         (shotsConfig : list ShotConfig.t)
         (answers laterImageAnswers : list (Settled ImageResponse.t)),
    activeImage v (App.historyImages s) concept currentMode = Some active ->
    World.shotAnswers w = parsed :: laterShotAnswers ->
    shotsOfAnswer parsed = Some shotsConfig ->
    World.imageAnswers w = answers ++ laterImageAnswers ->
    length answers = length shotsConfig ->
    exists (v' : Visualizer.t) (s' : App.t),
      fst (handleConfirmAndGenerateStoryboard DateNow Random concept
             productImages currentMode v s w) = Returned (v', s')
      /\ Visualizer.storyboardShots v' = survivors shotsConfig answers
      /\ Visualizer.isSceneConfirmed v' = true
      /\ Visualizer.generatingStoryboard v' = false
      /\ App.historyImages s'
         = rev (mapIndexFrom 0
                  (fun shot k =>
                     ImageHistoryItem.mk
                       (N_toString (DateNow (2 * k)) ++ Random k)%string
                       (StoryboardShot.base64 shot)
                       ("Storyboard: " ++ StoryboardShot.label shot)%string
                       (SceneConcept.productName concept)
                       (SceneConcept.creativeDirection concept)
                       (SceneConcept.title concept)
                       (SceneConcept.id concept)
                       (DateNow (2 * k + 1))
                       (Some currentMode))
                  (survivors shotsConfig answers))
           ++ App.historyImages s
      /\ length (currentHistoryImages (App.historyImages s') concept currentMode)
         = length (survivors shotsConfig answers)
           + length (currentHistoryImages (App.historyImages s)
                       concept currentMode)
      /\ App.generatedImage s'
         = match rev (survivors shotsConfig answers) with
           | lastShot :: _ => Some (StoryboardShot.base64 lastShot)
           | [] => App.generatedImage s
           end
      /\ App.historyConcepts s' = App.historyConcepts s
      /\ App.historyVideos s' = App.historyVideos s.
Proof.
  intros DateNow Random concept productImages currentMode v s w active parsed
    laterShotAnswers shotsConfig answers laterImageAnswers Hactive Hshots
    Hparsed Himages Hlen.
  unfold handleConfirmAndGenerateStoryboard. rewrite Hactive. cbv zeta.
  rewrite tryCatch_bind_ret. cbn [fst].
  rewrite (generateStoryboardShots_outcome _ _ _ _ _ w parsed laterShotAnswers
             shotsConfig answers laterImageAnswers Hshots Hparsed Himages
             Hlen).
  eexists. eexists. split; [reflexivity|].
  split; [reflexivity|]. split; [reflexivity|]. split; [reflexivity|].
  split; [apply addShotsToHistory_images|]. split.
  - rewrite addShotsToHistory_images, currentHistoryImages_app.
    rewrite storyboardItems_in_view, length_app, length_rev.
    rewrite mapIndexFrom_length. reflexivity.
  - split; [apply addShotsToHistory_active|].
    destruct (addShotsToHistory_frame DateNow Random concept currentMode
                (survivors shotsConfig answers) 0 s)
      as (Hc & Hv & _).
    split; assumption.
Qed.

Lemma storyboard_shots_go_into_history_witness :
  exists (v' : Visualizer.t) (s' : App.t),
    fst (handleConfirmAndGenerateStoryboard (fun k => 1700000003000%N)
           (fun k => "0.5") juicerConcept None video visualizerOnJuicerImage
           appWithJuicerImage worldWithSecondEditFailing) = Returned (v', s')
    /\ length (Visualizer.storyboardShots v') = 3
    /\ length (App.historyImages s') = 4
    /\ App.generatedImage s' = Some "data:image/png;base64,DDDD".
Proof.
  destruct (storyboard_shots_go_into_history
              (fun k => 1700000003000%N) (fun k => "0.5") juicerConcept None
              video visualizerOnJuicerImage appWithJuicerImage
              worldWithSecondEditFailing juicerImage
              (Rejects (Error "503 overloaded")) [] defaultShots
              [imageAnswer "AAAA"; Rejects (Error "500 internal");
               imageAnswer "CCCC"; imageAnswer "DDDD"] []
              eq_refl eq_refl eq_refl eq_refl eq_refl)
    as (v' & s' & Hrun & Hshots & _ & _ & Himages & _ & Hactive & _).
  exists v', s'. split; [exact Hrun|]. split; [|split].
  - rewrite Hshots. reflexivity.
  - rewrite Himages. reflexivity.
  - rewrite Hactive. reflexivity.
Defined.

Lemma replaceShot_length base64 instruction :
  forall shots index,
    length (replaceShot index base64 instruction shots) = length shots.
Proof.
  induction shots as [|shot shots IH]; intros [|index]; simpl; auto.
Qed.

Lemma replaceShot_at base64 instruction :
  forall shots index shot,
    nth_error shots index = Some shot ->
    nth_error (replaceShot index base64 instruction shots) index
    = Some (StoryboardShot.mk (StoryboardShot.label shot) base64 instruction).
Proof.
  induction shots as [|first shots IH]; intros [|index] shot H; simpl in *;
    try discriminate.
  - injection H as ->. reflexivity.
  - apply IH. assumption.
Qed.

Lemma replaceShot_elsewhere base64 instruction :
  forall shots index j,
    j <> index ->
    nth_error (replaceShot index base64 instruction shots) j
    = nth_error shots j.
Proof.
  induction shots as [|first shots IH]; intros [|index] [|j] H; simpl;
    try reflexivity.
  - contradiction.
  - apply IH. congruence.
Qed.

(** X16.  Regenerating one shot replaces its payload in place and adds
    to the history.  For a displayed shot, with an active image and an
    edit answered with image data, [handleRegenerateShot] returns with
    no alert; the storyboard keeps its length, the shot at the index
    keeps its label and takes the new payload and the edited
    instruction, the other shots are unchanged; the image history is the
    previous one with one item in front, whose payload is the new one and
    whose prompt is "Regen Storyboard: " followed by the label, so the
    item of the shot replaced is still in the history. *)
Theorem regenerated_shot_is_replaced_in_place :
  forall (DateNow : nat -> N) (Random : nat -> string) (concept : SceneConcept.t)
         (productImages : option (list string)) (currentMode : AppMode)
         (index : nat) (v : Visualizer.t) (s : App.t) (w : World.t)
         (shot : StoryboardShot.t) (active : ImageHistoryItem.t)
         (response : ImageResponse.t) (rest : list (Settled ImageResponse.t))
         (d : option string),
    nth_error (Visualizer.storyboardShots v) index = Some shot ->
    activeImage v (App.historyImages s) concept currentMode = Some active ->
    World.imageAnswers w = Resolves response :: rest ->
    firstInlineData (responseParts response) = Some d ->
    exists (run : Async (Visualizer.t * App.t * bool))
           (v' : Visualizer.t) (s' : App.t),
      handleRegenerateShot DateNow Random concept productImages currentMode
        index v s = Some run
      /\ fst (run w) = Returned (v', s', false)
      /\ length (Visualizer.storyboardShots v')
         = length (Visualizer.storyboardShots v)
      /\ nth_error (Visualizer.storyboardShots v') index
         = Some (StoryboardShot.mk (StoryboardShot.label shot)
                   ("data:image/png;base64," ++ interpolate d)%string
                   (Visualizer.tempInstruction v))
      /\ (forall j, j <> index ->
            nth_error (Visualizer.storyboardShots v') j
            = nth_error (Visualizer.storyboardShots v) j)
      /\ App.historyImages s'
         = ImageHistoryItem.mk (N_toString (DateNow 0) ++ Random 0)%string
             ("data:image/png;base64," ++ interpolate d)%string
             ("Regen Storyboard: " ++ StoryboardShot.label shot)%string
             (SceneConcept.productName concept)
             (SceneConcept.creativeDirection concept)
             (SceneConcept.title concept)
             (SceneConcept.id concept)
             (DateNow 1)
             (Some currentMode)
           :: App.historyImages s
      /\ Visualizer.regeneratingShotIdx v' = None
      /\ Visualizer.editingShotIdx v' = None.
Proof.
  intros DateNow Random concept productImages currentMode index v s w shot
    active response rest d Hshot Hactive Hq Hd.
  unfold handleRegenerateShot. rewrite Hshot, Hactive. cbv zeta.
  eexists. eexists. eexists. split; [reflexivity|].
  rewrite tryCatch_bind_ret. cbn [fst].
  rewrite editSceneImage_outcome, Hq. unfold imageOutcome. rewrite Hd.
  split; [reflexivity|]. cbn.
  split; [apply replaceShot_length|].
  split; [apply replaceShot_at; exact Hshot|].
  split; [intros j Hj; apply replaceShot_elsewhere; exact Hj|].
  repeat split.
Qed.

Lemma regenerated_shot_is_replaced_in_place_witness :
  exists (run : Async (Visualizer.t * App.t * bool))
         (v' : Visualizer.t) (s' : App.t),
    handleRegenerateShot (fun k => 1700000004000%N) (fun k => "0.25")
      juicerConcept None video 1 visualizerWithShots appWithJuicerImage
    = Some run
    /\ fst (run worldWithOneImage) = Returned (v', s', false)
    /\ nth_error (Visualizer.storyboardShots v') 1
       = Some (StoryboardShot.mk "Detail" "data:image/png;base64,AAAA"
                 "Macro close-up, warmer light")
    /\ length (App.historyImages s') = 2.
Proof.
  destruct (regenerated_shot_is_replaced_in_place
              (fun k => 1700000004000%N) (fun k => "0.25") juicerConcept None
              video 1 visualizerWithShots appWithJuicerImage worldWithOneImage
              (StoryboardShot.mk "Detail" "data:image/png;base64,OLD2"
                 "Macro close-up of the control dial.")
              juicerImage
              (ImageResponse.mk
                 (Some [Candidate.mk
                          (Some [ResponsePart.mk (Some (Some "AAAA")) None])]))
              [] (Some "AAAA") eq_refl eq_refl eq_refl eq_refl)
    as (run & v' & s' & Hsome & Hrun & _ & Hat & _ & Himages & _).
  exists run, v', s'. split; [exact Hsome|]. split; [exact Hrun|].
  split; [exact Hat|]. rewrite Himages. reflexivity.
Defined.



(* ================================================================== *)
(** * Properties of StepProduction *)
(* ================================================================== *)

Lemma setHas_In (id : string) (ids : list string) :
  setHas id ids = true <-> In id ids.
Proof. apply existsb_eqb_In. Qed.

Lemma setDelete_In (id x : string) (ids : list string) :
  In x (setDelete id ids) <-> In x ids /\ x <> id.
Proof.
  unfold setDelete. rewrite filter_In, negb_true_iff, String.eqb_neq.
  reflexivity.
Qed.

Lemma setDelete_NoDup (id : string) (ids : list string) :
  NoDup ids -> NoDup (setDelete id ids).
Proof. apply NoDup_filter. Qed.

Lemma setDelete_length (id : string) (ids : list string) :
  length (setDelete id ids) <= length ids.
Proof. apply filter_length_le. Qed.

Lemma setAdd_NoDup (id : string) (ids : list string) :
  NoDup ids -> NoDup (setAdd id ids).
Proof.
  intros Hnd. unfold setAdd. destruct (setHas id ids) eqn:E; [assumption|].
  apply NoDup_app; [assumption | repeat constructor; intros [] |].
  intros x Hx [<- | []]. apply setHas_In in Hx. congruence.
Qed.

Lemma toggle_keeps_invariant (id : string) (ids : list string) :
  NoDup ids -> length ids <= 3 ->
  NoDup (fst (toggleImageSelection id ids))
  /\ length (fst (toggleImageSelection id ids)) <= 3.
Proof.
  intros Hnd Hlen. unfold toggleImageSelection.
  destruct (setHas id ids) eqn:Ehas; cbn [fst].
  - split; [apply setDelete_NoDup; assumption|].
    pose proof (setDelete_length id ids). lia.
  - destruct (Nat.leb 3 (length ids)) eqn:Efull; cbn [fst].
    + split; assumption.
    + apply Nat.leb_gt in Efull. split.
      * apply setAdd_NoDup. assumption.
      * unfold setAdd. rewrite Ehas, length_app. simpl. lia.
Qed.

(** X18.  At most three reference images are ever selected.  A click on
    a selected image deselects it; a click on another image selects it
    when fewer than three are selected, and otherwise changes nothing
    and shows an alert.  So, starting from a selection of at most three
    distinct ids (as the initial selection is), every series of clicks
    leaves a selection of at most three distinct ids. *)
Theorem selection_never_exceeds_three :
  forall (clicks : list string) (selectedImageIds : list string),
    NoDup selectedImageIds ->
    length selectedImageIds <= 3 ->
    NoDup (toggleAll clicks selectedImageIds)
    /\ length (toggleAll clicks selectedImageIds) <= 3
    /\ (forall id x,
          In id selectedImageIds ->
          (In x (fst (toggleImageSelection id selectedImageIds))
           <-> In x selectedImageIds /\ x <> id)
          /\ snd (toggleImageSelection id selectedImageIds) = None)
    /\ (forall id x,
          ~ In id selectedImageIds ->
          length selectedImageIds < 3 ->
          (In x (fst (toggleImageSelection id selectedImageIds))
           <-> In x selectedImageIds \/ x = id)
          /\ snd (toggleImageSelection id selectedImageIds) = None)
    /\ (forall id,
          ~ In id selectedImageIds ->
          length selectedImageIds = 3 ->
          fst (toggleImageSelection id selectedImageIds) = selectedImageIds
          /\ snd (toggleImageSelection id selectedImageIds) <> None).
Proof.
  intros clicks. 
  assert (Hall : forall selection,
             NoDup selection -> length selection <= 3 ->
             NoDup (toggleAll clicks selection)
             /\ length (toggleAll clicks selection) <= 3).
  { induction clicks as [|id clicks IH]; intros selection Hnd Hlen; simpl.
    - auto.
    - destruct (toggle_keeps_invariant id selection Hnd Hlen) as (Hnd' & Hlen').
      apply IH; assumption. }
  intros selectedImageIds Hnd Hlen.
  destruct (Hall selectedImageIds Hnd Hlen) as (H1 & H2).
  split; [exact H1|]. split; [exact H2|]. split; [|split].
  - intros id x Hin. unfold toggleImageSelection.
    apply setHas_In in Hin. rewrite Hin. simpl.
    split; [apply setDelete_In | reflexivity].
  - intros id x Hnotin Hroom. unfold toggleImageSelection.
    assert (Ehas : setHas id selectedImageIds = false).
    { destruct (setHas id selectedImageIds) eqn:E; [|reflexivity].
      apply setHas_In in E. contradiction. }
    rewrite Ehas.
    assert (Efull : Nat.leb 3 (length selectedImageIds) = false)
      by (apply Nat.leb_gt; assumption).
    rewrite Efull. simpl. unfold setAdd. rewrite Ehas.
    split; [|reflexivity].
    rewrite in_app_iff. simpl. split.
    + intros [H | [<- | []]]; auto.
    + intros [H | ->]; auto.
  - intros id Hnotin Hfull. unfold toggleImageSelection.
    assert (Ehas : setHas id selectedImageIds = false).
    { destruct (setHas id selectedImageIds) eqn:E; [|reflexivity].
      apply setHas_In in E. contradiction. }
    rewrite Ehas, Hfull. simpl. split; [reflexivity | discriminate].
Qed.

Lemma selection_never_exceeds_three_witness :
  NoDup (toggleAll ["a"; "b"; "c"; "d"; "a"; "d"] ["first"])
  /\ length (toggleAll ["a"; "b"; "c"; "d"; "a"; "d"] ["first"]) <= 3.
Proof.
  destruct (selection_never_exceeds_three
              ["a"; "b"; "c"; "d"; "a"; "d"] ["first"])
    as (Hnd & Hlen & _).
  - repeat constructor. intros [].
  - simpl. lia.
  - split; assumption.
Defined.

Lemma filter_map_NoDup {A B : Type} (key : A -> B) (keep : A -> bool) :
  forall items : list A,
    NoDup (map key items) -> NoDup (map key (filter keep items)).
Proof.
  intros items. induction items as [|a items IH]; simpl; intros Hnd;
    [constructor|].
  inversion Hnd as [|? ? Hnotin Hnd']; subst.
  destruct (keep a); simpl; [|apply IH; assumption].
  constructor; [|apply IH; assumption].
  intros Hin. apply Hnotin. apply in_map_iff in Hin.
  destruct Hin as (x & Hx & Hin). apply filter_In in Hin.
  apply in_map_iff. exists x. tauto.
Qed.

(** X19.  What the interface lets the user select is submitted in full.
    When the relevant images have distinct ids and at most three ids are
    selected, the images collected by [handleGenerateVideo] are at most
    three, each is the payload of an image of the history that belongs
    to the concept, is of video mode and has a selected id, and the
    request of [generateStoryVideo] carries all of them, in the order of
    the history: the cut at three images removes nothing. *)
Theorem selected_images_are_all_submitted :
  forall (script : string) (historyImages : list ImageHistoryItem.t)
         (concept : SceneConcept.t) (selectedImageIds : list string),
    NoDup (map ImageHistoryItem.id (relevantImages historyImages concept)) ->
    length selectedImageIds <= 3 ->
    length (selectedImgs (relevantImages historyImages concept)
              selectedImageIds) <= 3
    /\ GenerateVideosParameters.referenceImages
         (videoRequest script
            (selectedImgs (relevantImages historyImages concept)
               selectedImageIds))
       = (if isEmpty (selectedImgs (relevantImages historyImages concept)
                        selectedImageIds)
          then None
          else Some (map (fun img =>
                            ReferenceImage.mk (stripDataUrl img) "image/png")
                       (selectedImgs (relevantImages historyImages concept)
                          selectedImageIds)))
    /\ (forall payload,
          In payload (selectedImgs (relevantImages historyImages concept)
                        selectedImageIds) ->
          exists img,
            In img historyImages
            /\ ImageHistoryItem.base64 img = payload
            /\ ImageHistoryItem.conceptId img = SceneConcept.id concept
            /\ ImageHistoryItem.mode img = Some video
            /\ In (ImageHistoryItem.id img) selectedImageIds).
Proof.
  intros script historyImages concept selectedImageIds Hids Hlen.
  assert (Hcount :
            length (selectedImgs (relevantImages historyImages concept)
                      selectedImageIds) <= 3).
  { unfold selectedImgs. rewrite length_map.
    rewrite <- (length_map ImageHistoryItem.id).
    transitivity (length selectedImageIds); [|assumption].
    apply NoDup_incl_length.
    - apply filter_map_NoDup. assumption.
    - intros id Hin. apply in_map_iff in Hin.
      destruct Hin as (img & <- & Hin). apply filter_In in Hin.
      apply setHas_In. tauto. }
  split; [exact Hcount|]. split.
  - rewrite videoRequest_referenceImages.
    rewrite firstn_all2 by exact Hcount. reflexivity.
  - intros payload Hin. unfold selectedImgs in Hin.
    apply in_map_iff in Hin. destruct Hin as (img & Hpayload & Hin).
    apply filter_In in Hin. destruct Hin as (Hrel & Hsel).
    rewrite relevantImages_video in Hrel.
    apply currentHistoryImages_spec in Hrel.
    exists img. apply setHas_In in Hsel. tauto.
Qed.

Lemma selected_images_are_all_submitted_witness :
  selectedImgs (relevantImages (App.historyImages appWithJuicerImage)
                  juicerConcept)
    (Production.selectedImageIds productionOnJuicerImage)
  = ["data:image/png;base64,BASE"]
  /\ length (selectedImgs
               (relevantImages (App.historyImages appWithJuicerImage)
                  juicerConcept)
               (Production.selectedImageIds productionOnJuicerImage)) <= 3.
Proof.
  split; [reflexivity|].
  apply (selected_images_are_all_submitted "Fresh juice in ten seconds."
           (App.historyImages appWithJuicerImage) juicerConcept
           (Production.selectedImageIds productionOnJuicerImage)).
  - repeat constructor. intros [].
  - simpl. lia.
Defined.

Lemma generateStoryVideo_keeps_config script referenceImages w :
  World.currentConfig (snd (generateStoryVideo script referenceImages w))
  = World.currentConfig w
  /\ World.API_KEY (snd (generateStoryVideo script referenceImages w))
     = World.API_KEY w.
Proof.
  destruct w as [cfg env ca sa ia va pa cs].
  rewrite generateStoryVideo_world.
  destruct va as [|[submitted | e] va']; split; reflexivity.
Qed.

Lemma handleGenerateVideo_run DateNow concept p s b :
  Production.selectedImageIds p <> [] ->
  handleGenerateVideo DateNow concept p s b
  = let r :=
      generateStoryVideo (Production.currentScript p)
        (selectedImgs (relevantImages (App.historyImages s) concept)
           (Production.selectedImageIds p))
        (Browser.service b) in
    match fst r with
    | Returned uri =>
        let url :=
          (uri ++ "&key="
           ++ interpolate
                (keyInUse
                   (AppConfig.videoKey (World.currentConfig (Browser.service b)))
                   (World.API_KEY (Browser.service b))))%string in
        let b' :=
          Browser.mk (snd r) (tl (Browser.fetchAnswers b))
            (Browser.fetched b ++ [url]) in
        match Browser.fetchAnswers b with
        | [] => (Pending, b')
        | Resolves blobUrl :: _ =>
            (Returned
               (Production.mk
                  (Some (VideoHistoryItem.mk (N_toString (DateNow 0)) uri
                           blobUrl (SceneConcept.productName concept)
                           (SceneConcept.creativeDirection concept)
                           (SceneConcept.title concept) (DateNow 1)
                           (Some video)))
                  false ProductionDownloading (Production.hasKey p)
                  (Production.currentScript p)
                  (Production.selectedImageIds p),
                addHistoryVideo
                  (VideoHistoryItem.mk (N_toString (DateNow 0)) uri
                     blobUrl (SceneConcept.productName concept)
                     (SceneConcept.creativeDirection concept)
                     (SceneConcept.title concept) (DateNow 1)
                     (Some video)) s,
                None), b')
        | Rejects e :: _ =>
            (Returned (productionAfterFailure p e, s, None), b')
        end
    | Thrown e =>
        (Returned (productionAfterFailure p e, s, None),
         Browser.mk (snd r) (Browser.fetchAnswers b) (Browser.fetched b))
    | Pending =>
        (Pending,
         Browser.mk (snd r) (Browser.fetchAnswers b) (Browser.fetched b))
    end.
Proof.
  intros Hsel. unfold handleGenerateVideo.
  assert (Hguard : Nat.eqb (length (Production.selectedImageIds p)) 0 = false).
  { destruct (Production.selectedImageIds p); [contradiction | reflexivity]. }
  rewrite Hguard. cbv zeta.
  pose proof (generateStoryVideo_keeps_config (Production.currentScript p)
                (selectedImgs (relevantImages (App.historyImages s) concept)
                   (Production.selectedImageIds p)) (Browser.service b))
    as (Hcfg & Henv).
  unfold uiTryCatch, uiBind, liftAsync, fetchVideoUrl, uiBind, liftAsync,
    fetchObjectUrl, uiRet, getConfig, getEnvKey, productionAfterFailure.
  cbn [fst snd Browser.service Browser.fetchAnswers Browser.fetched].
  destruct (fst (generateStoryVideo (Production.currentScript p)
                   (selectedImgs (relevantImages (App.historyImages s) concept)
                      (Production.selectedImageIds p)) (Browser.service b)))
    as [uri | e |]; try reflexivity.
  cbn [fst snd Browser.service Browser.fetchAnswers Browser.fetched].
  rewrite orElse_keyInUse, Hcfg, Henv.
  destruct (Browser.fetchAnswers b) as [|[blobUrl | e] rest]; reflexivity.
Qed.

(** X20.  A video run that succeeds is recorded once, with the lineage
    of the concept.  When images are selected, [generateStoryVideo]
    returns a uri and the download succeeds, [handleGenerateVideo]
    returns without alert; the video history is the old one with the new
    video in front, the image and concept histories and the library are
    unchanged; the new video is the active video and carries the uri,
    the object url of the download, the product name, the direction and
    the title of the concept and the mode video; and the url downloaded
    is the uri followed by [&key=] and the video key in use. *)
Theorem video_run_records_the_video :
  forall (DateNow : nat -> N) (concept : SceneConcept.t)
         (p : Production.t) (s : App.t) (b : Browser.t)
         (uri blobUrl : string) (rest : list (Settled string)),
    Production.selectedImageIds p <> [] ->
    fst (generateStoryVideo (Production.currentScript p)
           (selectedImgs (relevantImages (App.historyImages s) concept)
              (Production.selectedImageIds p))
           (Browser.service b)) = Returned uri ->
    Browser.fetchAnswers b = Resolves blobUrl :: rest ->
    exists (newVideo : VideoHistoryItem.t) (p' : Production.t) (s' : App.t)
           (b' : Browser.t),
      handleGenerateVideo DateNow concept p s b
      = (Returned (p', s', None), b')
      /\ App.historyVideos s' = newVideo :: App.historyVideos s
      /\ App.historyImages s' = App.historyImages s
      /\ App.historyConcepts s' = App.historyConcepts s
      /\ App.libraryAssets s' = App.libraryAssets s
      /\ Production.activeVideo p' = Some newVideo
      /\ Production.loading p' = false
      /\ VideoHistoryItem.uri newVideo = uri
      /\ VideoHistoryItem.blobUrl newVideo = blobUrl
      /\ VideoHistoryItem.productName newVideo
         = SceneConcept.productName concept
      /\ VideoHistoryItem.creativeDirection newVideo
         = SceneConcept.creativeDirection concept
      /\ VideoHistoryItem.conceptTitle newVideo = SceneConcept.title concept
      /\ VideoHistoryItem.mode newVideo = Some video
      /\ Browser.fetched b'
         = Browser.fetched b
           ++ [(uri ++ "&key="
                ++ interpolate
                     (keyInUse
                        (AppConfig.videoKey
                           (World.currentConfig (Browser.service b)))
                        (World.API_KEY (Browser.service b))))%string]
      /\ Browser.fetchAnswers b' = rest.
Proof.
  intros DateNow concept p s b uri blobUrl rest Hsel Hrun Hfetch.
  rewrite (handleGenerateVideo_run DateNow concept p s b Hsel).
  cbv zeta. rewrite Hrun, Hfetch.
  eexists. eexists. eexists. eexists.
  split; [reflexivity|].
  repeat split; reflexivity.
Qed.

Lemma video_run_records_the_video_witness :
  exists (newVideo : VideoHistoryItem.t) (p' : Production.t) (s' : App.t)
         (b' : Browser.t),
    handleGenerateVideo (fun n => 1700000000000%N) juicerConcept
      productionOnJuicerImage appWithJuicerImage browserDoneAtThirdPoll
    = (Returned (p', s', None), b')
    /\ App.historyVideos s'
       = newVideo :: App.historyVideos appWithJuicerImage
    /\ VideoHistoryItem.uri newVideo = "https://video/1?alt=media"
    /\ Browser.fetched b' = ["https://video/1?alt=media&key=env-key"].
Proof.
  destruct (video_run_records_the_video (fun n => 1700000000000%N)
              juicerConcept productionOnJuicerImage appWithJuicerImage
              browserDoneAtThirdPoll "https://video/1?alt=media"
              "blob:https://app/1" [])
    as (newVideo & p' & s' & b' & Hrun & Hvideos & _ & _ & _ & _ & _
        & Huri & _ & _ & _ & _ & _ & Hfetched & _).
  - discriminate.
  - reflexivity.
  - reflexivity.
  - exists newVideo, p', s', b'. repeat split; assumption.
Defined.

(** X21.  A video run that fails is reported in the status and changes
    no history.  When images are selected and either
    [generateStoryVideo] throws [e], or it returns and the download is
    rejected with [e], [handleGenerateVideo] returns (it does not
    throw); the state of [App] and the active video are unchanged and
    loading is off; when the text of [e] holds
    [Requested entity was not found], [403] or [PERMISSION_DENIED] the
    key is marked as missing and the status asks for a key; otherwise
    the key flag is unchanged and the status carries the message of
    [e], or the default text when the message is empty. *)
Theorem video_run_failure_is_reported :
  forall (DateNow : nat -> N) (concept : SceneConcept.t)
         (p : Production.t) (s : App.t) (b : Browser.t) (e : JsError),
    Production.selectedImageIds p <> [] ->
    (fst (generateStoryVideo (Production.currentScript p)
            (selectedImgs (relevantImages (App.historyImages s) concept)
               (Production.selectedImageIds p))
            (Browser.service b)) = Thrown e
     \/ (exists uri rest,
           fst (generateStoryVideo (Production.currentScript p)
                  (selectedImgs (relevantImages (App.historyImages s) concept)
                     (Production.selectedImageIds p))
                  (Browser.service b)) = Returned uri
           /\ Browser.fetchAnswers b = Rejects e :: rest)) ->
    exists (p' : Production.t),
      fst (handleGenerateVideo DateNow concept p s b)
      = Returned (p', s, None)
      /\ Production.activeVideo p' = Production.activeVideo p
      /\ Production.loading p' = false
      /\ Production.selectedImageIds p' = Production.selectedImageIds p
      /\ Production.currentScript p' = Production.currentScript p
      /\ (isKeyError e = true ->
          Production.hasKey p' = false
          /\ Production.status p' = ProductionKeyRejected)
      /\ (isKeyError e = false ->
          Production.hasKey p' = Production.hasKey p
          /\ Production.status p' = ProductionFailed (messageOrUnknown e)).
Proof.
  intros DateNow concept p s b e Hsel Hfail.
  rewrite (handleGenerateVideo_run DateNow concept p s b Hsel). cbv zeta.
  exists (productionAfterFailure p e).
  split.
  - destruct Hfail as [Hrun | (uri & rest & Hrun & Hfetch)].
    + rewrite Hrun. reflexivity.
    + rewrite Hrun, Hfetch. reflexivity.
  - unfold productionAfterFailure.
    destruct (isKeyError e); repeat split; try reflexivity;
      intros; discriminate.
Qed.

Lemma video_run_failure_is_reported_witness :
  exists (p' : Production.t),
    fst (handleGenerateVideo (fun n => 1700000000000%N) juicerConcept
           productionOnJuicerImage appWithJuicerImage browserWithRejections)
    = Returned (p', appWithJuicerImage, None)
    /\ Production.hasKey p' = false.
Proof.
  destruct (video_run_failure_is_reported (fun n => 1700000000000%N)
              juicerConcept productionOnJuicerImage appWithJuicerImage
              browserWithRejections (Error "403 PERMISSION_DENIED"))
    as (p' & Hrun & _ & _ & _ & _ & Hkey & _).
  - discriminate.
  - left. reflexivity.
  - exists p'. split; [exact Hrun|]. apply Hkey. reflexivity.
Defined.

(** X22.  [handleGenerateVideo] never throws, and without a selected
    image it does nothing but alert: the state of the component, the
    state of [App] and the browser (the log of requests and downloads
    included) are as before.  And whenever it returns, loading is off or
    was never switched on, and the video history is the old one or the
    old one with one video in front. *)
Theorem handleGenerateVideo_never_throws :
  forall (DateNow : nat -> N) (concept : SceneConcept.t)
         (p : Production.t) (s : App.t) (b : Browser.t),
    (forall e, fst (handleGenerateVideo DateNow concept p s b) <> Thrown e)
    /\ (Production.selectedImageIds p = [] ->
        exists message,
          handleGenerateVideo DateNow concept p s b
          = (Returned (p, s, Some message), b))
    /\ (forall p' s' alert,
          fst (handleGenerateVideo DateNow concept p s b)
          = Returned (p', s', alert) ->
          (s' = s \/ exists newVideo, s' = addHistoryVideo newVideo s)
          /\ App.historyImages s' = App.historyImages s
          /\ App.historyConcepts s' = App.historyConcepts s
          /\ (Production.selectedImageIds p <> [] ->
              Production.loading p' = false)).
Proof.
  intros DateNow concept p s b.
  destruct (Production.selectedImageIds p) as [|id ids] eqn:Eids.
  - unfold handleGenerateVideo. rewrite Eids. cbn [length Nat.eqb].
    unfold uiRet. cbn [fst]. split; [discriminate|]. split.
    + intros _. eexists. reflexivity.
    + intros p' s' alert Heq. injection Heq as <- <- <-.
      split; [left; reflexivity|]. repeat split; try reflexivity.
      intros Hne. contradiction.
  - assert (Hsel : Production.selectedImageIds p <> [])
      by (rewrite Eids; discriminate).
    rewrite (handleGenerateVideo_run DateNow concept p s b Hsel). cbv zeta.
    destruct (fst (generateStoryVideo (Production.currentScript p)
                     (selectedImgs
                        (relevantImages (App.historyImages s) concept)
                        (Production.selectedImageIds p))
                     (Browser.service b))) as [uri | e |].
    + destruct (Browser.fetchAnswers b) as [|[blobUrl | e] rest]; cbn [fst];
        (split; [discriminate|]); (split; [discriminate|]);
        intros p' s' alert Heq; try discriminate;
        injection Heq as <- <- <-.
      * split; [right; eexists; reflexivity|].
        repeat split; reflexivity.
      * split; [left; reflexivity|]. repeat split; try reflexivity.
        intros _. unfold productionAfterFailure.
        destruct (isKeyError e); reflexivity.
    + cbn [fst]. split; [discriminate|]. split; [discriminate|].
      intros p' s' alert Heq. injection Heq as <- <- <-.
      split; [left; reflexivity|]. repeat split; try reflexivity.
      intros _. unfold productionAfterFailure.
      destruct (isKeyError e); reflexivity.
    + cbn [fst]. split; [discriminate|]. split; [discriminate|].
      intros p' s' alert Heq. discriminate.
Qed.

(* ================================================================== *)
(** * Properties of StepInput *)
(* ================================================================== *)

Lemma findIndex_None {A} (p : A -> bool) :
  forall l, findIndex p l = None -> Forall (fun x => p x = false) l.
Proof.
  induction l as [|x l IH]; simpl; intros H; [constructor|].
  destruct (p x) eqn:Epx; [discriminate|].
  destruct (findIndex p l); [discriminate|].
  constructor; [assumption | apply IH; reflexivity].
Qed.

Lemma findIndex_Some {A} (p : A -> bool) :
  forall l k,
    findIndex p l = Some k ->
    exists before x after,
      l = before ++ x :: after
      /\ length before = k
      /\ p x = true
      /\ Forall (fun y => p y = false) before.
Proof.
  induction l as [|x l IH]; simpl; intros k H; [discriminate|].
  destruct (p x) eqn:Epx.
  - injection H as <-. exists [], x, l. repeat split; auto.
  - destruct (findIndex p l) as [k'|] eqn:Efind; [|discriminate].
    injection H as <-.
    destruct (IH k' eq_refl) as (before & y & after & -> & Hlen & Hy & Hall).
    exists (x :: before), y, after. simpl. repeat split; auto.
Qed.

Lemma removeAt_middle {A} (before : list A) (x : A) (after : list A) :
  removeAt (length before) (before ++ x :: after) = before ++ after.
Proof.
  unfold removeAt.
  induction before as [|y before IH]; simpl; [reflexivity|].
  f_equal. exact IH.
Qed.

Lemma sameContent_content name description userImages item :
  sameContent name description userImages item = true
  <-> content item = (name, description, Some userImages).
Proof.
  unfold sameContent, content, sameImages.
  rewrite !andb_true_iff, !String.eqb_eq.
  destruct (ProductHistoryItem.userImages item) as [images|].
  - destruct (list_eq_dec string_dec images userImages) as [-> | Hne].
    + split; [intros [[-> ->] _]; reflexivity|].
      intros H. injection H as -> ->. auto.
    + split; [intros [_ H]; discriminate|].
      intros H. injection H as _ _ H. contradiction.
  - split; [intros [_ H]; discriminate | intros H; discriminate].
Qed.

(** The two ways [saveToHistory] updates the library. *)
Lemma saveUpdater_cases DateNow newItem name description userImages prev :
  (Forall (fun item =>
             sameContent name description userImages item = false) prev
   /\ saveUpdater DateNow newItem name description userImages prev
      = newItem :: prev)
  \/ (exists before item after,
        prev = before ++ item :: after
        /\ sameContent name description userImages item = true
        /\ Forall (fun other =>
                     sameContent name description userImages other = false)
             before
        /\ saveUpdater DateNow newItem name description userImages prev
           = withTimestamp (DateNow 2) item :: before ++ after).
Proof.
  unfold saveUpdater.
  destruct (findIndex (sameContent name description userImages) prev)
    as [k|] eqn:Efind.
  - right.
    destruct (findIndex_Some _ _ _ Efind)
      as (before & item & after & -> & <- & Hitem & Hbefore).
    exists before, item, after.
    rewrite nth_error_app2 by lia. rewrite Nat.sub_diag. simpl.
    rewrite removeAt_middle. auto.
  - left. split; [apply findIndex_None; assumption | reflexivity].
Qed.

Lemma content_withTimestamp now item :
  content (withTimestamp now item) = content item.
Proof. reflexivity. Qed.

Lemma content_togglePin item : content (togglePin item) = content item.
Proof. reflexivity. Qed.

Lemma saveUpdater_NoDup DateNow name description userImages prev :
  NoDup (map content prev) ->
  NoDup (map content
           (saveUpdater DateNow
              (ProductHistoryItem.mk (N_toString (DateNow 0)) name description
                 (Some userImages) (DateNow 1) false)
              name description userImages prev)).
Proof.
  intros Hnd.
  destruct (saveUpdater_cases DateNow
              (ProductHistoryItem.mk (N_toString (DateNow 0)) name description
                 (Some userImages) (DateNow 1) false)
              name description userImages prev)
    as [(Hnone & ->) | (before & item & after & -> & Hitem & _ & ->)].
  - simpl. constructor; [|assumption].
    intros Hin. apply in_map_iff in Hin. destruct Hin as (item & Hc & Hin).
    rewrite Forall_forall in Hnone. specialize (Hnone item Hin).
    cbv beta in Hnone.
    change (content item = (name, description, Some userImages)) in Hc.
    apply sameContent_content in Hc.
    rewrite Hc in Hnone. discriminate.
  - simpl. rewrite content_withTimestamp.
    apply (Permutation_NoDup (l := map content (before ++ item :: after)));
      [|assumption].
    rewrite !map_app. simpl. symmetry. apply Permutation_middle.
Qed.

Lemma pin_keeps_content id history :
  map content
    (map (fun item =>
            if String.eqb (ProductHistoryItem.id item) id
            then togglePin item else item) history)
  = map content history.
Proof.
  rewrite map_map. apply map_ext. intros item.
  destruct (String.eqb (ProductHistoryItem.id item) id); reflexivity.
Qed.

Lemma inputStep_NoDup i e :
  NoDup (map content (Input.history i)) ->
  NoDup (map content (Input.history (inputStep i e))).
Proof.
  intros Hnd.
  destruct e as [v | v | v | r | k | DateNow | row | row | row]; simpl;
    try assumption.
  - unfold handleSubmit.
    destruct (truthy (Some (Input.name i))
              && truthy (Some (Input.description i))
              && truthy (Some (Input.direction i))); simpl; [|assumption].
    apply saveUpdater_NoDup. assumption.
  - unfold onRow. destruct (nth_error _ row); assumption.
  - unfold onRow. destruct (nth_error _ row); [|assumption].
    simpl. rewrite pin_keeps_content. assumption.
  - unfold onRow. destruct (nth_error _ row); [|assumption].
    simpl. apply filter_map_NoDup. assumption.
Qed.

(** X23.  The product library never holds the same brief twice.  When
    no two entries of the library have the same name, description and
    images, this is still so after any series of edits of the form,
    submissions, and clicks on the rows of the library. *)
Theorem product_library_has_no_duplicate_content :
  forall (events : list InputEvent) (i : Input.t),
    NoDup (map content (Input.history i)) ->
    NoDup (map content (Input.history (inputRun events i))).
Proof.
  unfold inputRun.
  induction events as [|e events IH]; intros i Hnd; simpl; [assumption|].
  apply IH. apply inputStep_NoDup. assumption.
Qed.

Lemma product_library_has_no_duplicate_content_witness :
  NoDup (map content
           (Input.history
              (inputRun
                 [ClickSubmit (fun _ => 1700000009000%N);
                  TypeName "Fan"; TypeDescription "Desk fan";
                  ClickRemoveImage 0;
                  ClickSubmit (fun _ => 1700000010000%N);
                  ClickPin 0;
                  ClickSubmit (fun _ => 1700000011000%N)]
                 juicerFormWithLibrary)))
  /\ length (Input.history
               (inputRun
                  [ClickSubmit (fun _ => 1700000009000%N);
                   TypeName "Fan"; TypeDescription "Desk fan";
                   ClickRemoveImage 0;
                   ClickSubmit (fun _ => 1700000010000%N);
                   ClickPin 0;
                   ClickSubmit (fun _ => 1700000011000%N)]
                  juicerFormWithLibrary)) = 2.
Proof.
  split; [|reflexivity].
  apply product_library_has_no_duplicate_content.
  simpl. repeat constructor; simpl; intuition discriminate.
Defined.

(** X24.  Submitting a brief that is already in the library moves its
    entry to the front instead of adding one.  When the library has no
    duplicate and [item] is the entry with the name, the description
    and the images of the form, [saveToHistory] leaves the library with
    [item] in front, under a new timestamp and with its id and its pin
    kept, followed by the other entries in their order; the same list
    is stored. *)
Theorem resubmitted_brief_moves_to_the_front :
  forall (DateNow : nat -> N) (i : Input.t) (item : ProductHistoryItem.t),
    NoDup (map content (Input.history i)) ->
    In item (Input.history i) ->
    content item
    = (Input.name i, Input.description i, Some (Input.userImages i)) ->
    exists before after moved,
      Input.history i = before ++ item :: after
      /\ Input.history (saveToHistory DateNow i) = moved :: before ++ after
      /\ Input.localStorage (saveToHistory DateNow i)
         = Some (moved :: before ++ after)
      /\ content moved = content item
      /\ ProductHistoryItem.id moved = ProductHistoryItem.id item
      /\ ProductHistoryItem.isPinned moved = ProductHistoryItem.isPinned item
      /\ ProductHistoryItem.timestamp moved = DateNow 2
      /\ Input.userImages (saveToHistory DateNow i) = Input.userImages i.
Proof.
  intros DateNow i item Hnd Hin Hcontent.
  unfold saveToHistory. simpl.
  destruct (saveUpdater_cases DateNow
              (ProductHistoryItem.mk (N_toString (DateNow 0)) (Input.name i)
                 (Input.description i) (Some (Input.userImages i))
                 (DateNow 1) false)
              (Input.name i) (Input.description i) (Input.userImages i)
              (Input.history i))
    as [(Hnone & _) | (before & found & after & Hsplit & Hfound & _ & Hsave)].
  - rewrite Forall_forall in Hnone. specialize (Hnone item Hin).
    cbv beta in Hnone. apply sameContent_content in Hcontent.
    rewrite Hcontent in Hnone. discriminate.
  - assert (found = item) as ->.
    { apply sameContent_content in Hfound.
      assert (Hfin : In found (Input.history i))
        by (rewrite Hsplit; apply in_elt).
      destruct (In_nth _ _ found Hfin) as (a & Ha & Hna).
      destruct (In_nth _ _ found Hin) as (c & Hc & Hnc).
      rewrite NoDup_nth in Hnd.
      assert (a = c).
      { apply (Hnd a c); rewrite ?length_map; try assumption.
        rewrite !(map_nth content _ found) at 1.
        rewrite Hna, Hnc. congruence. }
      congruence. }
    rewrite Hsave.
    exists before, after, (withTimestamp (DateNow 2) item).
    repeat split; try reflexivity. assumption.
Qed.

Lemma resubmitted_brief_moves_to_the_front_witness :
  exists before after moved,
    Input.history juicerFormWithLibrary = before ++ juicerEntry :: after
    /\ Input.history (saveToHistory (fun _ => 1700000009000%N)
                        juicerFormWithLibrary)
       = moved :: before ++ after
    /\ Input.localStorage (saveToHistory (fun _ => 1700000009000%N)
                             juicerFormWithLibrary)
       = Some (moved :: before ++ after)
    /\ content moved = content juicerEntry
    /\ ProductHistoryItem.id moved = ProductHistoryItem.id juicerEntry
    /\ ProductHistoryItem.isPinned moved
       = ProductHistoryItem.isPinned juicerEntry
    /\ ProductHistoryItem.timestamp moved = 1700000009000%N
    /\ Input.userImages (saveToHistory (fun _ => 1700000009000%N)
                           juicerFormWithLibrary)
       = Input.userImages juicerFormWithLibrary.
Proof.
  apply (resubmitted_brief_moves_to_the_front (fun _ => 1700000009000%N)
           juicerFormWithLibrary juicerEntry).
  - simpl. repeat constructor; simpl; intuition discriminate.
  - simpl. auto.
  - reflexivity.
Defined.

Section SortedByComparator.

Variable A : Type.
Variable compare : A -> A -> comparison.
Variable before : A -> A -> Prop.

Hypothesis before_of_not_Gt : forall a b, compare a b <> Gt -> before a b.
Hypothesis before_of_Gt : forall a b, compare a b = Gt -> before b a.
Hypothesis before_trans : forall a b c, before a b -> before b c -> before a c.

Lemma insertSorted_sorted_by (x : A) :
  forall l,
    StronglySorted before l ->
    StronglySorted before (insertSorted compare x l).
Proof.
  induction l as [|y l IH]; intros Hs; simpl.
  - constructor; constructor.
  - inversion Hs as [|? ? Hs' Hall]; subst.
    destruct (compare x y) eqn:Exy.
    + constructor; [assumption|].
      assert (Hxy : before x y) by (apply before_of_not_Gt; congruence).
      constructor; [assumption|].
      eapply Forall_impl; [|exact Hall]. intros z Hz.
      exact (before_trans _ _ _ Hxy Hz).
    + constructor; [assumption|].
      assert (Hxy : before x y) by (apply before_of_not_Gt; congruence).
      constructor; [assumption|].
      eapply Forall_impl; [|exact Hall]. intros z Hz.
      exact (before_trans _ _ _ Hxy Hz).
    + constructor; [apply IH; assumption|].
      apply (Permutation_Forall
               (Permutation_sym (insertSorted_perm compare x l))).
      constructor; [apply before_of_Gt; assumption | assumption].
Qed.

Lemma sortWith_sorted_by (l : list A) :
  StronglySorted before (sortWith compare l).
Proof.
  induction l as [|x l IH]; simpl; [constructor|].
  apply insertSorted_sorted_by. assumption.
Qed.

End SortedByComparator.

Lemma rowBefore_of_not_Gt a b : pinnedThenNewest a b <> Gt -> rowBefore a b.
Proof.
  unfold pinnedThenNewest, rowBefore.
  destruct (ProductHistoryItem.isPinned a), (ProductHistoryItem.isPinned b);
    simpl; intros H; auto; try congruence;
    right; (split; [reflexivity|]);
    destruct (N.compare_spec (ProductHistoryItem.timestamp b)
                (ProductHistoryItem.timestamp a)); try congruence; lia.
Qed.

Lemma rowBefore_of_Gt a b : pinnedThenNewest a b = Gt -> rowBefore b a.
Proof.
  unfold pinnedThenNewest, rowBefore.
  destruct (ProductHistoryItem.isPinned a), (ProductHistoryItem.isPinned b);
    simpl; intros H; auto; try discriminate;
    right; (split; [reflexivity|]);
    destruct (N.compare_spec (ProductHistoryItem.timestamp b)
                (ProductHistoryItem.timestamp a)); try discriminate; lia.
Qed.

Lemma rowBefore_trans a b c : rowBefore a b -> rowBefore b c -> rowBefore a c.
Proof.
  unfold rowBefore.
  intros [[Ha Hb] | [Hab Ht]] [[Hb' Hc] | [Hbc Ht']].
  - congruence.
  - left. split; congruence.
  - left. split; congruence.
  - right. split; [congruence | lia].
Qed.

(** X25.  The rows of the product library are its entries, each once,
    with every pinned entry before every unpinned one and, among pinned
    and among unpinned entries, no entry before a newer one. *)
Theorem library_rows_pinned_first_then_newest :
  forall (history : list ProductHistoryItem.t),
    Permutation (sortedHistory history) history
    /\ StronglySorted rowBefore (sortedHistory history)
    /\ (forall before a between b after,
          sortedHistory history = before ++ a :: between ++ b :: after ->
          (ProductHistoryItem.isPinned b = true ->
           ProductHistoryItem.isPinned a = true)
          /\ (ProductHistoryItem.isPinned a = ProductHistoryItem.isPinned b ->
              (ProductHistoryItem.timestamp b
               <= ProductHistoryItem.timestamp a)%N)).
Proof.
  intros history.
  assert (Hsorted : StronglySorted rowBefore (sortedHistory history)).
  { apply (sortWith_sorted_by ProductHistoryItem.t pinnedThenNewest rowBefore).
    - exact rowBefore_of_not_Gt.
    - exact rowBefore_of_Gt.
    - exact rowBefore_trans. }
  split; [apply sortWith_perm|]. split; [exact Hsorted|].
  intros before a between b after Hsplit. rewrite Hsplit in Hsorted.
  assert (Hab : rowBefore a b).
  { clear Hsplit. induction before as [|x before IH]; simpl in Hsorted.
    - inversion Hsorted as [|? ? _ Hall]; subst.
      rewrite Forall_forall in Hall. apply Hall.
      apply in_or_app. right. left. reflexivity.
    - inversion Hsorted; subst. apply IH. assumption. }
  destruct Hab as [[Ha Hb] | [Hpin Ht]]; split; intros H;
    try congruence; assumption.
Qed.

Lemma filterIndexFrom_length {A} (index : nat) :
  forall (l : list A) start,
    length (filterIndexFrom start index l) <= length l.
Proof.
  induction l as [|x l IH]; intros start; simpl; [lia|].
  specialize (IH (S start)).
  destruct (Nat.eqb start index); simpl; lia.
Qed.

Lemma onloadend_length result prev :
  length prev <= MAX_IMAGES -> length (onloadend result prev) <= MAX_IMAGES.
Proof.
  unfold onloadend. intros H.
  destruct (Nat.leb MAX_IMAGES (length prev)) eqn:E; [assumption|].
  apply Nat.leb_gt in E. rewrite length_app. simpl. lia.
Qed.

Lemma imageCount_withTimestamp now item :
  imageCount (withTimestamp now item) = imageCount item.
Proof. reflexivity. Qed.

Lemma imageCount_togglePin item : imageCount (togglePin item) = imageCount item.
Proof. reflexivity. Qed.

Lemma inputStep_image_limit i e :
  length (Input.userImages i) <= MAX_IMAGES ->
  Forall (fun item => imageCount item <= MAX_IMAGES) (Input.history i) ->
  length (Input.userImages (inputStep i e)) <= MAX_IMAGES
  /\ Forall (fun item => imageCount item <= MAX_IMAGES)
       (Input.history (inputStep i e)).
Proof.
  intros Himages Hhistory.
  destruct e as [v | v | v | r | k | DateNow | row | row | row];
    cbn [inputStep]; try (split; assumption).
  - split; [|assumption]. cbn [Input.setUserImages Input.userImages].
    apply onloadend_length. assumption.
  - split; [|assumption].
    cbn [removeImage Input.setUserImages Input.userImages].
    pose proof (filterIndexFrom_length k (Input.userImages i) 0). lia.
  - unfold handleSubmit.
    destruct (truthy (Some (Input.name i))
              && truthy (Some (Input.description i))
              && truthy (Some (Input.direction i)));
      cbn [fst]; [|split; assumption].
    unfold saveToHistory.
    cbn [Input.setHistoryAndStore Input.userImages Input.history].
    split; [assumption|].
    destruct (saveUpdater_cases DateNow
                (ProductHistoryItem.mk (N_toString (DateNow 0)) (Input.name i)
                   (Input.description i) (Some (Input.userImages i))
                   (DateNow 1) false)
                (Input.name i) (Input.description i) (Input.userImages i)
                (Input.history i))
      as [(_ & ->) | (before & item & after & Hsplit & _ & _ & ->)].
    + constructor; assumption.
    + rewrite Hsplit in Hhistory.
      apply Forall_app in Hhistory. destruct Hhistory as (Hb & Ha).
      inversion Ha; subst.
      constructor; [rewrite imageCount_withTimestamp; assumption|].
      apply Forall_app. split; assumption.
  - unfold onRow.
    destruct (nth_error (sortedHistory (Input.history i)) row) as [item|]
      eqn:Erow; [|split; assumption].
    unfold handleApply.
    cbn [Input.setUserImages Input.setDescription Input.setName
         Input.userImages Input.history].
    split; [|assumption].
    apply nth_error_In in Erow.
    apply (Permutation_in _ (sortWith_perm pinnedThenNewest _)) in Erow.
    rewrite Forall_forall in Hhistory. specialize (Hhistory item Erow).
    unfold imageCount in Hhistory.
    destruct (ProductHistoryItem.userImages item); simpl; [assumption | lia].
  - unfold onRow.
    destruct (nth_error (sortedHistory (Input.history i)) row) as [item|];
      [|split; assumption].
    unfold handlePin.
    cbn [Input.setHistoryAndStore Input.userImages Input.history].
    split; [assumption|].
    apply Forall_map. eapply Forall_impl; [|exact Hhistory].
    intros other Hother.
    destruct (String.eqb (ProductHistoryItem.id other)
                (ProductHistoryItem.id item)); assumption.
  - unfold onRow.
    destruct (nth_error (sortedHistory (Input.history i)) row) as [item|];
      [|split; assumption].
    unfold handleDelete.
    cbn [Input.setHistoryAndStore Input.userImages Input.history].
    split; [assumption|].
    apply Forall_forall. intros other Hother. apply filter_In in Hother.
    rewrite Forall_forall in Hhistory. apply Hhistory. tauto.
Qed.

(** X26.  The form never holds more than four reference images.  When
    the form and every entry of the library hold at most [MAX_IMAGES]
    images, this is still so after any series of readers that end,
    removals, edits, submissions and clicks on the rows of the library,
    in any order. *)
Theorem form_never_holds_more_than_four_images :
  forall (events : list InputEvent) (i : Input.t),
    length (Input.userImages i) <= MAX_IMAGES ->
    Forall (fun item => imageCount item <= MAX_IMAGES) (Input.history i) ->
    length (Input.userImages (inputRun events i)) <= 4
    /\ Forall (fun item => imageCount item <= 4)
         (Input.history (inputRun events i)).
Proof.
  unfold inputRun.
  induction events as [|e events IH]; intros i Himages Hhistory; simpl.
  - split; assumption.
  - destruct (inputStep_image_limit i e Himages Hhistory) as (H1 & H2).
    apply IH; assumption.
Qed.

Lemma form_never_holds_more_than_four_images_witness :
  length (Input.userImages
            (inputRun
               [ReaderEnds "a"; ReaderEnds "b"; ReaderEnds "c";
                ReaderEnds "d"; ReaderEnds "e";
                ClickSubmit (fun _ => 1700000009000%N);
                ClickRemoveImage 1; ReaderEnds "f"; ClickApply 1]
               juicerFormWithLibrary)) <= 4
  /\ Input.userImages
       (inputRun
          [ReaderEnds "a"; ReaderEnds "b"; ReaderEnds "c";
           ReaderEnds "d"; ReaderEnds "e";
           ClickSubmit (fun _ => 1700000009000%N);
           ClickRemoveImage 1; ReaderEnds "f"]
          juicerFormWithLibrary)
     = ["data:image/png;base64,BASE"; "b"; "c"; "f"].
Proof.
  split; [|reflexivity].
  apply (form_never_holds_more_than_four_images
           [ReaderEnds "a"; ReaderEnds "b"; ReaderEnds "c";
            ReaderEnds "d"; ReaderEnds "e";
            ClickSubmit (fun _ => 1700000009000%N);
            ClickRemoveImage 1; ReaderEnds "f"; ClickApply 1]
           juicerFormWithLibrary).
  - simpl. unfold MAX_IMAGES. lia.
  - repeat constructor; simpl; unfold MAX_IMAGES; lia.
Defined.

Lemma readers_in_turn_append (results : list string) :
  forall prev,
    length prev + length results <= MAX_IMAGES ->
    fold_left (fun images result => onloadend result images) results prev
    = prev ++ results.
Proof.
  induction results as [|r results IH]; intros prev Hlen; simpl.
  - rewrite app_nil_r. reflexivity.
  - simpl in Hlen. unfold onloadend at 2.
    assert (E : Nat.leb MAX_IMAGES (length prev) = false)
      by (apply Nat.leb_gt; lia).
    rewrite E. rewrite IH.
    + rewrite <- app_assoc. reflexivity.
    + rewrite length_app. simpl. lia.
Qed.

(** X27.  An upload adds the files that fit.  When the form holds at
    most [MAX_IMAGES] images, [handleImageUpload] starts a reader for
    the first files that fit in the free slots and for no other; once
    these readers have ended in turn, the form holds its former images
    followed by the results for those files, and at most four images
    in all. *)
Theorem upload_adds_the_files_that_fit :
  forall (files : list string) (userImages : list string),
    length userImages <= MAX_IMAGES ->
    filesToProcess files userImages
    = firstn (MAX_IMAGES - length userImages) files
    /\ fold_left (fun images result => onloadend result images)
         (filesToProcess files userImages) userImages
       = userImages ++ firstn (MAX_IMAGES - length userImages) files
    /\ length (fold_left (fun images result => onloadend result images)
                 (filesToProcess files userImages) userImages)
       = Nat.min MAX_IMAGES (length userImages + length files).
Proof.
  intros files userImages Hlen.
  assert (Hfiles : filesToProcess files userImages
                   = firstn (MAX_IMAGES - length userImages) files).
  { unfold filesToProcess, sliceTo.
    destruct (Z.ltb_spec (Z.of_nat MAX_IMAGES - Z.of_nat (length userImages)) 0)
      as [Hneg | Hpos]; [lia|].
    f_equal. lia. }
  split; [exact Hfiles|].
  assert (Hrun : fold_left (fun images result => onloadend result images)
                   (filesToProcess files userImages) userImages
                 = userImages ++ firstn (MAX_IMAGES - length userImages) files).
  { rewrite Hfiles. apply readers_in_turn_append.
    pose proof (firstn_le_length (MAX_IMAGES - length userImages) files).
    rewrite length_firstn. lia. }
  split; [exact Hrun|].
  rewrite Hrun, length_app, length_firstn. lia.
Qed.

Lemma upload_adds_the_files_that_fit_witness :
  fold_left (fun images result => onloadend result images)
    (filesToProcess ["a"; "b"; "c"; "d"] ["x"; "y"]) ["x"; "y"]
  = ["x"; "y"; "a"; "b"].
Proof.
  apply (proj1 (proj2 (upload_adds_the_files_that_fit
                         ["a"; "b"; "c"; "d"] ["x"; "y"]
                         ltac:(simpl; unfold MAX_IMAGES; lia)))).
Defined.

(** X28.  Only a complete brief is submitted.  With an empty name,
    description or direction, [handleSubmit] changes nothing and does
    not call [onNext].  Otherwise [onNext] is given the three fields
    and the images of the form (no image list when the form has none),
    and the library, as displayed and as stored, has an entry with the
    name, the description and the images of the form in front: a new
    unpinned entry before the former library, or the former entry of
    that content taken from its place. *)
Theorem submit_needs_a_complete_brief :
  forall (DateNow : nat -> N) (i : Input.t),
    (Input.name i = "" \/ Input.description i = "" \/ Input.direction i = "" ->
     handleSubmit DateNow i = (i, None))
    /\ (Input.name i <> "" ->
        Input.description i <> "" ->
        Input.direction i <> "" ->
        exists entry rest,
          snd (handleSubmit DateNow i)
          = Some (ProductInfo.mk (Input.name i) (Input.description i)
                    (Input.direction i)
                    (match Input.userImages i with
                     | [] => None
                     | _ :: _ => Some (Input.userImages i)
                     end))
          /\ Input.history (fst (handleSubmit DateNow i)) = entry :: rest
          /\ Input.localStorage (fst (handleSubmit DateNow i))
             = Some (entry :: rest)
          /\ content entry
             = (Input.name i, Input.description i, Some (Input.userImages i))
          /\ ((rest = Input.history i
               /\ ProductHistoryItem.isPinned entry = false
               /\ ProductHistoryItem.id entry = N_toString (DateNow 0)
               /\ ProductHistoryItem.timestamp entry = DateNow 1)
              \/ (exists before old after,
                    Input.history i = before ++ old :: after
                    /\ rest = before ++ after
                    /\ entry = withTimestamp (DateNow 2) old))).
Proof.
  intros DateNow i. unfold handleSubmit. split.
  - intros [-> | [-> | ->]]; simpl; rewrite ?andb_false_r; reflexivity.
  - intros Hname Hdescription Hdirection.
    assert (Hguard : truthy (Some (Input.name i))
                     && truthy (Some (Input.description i))
                     && truthy (Some (Input.direction i)) = true).
    { destruct (Input.name i); [contradiction|].
      destruct (Input.description i); [contradiction|].
      destruct (Input.direction i); [contradiction|]. reflexivity. }
    rewrite Hguard. cbn [fst snd]. unfold saveToHistory.
    cbn [Input.setHistoryAndStore Input.history Input.localStorage].
    destruct (saveUpdater_cases DateNow
                (ProductHistoryItem.mk (N_toString (DateNow 0)) (Input.name i)
                   (Input.description i) (Some (Input.userImages i))
                   (DateNow 1) false)
                (Input.name i) (Input.description i) (Input.userImages i)
                (Input.history i))
      as [(_ & ->) | (before & old & after & Hsplit & Hold & _ & ->)].
    + eexists. eexists. split.
      { destruct (Input.userImages i); reflexivity. }
      split; [reflexivity|]. split; [reflexivity|]. split; [reflexivity|].
      left. repeat split; reflexivity.
    + eexists. eexists. split.
      { destruct (Input.userImages i); reflexivity. }
      split; [reflexivity|]. split; [reflexivity|]. split.
      { rewrite content_withTimestamp. apply sameContent_content. exact Hold. }
      right. exists before, old, after. repeat split. exact Hsplit.
Qed.

(* ================================================================== *)
(** * Properties of the asset library *)
(* ================================================================== *)

Lemma handleAddToLibrary_columns now1 now2 type content mode title prompt
    productName conceptTitle filterMode s :
  let newAsset :=
    LibraryAsset.mk (N_toString now1) type content now2
      (Some (AssetMeta.mk title prompt (Some mode) productName conceptTitle)) in
  let s' :=
    handleAddToLibrary now1 now2 type content
      (Some (AssetMeta.mk title prompt (Some mode) productName conceptTitle))
      s in
  let shown (t : AssetType) :=
    if shows filterMode mode && AssetType_eqb type t
    then [newAsset] else [] in
  App.libraryAssets s' = newAsset :: App.libraryAssets s
  /\ AssetLibraryModal.concepts filterMode (App.libraryAssets s')
     = shown concept_asset
       ++ AssetLibraryModal.concepts filterMode (App.libraryAssets s)
  /\ AssetLibraryModal.images filterMode (App.libraryAssets s')
     = shown image_asset
       ++ AssetLibraryModal.images filterMode (App.libraryAssets s)
  /\ AssetLibraryModal.videos filterMode (App.libraryAssets s')
     = shown video_asset
       ++ AssetLibraryModal.videos filterMode (App.libraryAssets s).
Proof.
  cbv zeta. split; [reflexivity|].
  unfold AssetLibraryModal.concepts, AssetLibraryModal.images,
    AssetLibraryModal.videos, AssetLibraryModal.filteredAssets,
    handleAddToLibrary.
  cbn [App.setLibraryAssets App.libraryAssets filter metaMode
       LibraryAsset.meta AssetMeta.mode modeIs].
  destruct filterMode as [|m]; cbn [shows];
    [|destruct (AppMode_eqb mode m)];
    destruct type; cbn [filter LibraryAsset.type AssetType_eqb andb app];
    repeat split; reflexivity.
Qed.

(** X29.  What is promoted to the library is displayed in the column of
    its kind under the filter of the mode it was promoted in, and under
    no other mode.  Each of the three promotions ([handleAdd] of
    StepIdeation, [handleAddToLibrary] of StepVisualizer and of
    StepProduction) puts one asset in front of the library and leaves
    the histories as they are; in the library window the asset heads
    the column of its kind when the filter is [all] or the mode of the
    promotion, every other column and every other filter show what they
    showed before.  Without an active video, StepProduction promotes
    nothing. *)
Theorem promoted_asset_is_shown_under_its_mode :
  forall (now1 now2 : N) (currentMode : AppMode) (product : ProductInfo.t)
         (concept : SceneConcept.t) (imgBase64 prompt : string)
         (p : Production.t) (filterMode : FilterMode) (s : App.t),
    (exists newAsset,
        App.libraryAssets
          (StepIdeation.handleAdd now1 now2 currentMode product concept s)
        = newAsset :: App.libraryAssets s
        /\ LibraryAsset.content newAsset = ConceptContent concept
        /\ AssetLibraryModal.concepts filterMode
             (App.libraryAssets
                (StepIdeation.handleAdd now1 now2 currentMode product
                   concept s))
           = (if shows filterMode currentMode then [newAsset] else [])
             ++ AssetLibraryModal.concepts filterMode (App.libraryAssets s)
        /\ AssetLibraryModal.images filterMode
             (App.libraryAssets
                (StepIdeation.handleAdd now1 now2 currentMode product
                   concept s))
           = AssetLibraryModal.images filterMode (App.libraryAssets s)
        /\ AssetLibraryModal.videos filterMode
             (App.libraryAssets
                (StepIdeation.handleAdd now1 now2 currentMode product
                   concept s))
           = AssetLibraryModal.videos filterMode (App.libraryAssets s))
    /\ (exists newAsset,
          App.libraryAssets
            (StepVisualizer.handleAddToLibrary now1 now2 currentMode concept
               imgBase64 prompt s)
          = newAsset :: App.libraryAssets s
          /\ LibraryAsset.content newAsset = StringContent imgBase64
          /\ AssetLibraryModal.images filterMode
               (App.libraryAssets
                  (StepVisualizer.handleAddToLibrary now1 now2 currentMode
                     concept imgBase64 prompt s))
             = (if shows filterMode currentMode then [newAsset] else [])
               ++ AssetLibraryModal.images filterMode (App.libraryAssets s)
          /\ AssetLibraryModal.concepts filterMode
               (App.libraryAssets
                  (StepVisualizer.handleAddToLibrary now1 now2 currentMode
                     concept imgBase64 prompt s))
             = AssetLibraryModal.concepts filterMode (App.libraryAssets s)
          /\ AssetLibraryModal.videos filterMode
               (App.libraryAssets
                  (StepVisualizer.handleAddToLibrary now1 now2 currentMode
                     concept imgBase64 prompt s))
             = AssetLibraryModal.videos filterMode (App.libraryAssets s))
    /\ (forall activeVideo,
          Production.activeVideo p = Some activeVideo ->
          exists newAsset,
            App.libraryAssets
              (StepProduction.handleAddToLibrary now1 now2 concept p s)
            = newAsset :: App.libraryAssets s
            /\ LibraryAsset.content newAsset
               = StringContent (VideoHistoryItem.blobUrl activeVideo)
            /\ AssetLibraryModal.videos filterMode
                 (App.libraryAssets
                    (StepProduction.handleAddToLibrary now1 now2 concept p s))
               = (if shows filterMode video then [newAsset] else [])
                 ++ AssetLibraryModal.videos filterMode (App.libraryAssets s)
            /\ AssetLibraryModal.concepts filterMode
                 (App.libraryAssets
                    (StepProduction.handleAddToLibrary now1 now2 concept p s))
               = AssetLibraryModal.concepts filterMode (App.libraryAssets s)
            /\ AssetLibraryModal.images filterMode
                 (App.libraryAssets
                    (StepProduction.handleAddToLibrary now1 now2 concept p s))
               = AssetLibraryModal.images filterMode (App.libraryAssets s))
    /\ (Production.activeVideo p = None ->
        StepProduction.handleAddToLibrary now1 now2 concept p s = s)
    /\ App.historyConcepts
         (StepIdeation.handleAdd now1 now2 currentMode product concept s)
       = App.historyConcepts s
    /\ App.historyImages
         (StepVisualizer.handleAddToLibrary now1 now2 currentMode concept
            imgBase64 prompt s)
       = App.historyImages s
    /\ App.historyVideos
         (StepProduction.handleAddToLibrary now1 now2 concept p s)
       = App.historyVideos s.
Proof.
  intros now1 now2 currentMode product concept imgBase64 prompt p filterMode s.
  split; [|split; [|split; [|split; [|split; [|split]]]]].
  - unfold StepIdeation.handleAdd.
    destruct (handleAddToLibrary_columns now1 now2 concept_asset
                (ConceptContent concept) currentMode
                (Some (SceneConcept.title concept)) None
                (Some (ProductInfo.name product))
                (Some (SceneConcept.title concept)) filterMode s)
      as (Hlib & Hc & Hi & Hv).
    eexists. split; [exact Hlib|]. split; [reflexivity|].
    rewrite Hc, Hi, Hv. cbn [AssetType_eqb]. rewrite andb_true_r, !andb_false_r.
    repeat split; reflexivity.
  - unfold StepVisualizer.handleAddToLibrary.
    destruct (handleAddToLibrary_columns now1 now2 image_asset
                (StringContent imgBase64) currentMode None (Some prompt)
                (Some (SceneConcept.productName concept))
                (Some (SceneConcept.title concept)) filterMode s)
      as (Hlib & Hc & Hi & Hv).
    eexists. split; [exact Hlib|]. split; [reflexivity|].
    rewrite Hc, Hi, Hv. cbn [AssetType_eqb]. rewrite andb_true_r, !andb_false_r.
    repeat split; reflexivity.
  - intros activeVideo Hactive.
    unfold StepProduction.handleAddToLibrary. rewrite Hactive.
    destruct (handleAddToLibrary_columns now1 now2 video_asset
                (StringContent (VideoHistoryItem.blobUrl activeVideo)) video
                None (Some (Production.currentScript p))
                (Some (SceneConcept.productName concept))
                (Some (SceneConcept.title concept)) filterMode s)
      as (Hlib & Hc & Hi & Hv).
    eexists. split; [exact Hlib|]. split; [reflexivity|].
    rewrite Hc, Hi, Hv. cbn [AssetType_eqb]. rewrite andb_true_r, !andb_false_r.
    repeat split; reflexivity.
  - intros Hnone. unfold StepProduction.handleAddToLibrary. rewrite Hnone.
    reflexivity.
  - reflexivity.
  - reflexivity.
  - unfold StepProduction.handleAddToLibrary.
    destruct (Production.activeVideo p); reflexivity.
Qed.

Lemma columns_partition (l : list LibraryAsset.t) :
  Permutation
    (filter (fun a => AssetType_eqb (LibraryAsset.type a) concept_asset) l
     ++ filter (fun a => AssetType_eqb (LibraryAsset.type a) image_asset) l
     ++ filter (fun a => AssetType_eqb (LibraryAsset.type a) video_asset) l)
    l.
Proof.
  induction l as [|a l IH]; simpl; [constructor|].
  destruct (LibraryAsset.type a); simpl.
  - constructor. exact IH.
  - rewrite <- Permutation_middle. constructor. exact IH.
  - rewrite app_assoc. rewrite <- Permutation_middle. constructor.
    rewrite <- app_assoc. exact IH.
Qed.

(** X30.  The library window loses no asset and shows none twice.  The
    three columns together hold the filtered assets, each asset in the
    column of its type only; the filter [all] keeps every asset of the
    library, and the filter of a mode keeps exactly the assets whose
    meta data name this mode, so an asset saved without meta data is
    shown under [all] only. *)
Theorem library_columns_partition_the_assets :
  forall (filterMode : FilterMode) (assets : list LibraryAsset.t),
    Permutation
      (AssetLibraryModal.concepts filterMode assets
       ++ AssetLibraryModal.images filterMode assets
       ++ AssetLibraryModal.videos filterMode assets)
      (AssetLibraryModal.filteredAssets filterMode assets)
    /\ length (AssetLibraryModal.concepts filterMode assets)
       + length (AssetLibraryModal.images filterMode assets)
       + length (AssetLibraryModal.videos filterMode assets)
       = length (AssetLibraryModal.filteredAssets filterMode assets)
    /\ AssetLibraryModal.filteredAssets all assets = assets
    /\ (forall mode a,
          In a (AssetLibraryModal.filteredAssets (onlyMode mode) assets)
          <-> In a assets /\ metaMode a = Some mode)
    /\ (forall a,
          (In a (AssetLibraryModal.concepts filterMode assets)
           <-> In a (AssetLibraryModal.filteredAssets filterMode assets)
               /\ LibraryAsset.type a = concept_asset)
          /\ (In a (AssetLibraryModal.images filterMode assets)
              <-> In a (AssetLibraryModal.filteredAssets filterMode assets)
                  /\ LibraryAsset.type a = image_asset)
          /\ (In a (AssetLibraryModal.videos filterMode assets)
              <-> In a (AssetLibraryModal.filteredAssets filterMode assets)
                  /\ LibraryAsset.type a = video_asset))
    /\ (forall a,
          LibraryAsset.meta a = None ->
          In a (AssetLibraryModal.filteredAssets filterMode assets) ->
          filterMode = all).
Proof.
  intros filterMode assets.
  pose proof (columns_partition
                (AssetLibraryModal.filteredAssets filterMode assets)) as Hperm.
  split; [exact Hperm|]. split.
  - apply Permutation_length in Hperm. rewrite !length_app in Hperm.
    unfold AssetLibraryModal.concepts, AssetLibraryModal.images,
      AssetLibraryModal.videos. lia.
  - split.
    { unfold AssetLibraryModal.filteredAssets. clear Hperm.
      induction assets as [|a assets IH]; simpl; [reflexivity|].
      f_equal. exact IH. }
    split.
    { intros mode a. unfold AssetLibraryModal.filteredAssets.
      rewrite filter_In, modeIs_true. reflexivity. }
    split.
    { intros a.
      unfold AssetLibraryModal.concepts, AssetLibraryModal.images,
        AssetLibraryModal.videos.
      rewrite !filter_In.
      destruct (LibraryAsset.type a); simpl; intuition congruence. }
    intros a Hmeta Hin. destruct filterMode as [|mode]; [reflexivity|].
    unfold AssetLibraryModal.filteredAssets in Hin.
    apply filter_In in Hin. destruct Hin as (_ & Hmode).
    unfold metaMode in Hmode. rewrite Hmeta in Hmode. discriminate.
Qed.
